(** * GPU monitor: the load generators, the trimming test, the static server
      and the installer, embedded and checked against their specification.

    Sources embedded here:
    - [tests/db_load_test.py], [tests/db_load_3d_test.py]: schema creation,
      synthetic readings, batched inserts, history export;
    - [tests/test_trimming.py]: record count and the trim (delete + vacuum);
    - [server.py]: the static file handler;
    - [no_docker.py]: the installer's prerequisite check and its [main]. *)

From Stdlib Require Import QArith Qcanon Ascii String Lqa.
From stdpp Require Import base tactics decidable option numbers list sorting strings gmap.

Local Open Scope Z_scope.

(* ===================================================================== *)
(** * Python numbers *)
(* ===================================================================== *)

(** A Python [float] (or an [int] used where a float is expected) is
    modelled by its numeric value: a rational, an infinity or NaN.  The
    code below only compares and selects such values, it never does
    arithmetic on them, so nothing is rounded and the model is exact. *)
Module PyNum.

Inductive pyfloat : Type :=
| Fin (q : Qc)
| PosInf
| NegInf
| NaN.

#[global] Instance pyfloat_eq_dec : EqDecision pyfloat.
Proof. solve_decision. Defined.

Definition of_int (z : Z) : pyfloat := Fin (Qc_of_Z z).

(** IEEE comparison: NaN is unordered with everything. *)
Definition fcompare (a b : pyfloat) : option comparison :=
  match a, b with
  | NaN, _ | _, NaN => None
  | Fin p, Fin q => Some (p ?= q)%Qc
  | NegInf, NegInf => Some Eq
  | PosInf, PosInf => Some Eq
  | NegInf, _ => Some Lt
  | _, NegInf => Some Gt
  | _, PosInf => Some Lt
  | PosInf, _ => Some Gt
  end.

(** [a < b], [a > b], [a <= b], [a == b] of Python. *)
Definition flt (a b : pyfloat) : bool :=
  match fcompare a b with Some Lt => true | _ => false end.
Definition fgt (a b : pyfloat) : bool := flt b a.
Definition fle (a b : pyfloat) : bool :=
  match fcompare a b with Some Lt | Some Eq => true | _ => false end.

(** The builtin [min(a, b)]: keeps [a] unless [b < a]. *)
Definition py_min (a b : pyfloat) : pyfloat := if flt b a then b else a.
(** The builtin [max(a, b)]: keeps [a] unless [b > a]. *)
Definition py_max (a b : pyfloat) : pyfloat := if fgt b a then b else a.

(** [lo <= v <= hi]. *)
Definition in_range (lo hi : Z) (v : pyfloat) : bool :=
  fle (of_int lo) v && fle v (of_int hi).

End PyNum.
Export PyNum.

(* ===================================================================== *)
(** * Synthetic readings: [generate_metrics] *)
(* ===================================================================== *)

Module Generator.

(** The value of the variable [power] between lines 160 and 172 of
    [db_load_3d_test.py]: a number, or the string ["N/A"]. *)
Inductive py_power : Type :=
| PowerNum (w : pyfloat)
| PowerNA.

(** What one loop iteration has computed before "Ensure values are within
    reasonable ranges": the four generated values. *)
Record raw_reading : Type := RawReading {
  raw_temp : pyfloat;
  raw_util : pyfloat;
  raw_mem : pyfloat;
  raw_power : py_power
}.

(** The tuple appended to [metrics]:
    [(timestamp, timestamp_epoch, temp, util, mem, power)]. *)
Record sample : Type := Sample {
  s_timestamp : string;
  s_epoch : Z;
  s_temp : pyfloat;
  s_util : pyfloat;
  s_mem : pyfloat;
  s_power : pyfloat
}.

#[global] Instance sample_eq_dec : EqDecision sample.
Proof. solve_decision. Defined.

(** [max(lo, min(hi, x))]. *)
Definition clamp (lo hi : Z) (x : pyfloat) : pyfloat :=
  py_max (of_int lo) (py_min (of_int hi) x).

Definition clamp_temp := clamp 20 95.
Definition clamp_util := clamp 0 100.
Definition clamp_mem := clamp 500 12000.
Definition clamp_power := clamp 10 350.

(** The double written [0.995] in the source. *)
Definition disconnect_threshold : pyfloat :=
  Fin (Q2Qc (8962163258467287 # 9007199254740992)).

(** Lines 162-164: [if random.random() > 0.995: power = "N/A"]. *)
Definition simulate_disconnect (draw : pyfloat) (power : pyfloat) : py_power :=
  if fgt draw disconnect_threshold then PowerNA else PowerNum power.

(** Lines 170-172: [if power == "N/A": power = 0]. *)
Definition handle_na (power : py_power) : pyfloat :=
  match power with
  | PowerNA => of_int 0
  | PowerNum w => w
  end.

(** One iteration of the loop of [db_load_3d_test.generate_metrics], from
    line 156 on; [draw] is the value of [random.random()], and
    [timestamp], [timestamp_epoch] are the two renderings of
    [current_time]. *)
Definition generate_one_3d (timestamp : string) (timestamp_epoch : Z)
    (temp util mem power draw : pyfloat) : sample :=
  let temp := clamp_temp temp in
  let util := clamp_util util in
  let mem := clamp_mem mem in
  let power := clamp_power power in
  let power := simulate_disconnect draw power in
  let power := handle_na power in
  Sample timestamp timestamp_epoch temp util mem power.

(** One iteration of the loop of [db_load_test.generate_metrics], from
    line 94 on: the same clamps, no unavailable reading. *)
Definition generate_one (timestamp : string) (timestamp_epoch : Z)
    (temp util mem power : pyfloat) : sample :=
  let temp := clamp_temp temp in
  let util := clamp_util util in
  let mem := clamp_mem mem in
  let power := clamp_power power in
  Sample timestamp timestamp_epoch temp util mem power.

(** The sanitizing part of the iteration seen as one function of a raw
    reading whose power is numeric or unavailable: the four clamps, and
    ["N/A"] turned into [0]. *)
Definition sanitize (timestamp : string) (timestamp_epoch : Z)
    (r : raw_reading) : sample :=
  Sample timestamp timestamp_epoch
    (clamp_temp (raw_temp r)) (clamp_util (raw_util r)) (clamp_mem (raw_mem r))
    (handle_na
       match raw_power r with
       | PowerNum w => PowerNum (clamp_power w)
       | PowerNA => PowerNA
       end).

(** The raw reading an iteration of the 3-day generator stands for. *)
Definition reading_of (temp util mem power draw : pyfloat) : raw_reading :=
  RawReading temp util mem
    (if fgt draw disconnect_threshold then PowerNA else PowerNum power).


End Generator.
Export Generator.

(* ===================================================================== *)
(** * The SQLite store behind a [sqlite3] connection *)
(* ===================================================================== *)

Module Sqlite.

Inductive sql_type : Type := INTEGER | TEXT | REAL.

Record column : Type := Column {
  col_name : string;
  col_type : sql_type;
  col_not_null : bool;
  col_primary_key : bool;
  col_autoincrement : bool
}.

(** The columns declared by [CREATE TABLE IF NOT EXISTS gpu_metrics]. *)
Definition gpu_metrics_columns : list column :=
  [ Column "id" INTEGER false true true;
    Column "timestamp" TEXT true false false;
    Column "timestamp_epoch" INTEGER true false false;
    Column "temperature" REAL true false false;
    Column "utilization" REAL true false false;
    Column "memory" REAL true false false;
    Column "power" REAL true false false ].

(** The name and the column of
    [CREATE INDEX IF NOT EXISTS idx_gpu_metrics_timestamp_epoch
     ON gpu_metrics(timestamp_epoch)]. *)
Definition index_name : string := "idx_gpu_metrics_timestamp_epoch".
Definition index_column : string := "timestamp_epoch".

(** A stored row of [gpu_metrics]. *)
Record row : Type := Row {
  id : Z;
  timestamp : string;
  timestamp_epoch : Z;
  temperature : pyfloat;
  utilization : pyfloat;
  memory : pyfloat;
  power : pyfloat
}.

#[global] Instance row_eq_dec : EqDecision row.
Proof. solve_decision. Defined.

(** The table, with the columns above: its rows in rowid order, the
    AUTOINCREMENT high-water mark kept in [sqlite_sequence], and whether
    the index on [timestamp_epoch] has been created. *)
Record table : Type := Table {
  rows : list row;
  sqlite_sequence : Z;
  epoch_index : bool
}.

(** The database file: [None] while [gpu_metrics] has not been created.
    A file in which something else has made a table of that name with
    other columns is not among these; what schema initialisation does on
    such a file is in [Catalog] below. *)
Record database : Type := Database {
  gpu_metrics : option table
}.

(** A connection: the committed database, the working copy of an open
    transaction if there is one, and how many more row insertions the
    storage engine can take before it fails ([None]: no limit; this is
    how a disk filling up, or any failure in the middle of a batch,
    enters the model). *)
Record connection : Type := Conn {
  durable : database;
  txn : option database;
  budget : option nat
}.

(** What the connection itself reads: its own uncommitted changes
    included. *)
Definition view (c : connection) : database :=
  default (durable c) (txn c).

(** [sqlite3.connect(db_path)]. *)
Definition connect (db : database) (b : option nat) : connection :=
  Conn db None b.

(** [conn.close()]: an open transaction is rolled back; the file keeps
    the committed state. *)
Definition close (c : connection) : database := durable c.

Inductive exn : Type :=
| OperationalError (msg : string)
| IntegrityError (msg : string)
| ValueError (msg : string)
| OSError (msg : string).

Inductive outcome (A : Type) : Type :=
| Ok (a : A) (c : connection)
| Raise (e : exn) (c : connection).
Arguments Ok {A} a c.
Arguments Raise {A} e c.

(** Statements run against a connection and either return or raise. *)
Definition M (A : Type) : Type := connection → outcome A.

#[global] Instance M_ret : MRet M := λ A a c, Ok a c.
#[global] Instance M_bind : MBind M := λ A B f m c,
  match m c with
  | Ok a c' => f a c'
  | Raise e c' => Raise e c'
  end.

Definition raise {A} (e : exn) : M A := λ c, Raise e c.

(** [for x in xs: body(x)]. *)
Fixpoint for_each {A} (xs : list A) (body : A → M unit) : M unit :=
  match xs with
  | [] => mret tt
  | x :: xs' => body x ;; for_each xs' body
  end.

Definition no_such_table : exn := OperationalError "no such table: gpu_metrics".

(** The table a statement is prepared against. *)
Definition the_table : M table := λ c,
  match gpu_metrics (view c) with
  | Some t => Ok t c
  | None => Raise no_such_table c
  end.

(** The module opens a transaction before INSERT and DELETE when none is
    open. *)
Definition begin_implicit : M unit := λ c,
  match txn c with
  | Some _ => Ok tt c
  | None => Ok tt (Conn (durable c) (Some (durable c)) (budget c))
  end.

Definition write_table (t : table) : M unit := λ c,
  Ok tt (Conn (durable c) (Some (Database (Some t))) (budget c)).

(** [conn.execute("BEGIN TRANSACTION")]. *)
Definition execute_begin : M unit := λ c,
  match txn c with
  | Some _ =>
      Raise (OperationalError "cannot start a transaction within a transaction") c
  | None => Ok tt (Conn (durable c) (Some (durable c)) (budget c))
  end.

(** [conn.commit()]. *)
Definition commit : M unit := λ c,
  Ok tt (Conn (view c) None (budget c)).

(** [DELETE FROM gpu_metrics]; the sequence is kept. *)
Definition execute_delete_all : M unit :=
  t ← the_table;
  begin_implicit;;
  write_table (Table [] (sqlite_sequence t) (epoch_index t)).

(** [DELETE FROM gpu_metrics WHERE timestamp_epoch < cutoff]. *)
Definition execute_delete_older (cutoff : Z) : M unit :=
  t ← the_table;
  begin_implicit;;
  write_table
    (Table (filter (λ r, ¬ timestamp_epoch r < cutoff) (rows t))
           (sqlite_sequence t) (epoch_index t)).

(** [VACUUM]: the file is rewritten, the rows, their rowids and the
    schema stay. *)
Definition execute_vacuum : M unit := λ c,
  match txn c with
  | Some _ => Raise (OperationalError "cannot VACUUM from within a transaction") c
  | None => Ok tt c
  end.

(** [SELECT COUNT( * ) FROM gpu_metrics]. *)
Definition select_count : M Z :=
  t ← the_table;
  mret (Z.of_nat (length (rows t))).

(** A bound parameter: a Python float that is NaN is bound as NULL. *)
Definition bind_real (x : pyfloat) : option pyfloat :=
  match x with
  | NaN => None
  | _ => Some x
  end.

(** The largest rowid in the table. *)
Definition max_rowid (rs : list row) : Z :=
  foldr (λ r m, Z.max (id r) m) 0 rs.

(** The rowid AUTOINCREMENT gives the next row: one more than every rowid
    the table has ever held. *)
Definition next_rowid (t : table) : Z :=
  Z.max (sqlite_sequence t) (max_rowid (rows t)) + 1.

(** One [INSERT INTO gpu_metrics (timestamp, timestamp_epoch, temperature,
    utilization, memory, power) VALUES (?, ?, ?, ?, ?, ?)]: [None] when a
    NOT NULL column would receive NULL.  The epoch is stored as it is
    given: an integer outside 64 bits, which [sqlite3] refuses with
    [OverflowError] when it binds it, is not told apart here, and the facts
    about tuples of any origin ask for [int64] epochs. *)
Definition insert_row (s : sample) (t : table) : option table :=
  temp ← bind_real (s_temp s);
  util ← bind_real (s_util s);
  mem ← bind_real (s_mem s);
  pow ← bind_real (s_power s);
  let i := next_rowid t in
  Some (Table (rows t ++ [Row i (s_timestamp s) (s_epoch s) temp util mem pow])
              i (epoch_index t)).

Definition execute_insert (s : sample) : M unit := λ c,
  match gpu_metrics (view c) with
  | None => Raise no_such_table c
  | Some t =>
      match budget c with
      | Some O => Raise (OperationalError "database or disk is full") c
      | b =>
          match insert_row s t with
          | None =>
              Raise (IntegrityError "NOT NULL constraint failed: gpu_metrics") c
          | Some t' =>
              Ok tt (Conn (durable c) (Some (Database (Some t'))) (pred <$> b))
          end
      end
  end.

(** [conn.executemany("INSERT INTO gpu_metrics ...", batch)]: the
    statement is prepared, a transaction is opened if none is, and the
    rows are inserted one after the other; the first failure raises and
    leaves the earlier rows of the batch in the open transaction. *)
Definition executemany_insert (batch : list sample) : M unit :=
  the_table;;
  begin_implicit;;
  for_each batch execute_insert.

(** The order of the index on [timestamp_epoch]: by epoch, then by
    rowid. *)
Definition index_le (r1 r2 : row) : Prop :=
  timestamp_epoch r1 < timestamp_epoch r2
  ∨ (timestamp_epoch r1 = timestamp_epoch r2 ∧ id r1 ≤ id r2).

#[global] Instance index_le_dec : RelDecision index_le.
Proof. intros r1 r2. unfold index_le. apply _. Defined.

(** The rows of
    [WHERE timestamp_epoch > cutoff ORDER BY timestamp_epoch ASC]. *)
Definition window_rows (cutoff : Z) (t : table) : list row :=
  merge_sort index_le (filter (λ r, cutoff < timestamp_epoch r) (rows t)).

(** The selected columns: [timestamp, temperature, utilization, memory,
    power]. *)
Definition five_columns (r : row) : string * pyfloat * pyfloat * pyfloat * pyfloat :=
  (timestamp r, temperature r, utilization r, memory r, power r).

(** [SELECT timestamp, temperature, utilization, memory, power
     FROM gpu_metrics WHERE timestamp_epoch > ?
     ORDER BY timestamp_epoch ASC] and [cur.fetchall()]. *)
Definition select_window (cutoff : Z)
    : M (list (string * pyfloat * pyfloat * pyfloat * pyfloat)) :=
  t ← the_table;
  mret (five_columns <$> window_rows cutoff t).

(** [CREATE TABLE IF NOT EXISTS gpu_metrics (...)]. *)
Definition create_table_if_not_exists (db : database) : database :=
  match gpu_metrics db with
  | Some _ => db
  | None => Database (Some (Table [] 0 false))
  end.

(** [CREATE INDEX IF NOT EXISTS idx_gpu_metrics_timestamp_epoch
     ON gpu_metrics(timestamp_epoch)]. *)
Definition create_index_if_not_exists (db : database) : option database :=
  match gpu_metrics db with
  | Some t => Some (Database (Some (Table (rows t) (sqlite_sequence t) true)))
  | None => None
  end.

(** [conn.executescript(...)] with the two statements above: a pending
    transaction is committed first, then each statement takes effect at
    once. *)
Definition executescript_schema : M unit := λ c,
  let db := create_table_if_not_exists (view c) in
  match create_index_if_not_exists db with
  | Some db' => Ok tt (Conn db' None (budget c))
  | None => Raise no_such_table (Conn db None (budget c))
  end.

End Sqlite.
Export Sqlite.

(* ===================================================================== *)
(** * The schema of any database file *)
(* ===================================================================== *)

(** [create_db_schema] once more, on the schema alone and for every file:
    the table [gpu_metrics] of the file may have been created by something
    else, with other columns, and so may the index.  The stores of the
    row model above are the files whose table, if there is one, has the
    columns of the script ([catalog_of]). *)
Module Catalog.

(** An index: the table it is on and its columns. *)
Record index_def : Type := IndexDef {
  on_table : string;
  on_columns : list string
}.

#[global] Instance sql_type_eq_dec : EqDecision sql_type.
Proof. solve_decision. Defined.
#[global] Instance column_eq_dec : EqDecision column.
Proof. solve_decision. Defined.
#[global] Instance index_def_eq_dec : EqDecision index_def.
Proof. solve_decision. Defined.

(** The schema of a file as far as the two statements read and write it:
    the columns of the table named [gpu_metrics], if the file has one, and
    the index named [idx_gpu_metrics_timestamp_epoch], if the file has
    one. *)
Record catalog : Type := Catalog {
  table_columns : option (list column);
  epoch_index_def : option index_def
}.

(** The index the script declares. *)
Definition declared_index : index_def := IndexDef "gpu_metrics" [index_column].

Definition no_such_column : exn :=
  OperationalError "no such column: timestamp_epoch".

(** [CREATE TABLE IF NOT EXISTS gpu_metrics (...)]: a table of that name
    is kept as it is. *)
Definition create_table (cat : catalog) : catalog :=
  match table_columns cat with
  | Some _ => cat
  | None => Catalog (Some gpu_metrics_columns) (epoch_index_def cat)
  end.

(** [CREATE INDEX IF NOT EXISTS idx_gpu_metrics_timestamp_epoch
     ON gpu_metrics(timestamp_epoch)]: an index of that name is kept as
    it is; otherwise the column has to be one of the table. *)
Definition create_index (cat : catalog) : catalog + exn :=
  match epoch_index_def cat with
  | Some _ => inl cat
  | None =>
      match table_columns cat with
      | Some columns =>
          if decide (index_column ∈ col_name <$> columns)
          then inl (Catalog (Some columns) (Some declared_index))
          else inr no_such_column
      | None => inr no_such_table
      end
  end.

(** [conn.executescript(...)]: the schema it leaves and the exception it
    ends with, if any; each statement takes effect at once, so the first
    has when the second raises. *)
Definition executescript (cat : catalog) : catalog * option exn :=
  let cat := create_table cat in
  match create_index cat with
  | inl cat' => (cat', None)
  | inr e => (cat, Some e)
  end.

(** The schema the script declares. *)
Definition declared : catalog := Catalog (Some gpu_metrics_columns) (Some declared_index).

(** The schema of a store of the row model. *)
Definition catalog_of (db : database) : catalog :=
  match gpu_metrics db with
  | Some t =>
      Catalog (Some gpu_metrics_columns)
              (if epoch_index t then Some declared_index else None)
  | None => Catalog None None
  end.

(** The file is new, or what it has of the table and the index is what the
    script declares. *)
Definition made_by_the_script (cat : catalog) : Prop :=
  (table_columns cat = None ∨ table_columns cat = Some gpu_metrics_columns)
  ∧ (epoch_index_def cat = None ∨ epoch_index_def cat = Some declared_index).

(** A value stored in a column. *)
Inductive value : Type :=
| VInteger (z : Z)
| VText (s : string)
| VReal (x : pyfloat).

(** What a row of the row model holds in the column of a given name. *)
Definition row_value (r : row) (name : string) : option value :=
  if decide (name = "id") then Some (VInteger (id r))
  else if decide (name = "timestamp") then Some (VText (timestamp r))
  else if decide (name = "timestamp_epoch") then Some (VInteger (timestamp_epoch r))
  else if decide (name = "temperature") then Some (VReal (temperature r))
  else if decide (name = "utilization") then Some (VReal (utilization r))
  else if decide (name = "memory") then Some (VReal (memory r))
  else if decide (name = "power") then Some (VReal (power r))
  else None.

(** A table [gpu_metrics] made by something else: it has no column
    [timestamp_epoch]. *)
Definition foreign_catalog : catalog :=
  Catalog (Some [ Column "id" INTEGER false true true;
                  Column "note" TEXT false false false ]) None.

(** Another one, which has a column [timestamp_epoch] and a note. *)
Definition foreign_catalog_with_epoch : catalog :=
  Catalog (Some [ Column "timestamp_epoch" INTEGER false false false;
                  Column "note" TEXT false false false ]) None.

End Catalog.

(* ===================================================================== *)
(** * Dates *)
(* ===================================================================== *)

(** The scripts use naive datetimes: [datetime.now()] is the reading of
    the local clock, without a time zone.  Such a datetime is modelled by
    that reading, in microseconds (the resolution of the type) counted
    from 1970-01-01 00:00:00 on the clock face; adding or subtracting a
    [timedelta] is then exact, as it is in Python, whatever the UTC offset
    does in between. *)
Module Clock.

Definition microseconds_per_second : Z := 1000000.

(** [timedelta(days=d, hours=h, minutes=m)]. *)
Definition timedelta (d h m : Z) : Z :=
  ((d * 24 + h) * 60 + m) * 60 * microseconds_per_second.

(** The local time zone of the machine, as far as the scripts use it:
    [int(t.timestamp())] for a naive datetime [t].  [timestamp()] resolves
    the reading to POSIX seconds with the UTC offset in force at [t], gaps
    and repeated hours included, and rounds to a double; [int] truncates.
    All of this is the zone's: nothing is assumed of it. *)
Class zone : Type := int_timestamp : Z → Z.

(** The zone of a machine that keeps UTC, for the times whose seconds a
    double holds exactly (before the year 2514). *)
Definition utc : zone := λ t, Z.quot t microseconds_per_second.

(** A reading that is [slack] microseconds or more after another has a
    later epoch.  The slack covers the truncation to a second and, where
    the UTC offset changes, the size of the change: two seconds for
    [utc], an hour and two seconds where daylight saving time is kept. *)
Definition steady {tz : zone} (slack : Z) : Prop :=
  ∀ a b, a + slack ≤ b → int_timestamp a < int_timestamp b.

(** Between two readings the epochs do not go back: what a change from
    summer time to winter time in that span would break. *)
Definition ascending {tz : zone} (lo hi : Z) : Prop :=
  ∀ a b, lo ≤ a → a ≤ b → b < hi → int_timestamp a ≤ int_timestamp b.

(** [datetime.min] and [datetime.max]: 0001-01-01 00:00:00 and
    9999-12-31 23:59:59.999999.  Arithmetic that leaves this range raises
    [OverflowError]. *)
Definition datetime_min : Z := -62135596800000000.
Definition datetime_max : Z := 253402300799999999.

End Clock.
Export Clock.

(* ===================================================================== *)
(** * [db_load_test.py] and [db_load_3d_test.py] *)
(* ===================================================================== *)

Module LoadTest.

(** [create_db_schema(conn)]. *)
Definition create_db_schema : M unit :=
  executescript_schema;;
  commit.

(** [range(0, stop, step)]. *)
Definition py_range (stop step : Z) : M (list Z) :=
  if decide (step = 0) then raise (ValueError "range() arg 3 must not be zero")
  else if decide (0 < step) then
    mret ((λ k : nat, Z.of_nat k * step) <$> seq 0 (Z.to_nat ((stop + step - 1) `div` step)))
  else mret [].

(** [l[i:j]] for [0 <= i] and [0 <= j]. *)
Definition py_slice {A} (l : list A) (i j : Z) : list A :=
  take (Z.to_nat j - Z.to_nat i)%nat (drop (Z.to_nat i) l).

(** The transaction of one iteration of the insert loop (lines 133-139;
    the same three calls are in [test_trimming.add_old_records]):
    [BEGIN TRANSACTION], [executemany], [commit]. *)
Definition append_batch (batch : list sample) : M unit :=
  execute_begin;;
  executemany_insert batch;;
  commit.

(** The insert loop of [populate_database] (lines 126-146):
    [for i in range(0, total_records, batch_size)]. *)
Definition insert_in_batches (metrics : list sample) (batch_size : Z) : M unit :=
  let total_records := Z.of_nat (length metrics) in
  starts ← py_range total_records batch_size;
  for_each starts (λ i, append_batch (py_slice metrics i (i + batch_size))).

(** [populate_database(conn, metrics, batch_size)]: the existing rows are
    deleted first. *)
Definition populate_database (metrics : list sample) (batch_size : Z) : M unit :=
  execute_delete_all;;
  commit;;
  insert_in_batches metrics batch_size.

(** A value of the exported JSON document. *)
Inductive json_value : Type :=
| JString (s : string)
| JNumber (x : pyfloat).

#[global] Instance json_value_eq_dec : EqDecision json_value.
Proof. solve_decision. Defined.

(** [result[key].append(v)]. *)
Definition append_to (key : string) (v : json_value)
    (result : gmap string (list json_value)) : gmap string (list json_value) :=
  alter (λ l, l ++ [v]) key result.

(** The dictionary [result] before the loop. *)
Definition empty_result : gmap string (list json_value) :=
  <["power" := []]> (<["memory" := []]> (<["utilizations" := []]>
    (<["temperatures" := []]> (<["timestamps" := []]> ∅)))).

(** The body of [for row in cur.fetchall()]. *)
Definition process_row (result : gmap string (list json_value))
    (row : string * pyfloat * pyfloat * pyfloat * pyfloat)
    : gmap string (list json_value) :=
  let '(timestamp, temp, util, mem, power) := row in
  let result := append_to "timestamps" (JString timestamp) result in
  let result := append_to "temperatures" (JNumber temp) result in
  let result := append_to "utilizations" (JNumber util) result in
  let result := append_to "memory" (JNumber mem) result in
  append_to "power" (JNumber power) result.

(** The query and the loop shared by the two [create_history_json]: the
    dictionary handed to [json.dump]. *)
Definition history_document (cutoff_time : Z) : M (gmap string (list json_value)) :=
  fetched ← select_window cutoff_time;
  mret (foldl process_row empty_result fetched).

(** [cutoff_time] of [db_load_test.create_history_json]. *)
Definition cutoff_time {tz : zone} (now : Z) : Z :=
  int_timestamp (now - timedelta 0 24 10).

(** [cutoff_time] of [db_load_3d_test.create_history_json]. *)
Definition cutoff_time_3d {tz : zone} (now history_days : Z) : Z :=
  int_timestamp (now - timedelta history_days 0 10).

(** [os.makedirs(os.path.dirname(output_path), exist_ok=True)],
    [open(output_path, 'w')] and [json.dump(result, f, indent=4)]:
    [written] tells whether the outside lets them through; if not, one of
    them raises [OSError]. *)
Definition write_json (written : bool) (result : gmap string (list json_value))
    : M (gmap string (list json_value)) :=
  if written then mret result else raise (OSError "history.json").

(** [db_load_test.create_history_json(conn, output_path)], called at
    [now]; the result is what is written to [output_path]. *)
Definition create_history_json {tz : zone} (now : Z) (written : bool)
    : M (gmap string (list json_value)) :=
  result ← history_document (cutoff_time now);
  write_json written result.

(** [db_load_3d_test.create_history_json(conn, output_path, history_days)]. *)
Definition create_history_json_3d {tz : zone} (now history_days : Z) (written : bool)
    : M (gmap string (list json_value)) :=
  result ← history_document (cutoff_time_3d now history_days);
  write_json written result.

End LoadTest.
Export LoadTest.

(* ===================================================================== *)
(** * [test_trimming.py] *)
(* ===================================================================== *)

Module Trimming.

(** [count_records(conn)]. *)
Definition count_records : M Z := select_count.

(** The trim of [perform_trim_operation] (lines 105-113) at a given
    cutoff: delete, commit, vacuum, commit. *)
Definition trim (cutoff_time : Z) : M unit :=
  execute_delete_older cutoff_time;;
  commit;;
  execute_vacuum;;
  commit.

(** [cutoff_time] of [perform_trim_operation]. *)
Definition cutoff_time {tz : zone} (now : Z) : Z :=
  int_timestamp (now - timedelta 0 24 10).

(** [perform_trim_operation(conn)], called at [now]; the result is the
    three counts it prints: before, after, deleted. *)
Definition perform_trim_operation {tz : zone} (now : Z) : M (Z * Z * Z) :=
  let cutoff_time := cutoff_time now in
  before_count ← count_records;
  trim cutoff_time;;
  after_count ← count_records;
  let deleted_count := before_count - after_count in
  mret (before_count, after_count, deleted_count).

End Trimming.
Export Trimming.

(* ===================================================================== *)
(** * [server.py] *)
(* ===================================================================== *)

Module Server.

(** [s.lstrip(ch)] and [s.rstrip(ch)] for a one-character argument. *)
Fixpoint lstrip (ch : ascii) (s : string) : string :=
  match s with
  | EmptyString => EmptyString
  | String c s' => if decide (c = ch) then lstrip ch s' else s
  end.

Fixpoint rstrip (ch : ascii) (s : string) : string :=
  match s with
  | EmptyString => EmptyString
  | String c s' =>
      match rstrip ch s' with
      | EmptyString => if decide (c = ch) then EmptyString else String c EmptyString
      | t => String c t
      end
  end.

(** [s.strip(ch)]. *)
Definition strip (ch : ascii) (s : string) : string := rstrip ch (lstrip ch s).

(** [s.split(ch)]: the pieces between the occurrences of [ch]. *)
Fixpoint split_on (ch : ascii) (s : string) : list string :=
  match s with
  | EmptyString => [EmptyString]
  | String c s' =>
      if decide (c = ch) then EmptyString :: split_on ch s'
      else match split_on ch s' with
           | piece :: pieces => String c piece :: pieces
           | [] => [String c EmptyString]
           end
  end.

(** The file system the server runs on: its working directory and the
    absolute paths, as lists of names, of the directories and of the
    regular files that exist.  Links are left out. *)
Record filesystem : Type := FileSystem {
  cwd : list string;
  dirs : gset (list string);
  files : gset (list string)
}.

(** Resolution of a path by the operating system, name after name, from
    the directory [cur]: every prefix has to be an existing directory. *)
Fixpoint walk (fs : filesystem) (cur : list string) (names : list string)
    : option (list string) :=
  match names with
  | [] => Some cur
  | name :: names' =>
      if decide (cur ∈ dirs fs) then
        if decide (name = "" ∨ name = ".") then walk fs cur names'
        else if decide (name = "..") then walk fs (removelast cur) names'
        else
          let next := cur ++ [name] in
          if decide (next ∈ dirs fs ∨ next ∈ files fs) then walk fs next names'
          else None
      else None
  end.

(** Where a relative path leads, if it leads anywhere. *)
Definition resolve (fs : filesystem) (path : string) : option (list string) :=
  match path with
  | EmptyString => None
  | String "/" _ => walk fs [] (split_on "/" path)
  | _ => walk fs (cwd fs) (split_on "/" path)
  end.

(** [os.path.exists(path)]. *)
Definition os_path_exists (fs : filesystem) (path : string) : bool :=
  bool_decide (is_Some (resolve fs path)).

Record request : Type := Request { path : string }.

Inductive response : Type :=
| FileResponse (file_path : string)
| Response (status : Z).

(** [handle_static(request)]. *)
Definition handle_static (fs : filesystem) (request : request) : response :=
  let file_path := strip "/" (path request) in
  let file_path := if decide (file_path = "") then "gpu-stats.html" else file_path in
  if os_path_exists fs file_path then FileResponse file_path
  else Response 404.

(** The resolved path lies in the directory [dir] or below it. *)
Definition inside (dir p : list string) : Prop := dir `prefix_of` p.

(** One of the names of the path is [..]. *)
Definition has_dotdot (path : string) : Prop := ".." ∈ split_on "/" path.

(** The names of a path put together with slashes. *)
Fixpoint join (names : list string) : string :=
  match names with
  | [] => EmptyString
  | name :: names' =>
      match names' with
      | [] => name
      | _ => String.append name (String "/" (join names'))
      end
  end.

Fixpoint no_slash (s : string) : Prop :=
  match s with
  | EmptyString => True
  | String c s' => c ≠ "/"%char ∧ no_slash s'
  end.

(** The name of a directory entry: not empty, neither [.] nor [..], and
    without a slash. *)
Definition entry_name (name : string) : Prop :=
  name ≠ "" ∧ name ≠ "." ∧ name ≠ ".." ∧ no_slash name.

(** The request that climbs from the working directory to the root and
    then follows the absolute path [p]. *)
Definition climbing_request (fs : filesystem) (p : list string) : request :=
  Request (String "/" (join (replicate (length (cwd fs)) ".." ++ p))).

End Server.
Export Server.

(* ===================================================================== *)
(** * [no_docker.py] *)
(* ===================================================================== *)

Module Installer.

Inductive py_exn : Type :=
| AttributeError (type_name attr : string)
| PermissionError (what : string)
| SystemExit (code : Z).

(** What the installer does to the outside, in order. *)
Inductive event : Type :=
| Subprocess (argv : list string)
| MethodCall (name : string)
| LogInfo (msg : string)
| LogError (msg : string)
| Print (msg : string).

(** What the outside answers. *)
Record environment : Type := Environment {
  geteuid : Z;
  log_dir_writable : bool;
  which_returncode : string → Z;
  python_at_least_3_8 : bool;
  systemd_present : bool;
  nvidia_smi_returncode : option Z;     (* [None]: FileNotFoundError *)
  nvidia_smi_found : option string;     (* the result of [check_nvidia_paths] *)
  method_result : string → bool         (* the results of the later steps *)
}.

(** The installer object and the log of events. *)
Record state : Type := State {
  nvidia_smi_path : option string;
  trace : list event
}.

Inductive result (A : Type) : Type :=
| Return (a : A) (s : state)
| Raised (e : py_exn) (s : state).
Arguments Return {A} a s.
Arguments Raised {A} e s.

Definition I (A : Type) : Type := state → result A.

#[global] Instance I_ret : MRet I := λ A a s, Return a s.
#[global] Instance I_bind : MBind I := λ A B f m s,
  match m s with
  | Return a s' => f a s'
  | Raised e s' => Raised e s'
  end.

Definition throw {A} (e : py_exn) : I A := λ s, Raised e s.
Definition emit (ev : event) : I unit := λ s,
  Return tt (State (nvidia_smi_path s) (trace s ++ [ev])).
Definition set_nvidia_smi_path (p : string) : I unit := λ s,
  Return tt (State (Some p) (trace s)).

(** The names defined in the body of [class GPUMonitorInstaller]. *)
Definition class_attributes : gset string :=
  list_to_set
    [ "__init__"; "setup_logging"; "detect_environment"; "check_nvidia_paths";
      "check_prerequisites"; "check_and_install_dependencies";
      "setup_directories"; "setup_virtual_environment"; "modify_monitor_script";
      "create_systemd_service"; "copy_application_files"; "check_service_status";
      "start_service"; "stop_service"; "cleanup";
      "__doc__"; "__module__"; "__qualname__"; "__dict__"; "__weakref__" ].

(** The names [__init__] and [setup_logging] assign on [self]. *)
Definition instance_attributes : gset string :=
  list_to_set
    [ "current_dir"; "user"; "user_home"; "app_dir"; "venv_dir"; "log_dir";
      "history_dir"; "systemd_service_path"; "nvidia_smi_path";
      "required_commands"; "required_packages"; "logger" ].

(** The names every instance inherits from [object], the only base. *)
Definition object_attributes : gset string :=
  list_to_set
    [ "__class__"; "__delattr__"; "__dir__"; "__eq__"; "__format__"; "__ge__";
      "__getattribute__"; "__getstate__"; "__gt__"; "__hash__";
      "__init_subclass__"; "__le__"; "__lt__"; "__ne__"; "__new__";
      "__reduce__"; "__reduce_ex__"; "__repr__"; "__setattr__"; "__sizeof__";
      "__str__"; "__subclasshook__" ].

(** [self.<name>]: the instance, then the class, then [object]; the class
    defines no [__getattr__]. *)
Definition getattr_self (name : string) : I unit :=
  if decide (name ∈ instance_attributes ∪ class_attributes ∪ object_attributes)
  then mret tt
  else throw (AttributeError "GPUMonitorInstaller" name).

Definition required_commands : list string :=
  [ "tr"; "cut"; "chmod"; "wc"; "date"; "sleep"; "systemctl" ].

(** The loop over [self.required_commands]. *)
Fixpoint which_missing (env : environment) (cmds : list string) : I (list string) :=
  match cmds with
  | [] => mret []
  | cmd :: cmds' =>
      emit (Subprocess ["which"; cmd]);;
      missing ← which_missing env cmds';
      mret (if decide (which_returncode env cmd ≠ 0) then cmd :: missing else missing)
  end.

(** [check_prerequisites(self)]. *)
Definition check_prerequisites (env : environment) : I bool :=
  getattr_self "ensure_path";;
  emit (MethodCall "ensure_path");;
  missing_commands ← which_missing env required_commands;
  if decide (missing_commands ≠ []) then
    emit (LogError "Missing commands");;
    mret false
  else
    emit (LogInfo "Checking prerequisites...");;
    if negb (python_at_least_3_8 env) then
      emit (LogError "Python 3.8 or higher is required");;
      mret false
    else if negb (systemd_present env) then
      emit (LogError "Systemd is required but not found");;
      mret false
    else
      emit (Subprocess ["nvidia-smi"]);;
      if decide (nvidia_smi_returncode env = Some 0) then
        set_nvidia_smi_path "nvidia-smi";;
        emit (LogInfo "nvidia-smi is available in PATH");;
        mret true
      else
        emit (MethodCall "check_nvidia_paths");;
        match nvidia_smi_found env with
        | None | Some EmptyString =>
            emit (LogError "nvidia-smi not found");;
            mret false
        | Some nvidia_smi =>
            set_nvidia_smi_path nvidia_smi;;
            mret true
        end.

(** A later step of the installation, known by its result only. *)
Definition step (env : environment) (name : string) : I bool :=
  emit (MethodCall name);;
  mret (method_result env name).

(** [a and b], [b] evaluated only when [a] is true. *)
Definition and_then (a b : I bool) : I bool :=
  a ≫= λ x : bool, if x then b else mret false.

(** [GPUMonitorInstaller()]: [__init__]. *)
Definition new_installer (env : environment) : I unit :=
  (if log_dir_writable env then mret tt
   else throw (PermissionError "/var/log/gpu-monitor"));;
  emit (LogInfo "Logging initialized");;
  if decide (geteuid env ≠ 0) then
    emit (LogError "This script must be run with root privileges (sudo)");;
    throw (SystemExit 1)
  else mret tt.

Record arguments : Type := Arguments {
  start : bool;
  stop : bool;
  status : bool;
  uninstall : bool;
  skip_path_fix : bool
}.

Definition success_message : string :=
  "GPU Monitor installed and started successfully!".

(** [main()] after [parser.parse_args()]. *)
Definition main (args : arguments) (env : environment) : I unit :=
  new_installer env;;
  if start args then
    emit (Print "Starting GPU Monitor installation...");;
    and_then (check_prerequisites env)
      (and_then (step env "check_and_install_dependencies")
      (and_then (step env "setup_directories")
      (and_then (step env "setup_virtual_environment")
      (and_then (step env "copy_application_files")
      (and_then (step env "modify_monitor_script")
      (and_then (step env "create_systemd_service")
                (step env "start_service")))))))
    ≫= λ ok : bool,
    if ok then
      emit (Print success_message)
    else
      emit (Print "Installation failed. Check logs for details.");;
      throw (SystemExit 1)
  else if stop args then
    step env "stop_service";; mret tt
  else if uninstall args then
    step env "cleanup";; mret tt
  else if status args then
    step env "check_service_status";; mret tt
  else
    emit (Print "usage");;
    throw (SystemExit 1).

(** The interpreter starts [main] on a fresh state. *)
Definition initial_state : state := State None [].

End Installer.

(* ===================================================================== *)
(** * Vocabulary of the statements *)
(* ===================================================================== *)

Module Vocabulary.

(** What clamping to the nearest bound means for an input [x] and an
    output [y]. *)
Definition clamp_law (lo hi : Z) (x y : pyfloat) : Prop :=
  (flt x (of_int lo) = true → y = of_int lo)
  ∧ (fgt x (of_int hi) = true → y = of_int hi)
  ∧ (in_range lo hi x = true → y = x).

(** The six values of a stored row that come from the inserted tuple. *)
Definition sample_of_row (r : row) : sample :=
  Sample (timestamp r) (timestamp_epoch r) (temperature r) (utilization r)
         (memory r) (power r).

(** No field of the tuple is NaN, which SQLite stores as NULL. *)
Definition storable (s : sample) : Prop :=
  s_temp s ≠ NaN ∧ s_util s ≠ NaN ∧ s_mem s ≠ NaN ∧ s_power s ≠ NaN.

#[global] Instance storable_dec s : Decision (storable s).
Proof. unfold storable. apply _. Defined.

(** [t'] is [t] with one new row per tuple of [batch], in order, after
    the rows of [t]. *)
Definition appended (t : table) (batch : list sample) (t' : table) : Prop :=
  ∃ new, rows t' = rows t ++ new
         ∧ sample_of_row <$> new = batch
         ∧ epoch_index t' = epoch_index t.

(** The connection is inside a transaction whose working copy holds the
    table [t]. *)
Definition in_txn (c : connection) (t : table) : Prop :=
  txn c = Some (Database (Some t)).

(** The table without the rows a trim at [cutoff] deletes. *)
Definition trimmed (cutoff : Z) (t : table) : table :=
  Table (filter (λ r, ¬ timestamp_epoch r < cutoff) (rows t))
        (sqlite_sequence t) (epoch_index t).

(** The connection an outcome leaves, returned or raised. *)
Definition state_of {A} (o : outcome A) : connection :=
  match o with
  | Ok _ c => c
  | Raise _ c => c
  end.

(** The table exists and so does its index on [timestamp_epoch]. *)
Definition has_index (db : database) : Prop :=
  ∃ t, gpu_metrics db = Some t ∧ epoch_index t = true.

(** The table [create_db_schema] leaves. *)
Definition with_schema (db : database) : table :=
  match gpu_metrics db with
  | Some t => Table (rows t) (sqlite_sequence t) true
  | None => Table [] 0 true
  end.

(** What the scripts do to a store. *)
Inductive operation : Type :=
| OpCreateSchema
| OpPopulate (metrics : list sample) (batch_size : Z)
| OpAppendBatch (batch : list sample)
| OpTrim (cutoff : Z)
| OpPerformTrim (now : Z)
| OpCount
| OpHistory (now : Z) (written : bool)
| OpHistory3d (now history_days : Z) (written : bool).

Definition perform {tz : zone} (op : operation) (c : connection) : connection :=
  match op with
  | OpCreateSchema => state_of (create_db_schema c)
  | OpPopulate metrics batch_size => state_of (populate_database metrics batch_size c)
  | OpAppendBatch batch => state_of (append_batch batch c)
  | OpTrim cutoff => state_of (trim cutoff c)
  | OpPerformTrim now => state_of (perform_trim_operation now c)
  | OpCount => state_of (count_records c)
  | OpHistory now written => state_of (create_history_json now written c)
  | OpHistory3d now history_days written =>
      state_of (create_history_json_3d now history_days written c)
  end.

(** The connections a run can be in once the schema has been
    initialised: after any operation, returned or raised, and after
    closing and connecting again. *)
Inductive reachable {tz : zone} : connection → Prop :=
| reachable_init c : reachable (state_of (create_db_schema c))
| reachable_step op c : reachable c → reachable (perform op c)
| reachable_reconnect c b : reachable c → reachable (connect (close c) b).

(** The invariant: the index exists in the committed store and in what
    the connection sees. *)
Definition indexed (c : connection) : Prop :=
  has_index (durable c) ∧ has_index (view c).

Definition keeps_index {A} (m : M A) : Prop :=
  ∀ c, indexed c → indexed (state_of (m c)).


(** The dictionary with the five keys of the history document. *)
Definition document (timestamps temperatures utilizations memory power : list json_value)
    : gmap string (list json_value) :=
  <["power" := power]> (<["memory" := memory]> (<["utilizations" := utilizations]>
    (<["temperatures" := temperatures]> (<["timestamps" := timestamps]> ∅)))).

(** Ascending epoch. *)
Definition epoch_le (r1 r2 : row) : Prop := timestamp_epoch r1 ≤ timestamp_epoch r2.


(** A tuple the sanitizing step can produce. *)
Definition sanitized (s : sample) : Prop :=
  ∃ timestamp timestamp_epoch r, s = sanitize timestamp timestamp_epoch r.

(** A freshly connected store whose table is empty. *)
Definition empty_store (sequence : Z) (index : bool) : connection :=
  connect (Database (Some (Table [] sequence index))) None.

(** The insert loop followed by the window query above epoch 0. *)
Definition write_then_window (metrics : list sample) (batch_size : Z)
    : M (list (string * pyfloat * pyfloat * pyfloat * pyfloat)) :=
  insert_in_batches metrics batch_size;;
  select_window 0.


(** A tick and its raw reading, and the tuple the generator makes of it. *)
Definition sanitize_reading (x : string * Z * raw_reading) : sample :=
  sanitize x.1.1 x.1.2 x.2.

(** Example readings: an ordinary one, one with no power reading, and one
    whose sensor measured zero watts. *)
Definition reading_ordinary : raw_reading :=
  RawReading (of_int 50) (of_int 10) (of_int 1000) (PowerNum (of_int 100)).
Definition reading_no_power : raw_reading :=
  RawReading (of_int 50) (of_int 10) (of_int 1000) PowerNA.
Definition reading_zero_watts : raw_reading :=
  RawReading (of_int 50) (of_int 10) (of_int 1000) (PowerNum (of_int 0)).

(** The same reading on 1 March 2022, on 1 March 2023 and on 1 January
    1970, each at 00:00:00 UTC. *)
Definition sample_2022 : sample := sanitize "03-01 00:00:00" 1646092800 reading_ordinary.
Definition sample_2023 : sample := sanitize "03-01 00:00:00" 1677628800 reading_ordinary.
Definition sample_1970 : sample := sanitize "01-01 00:00:00" 0 reading_ordinary.

(** A small file system: the dashboard directory [/app], where the server
    runs, and [/etc] next to it. *)
Definition example_fs : filesystem :=
  FileSystem ["app"]
    {[ []; ["app"]; ["etc"] ]}
    {[ ["app"; "gpu-stats.html"]; ["etc"; "passwd"] ]}.

(** The event is a call of an outside program. *)
Definition is_subprocess (ev : Installer.event) : Prop :=
  match ev with
  | Installer.Subprocess _ => True
  | _ => False
  end.

(** A tuple that cannot be stored: its power is NaN. *)
Definition sample_nan : sample :=
  Sample "03-01 00:00:04" 1646092804 (of_int 50) (of_int 10) (of_int 1000) NaN.



(** A store that holds one row. *)
Definition one_row_store : database :=
  Database (Some (Table [Row 1 "03-01 00:00:00" 1646092800 (of_int 50) (of_int 10)
                              (of_int 1000) (of_int 100)] 1 true)).

End Vocabulary.
Export Vocabulary.

(* ===================================================================== *)
(** * Invariants of the store *)
(* ===================================================================== *)

Module StoreInvariants.

(** The rowids of the table grow with the position of the row, are
    positive, and none is above the sequence: the primary key is unique
    and the next rowid is a new one. *)
Definition keyed (t : table) : Prop :=
  StronglySorted Z.lt (id <$> rows t)
  ∧ Forall (λ i, 0 < i ≤ sqlite_sequence t) (id <$> rows t).

Definition keyed_db (db : database) : Prop :=
  match gpu_metrics db with
  | Some t => keyed t
  | None => True
  end.

(** Both the committed store and what the connection sees are keyed. *)
Definition keyed_conn (c : connection) : Prop :=
  keyed_db (durable c) ∧ keyed_db (view c).

(** The statement keeps the property of connections, whether it returns
    or raises. *)
Definition keeps (Inv : connection → Prop) {A} (m : M A) : Prop :=
  ∀ c, Inv c → Inv (state_of (m c)).

(** The database file [sqlite3.connect] creates when there is none. *)
Definition new_file : database := Database None.

(** Ascending epoch on tuples. *)
Definition sample_epoch_le (s1 s2 : sample) : Prop := s_epoch s1 ≤ s_epoch s2.

(** The five selected columns, read off a tuple. *)
Definition five_fields (s : sample) : string * pyfloat * pyfloat * pyfloat * pyfloat :=
  (s_timestamp s, s_temp s, s_util s, s_mem s, s_power s).

End StoreInvariants.
Export StoreInvariants.

(* ===================================================================== *)
(** * [generate_metrics] and [main] of the load scripts *)
(* ===================================================================== *)

Module GenerateMetrics.

(** What the random number generator and the clock rendering contribute
    to a run of [db_load_test.generate_metrics]: the rendering
    [strftime("%m-%d %H:%M:%S")] of a time, the minutes drawn for the
    length of the k-th gaming session and for the pause after it, and the
    four values the k-th iteration computes (lines 83-92), which depend on
    whether the time is in a gaming session. *)
Record randomness : Type := Randomness {
  strftime : Z → string;
  session_minutes : nat → Z;
  pause_minutes : nat → Z;
  generated : nat → bool → pyfloat * pyfloat * pyfloat * pyfloat
}.

(** [random.randint(30, 180)] and [random.randint(60, 300)] stay in their
    ranges. *)
Definition randint_ranges (rnd : randomness) : Prop :=
  ∀ k, 30 ≤ session_minutes rnd k ≤ 180 ∧ 60 ≤ pause_minutes rnd k ≤ 300.

(** The loop [while current_session < end_time] (lines 70-75), [k]
    sessions in; [None] when the fuel runs out.  Times are not checked
    against the range of [datetime] here; see [in_datetime_range]. *)
Fixpoint gaming_sessions_loop (fuel : nat) (rnd : randomness) (k : nat)
    (current_session end_time : Z) (gaming_sessions : list (Z * Z))
    : option (list (Z * Z)) :=
  match fuel with
  | O => None
  | S fuel' =>
      if decide (current_session < end_time) then
        let session_length := timedelta 0 0 (session_minutes rnd k) in
        let gaming_sessions :=
          gaming_sessions ++ [(current_session, current_session + session_length)] in
        let current_session :=
          current_session + (session_length + timedelta 0 0 (pause_minutes rnd k)) in
        gaming_sessions_loop fuel' rnd (S k) current_session end_time gaming_sessions
      else Some gaming_sessions
  end.

(** [any(start <= current_time <= end for start, end in gaming_sessions)]. *)
Definition in_gaming (gaming_sessions : list (Z * Z)) (current_time : Z) : bool :=
  existsb (λ se, bool_decide (se.1 ≤ current_time ≤ se.2)) gaming_sessions.

(** The loop [while current_time < end_time] of both scripts (lines
    78-112, and 115-182 of the 3-day script), [k] iterations in; [tuple k
    t] is the tuple iteration [k] appends at time [t], and [interval] is
    [timedelta(seconds=interval)] in microseconds.  The addition is the
    one of the integers: where [current_time + interval] leaves the range
    of [datetime] the source raises [OverflowError], so a run is the
    source's as long as its times satisfy [in_datetime_range]. *)
Fixpoint metrics_loop (fuel : nat) (tuple : nat → Z → sample) (k : nat)
    (current_time end_time interval : Z) (metrics : list sample)
    : option (list sample) :=
  match fuel with
  | O => None
  | S fuel' =>
      if decide (current_time < end_time) then
        let metrics := metrics ++ [tuple k current_time] in
        let current_time := current_time + interval in
        metrics_loop fuel' tuple (S k) current_time end_time interval metrics
      else Some metrics
  end.

(** The tuple of one iteration of [db_load_test.generate_metrics]. *)
Definition tuple_of {tz : zone} (rnd : randomness) (gaming_sessions : list (Z * Z))
    (k : nat) (current_time : Z) : sample :=
  let '(temp, util, mem, power) :=
    generated rnd k (in_gaming gaming_sessions current_time) in
  generate_one (strftime rnd current_time) (int_timestamp current_time)
    temp util mem power.

(** [db_load_test.generate_metrics(start_time, end_time, interval)]. *)
Definition generate_metrics {tz : zone} (fuel : nat) (rnd : randomness)
    (start_time end_time interval : Z) : option (list sample) :=
  gaming_sessions ← gaming_sessions_loop fuel rnd 0 start_time end_time [];
  metrics_loop fuel (tuple_of rnd gaming_sessions) 0 start_time end_time interval [].

(** What the generator and the clock rendering contribute to a run of
    [db_load_3d_test.generate_metrics]: the rendering of a time, and the
    four values iteration [k] computes at its time (lines 116-154; the
    daily bases and the gaming and mining sessions only enter here)
    together with the value of [random.random()] of line 163. *)
Record randomness_3d : Type := Randomness3d {
  strftime_3d : Z → string;
  generated_3d : nat → Z → pyfloat * pyfloat * pyfloat * pyfloat * pyfloat
}.

(** The tuple of one iteration of [db_load_3d_test.generate_metrics]. *)
Definition tuple_of_3d {tz : zone} (rnd : randomness_3d) (k : nat) (current_time : Z)
    : sample :=
  let '(temp, util, mem, power, draw) := generated_3d rnd k current_time in
  generate_one_3d (strftime_3d rnd current_time) (int_timestamp current_time)
    temp util mem power draw.

(** The main loop of [db_load_3d_test.generate_metrics]. *)
Definition generate_metrics_3d {tz : zone} (fuel : nat) (rnd : randomness_3d)
    (start_time end_time interval : Z) : option (list sample) :=
  metrics_loop fuel (tuple_of_3d rnd) 0 start_time end_time interval [].

(** The number of iterations of the main loop: the times [start_time + k *
    interval] below [end_time]. *)
Definition iterations (start_time end_time interval : Z) : nat :=
  Z.to_nat ((end_time - start_time + interval - 1) `div` interval).

(** [db_load_test.main()] on the database file [db], once
    [sqlite3.connect] has opened it: [now] is [datetime.now()] at the
    start, [now_export] the one [create_history_json] takes, [span] is
    [timedelta(hours=args.hours)] in microseconds, [written] tells whether
    [history.json] can be written.  The result is what happened on the connection and the
    file it leaves when it is closed; [None] when the fuel runs out. *)
Definition main {tz : zone} (fuel : nat) (rnd : randomness) (db : database)
    (now now_export span interval batch_size : Z) (written : bool)
    : option (outcome (gmap string (list json_value)) * database) :=
  let end_time := now in
  let start_time := end_time - span in
  let conn := connect db None in
  match create_db_schema conn with
  | Raise e conn => Some (Raise e conn, close conn)
  | Ok _ conn =>
      metrics ← generate_metrics fuel rnd start_time end_time interval;
      let o := (populate_database metrics batch_size;;
                create_history_json now_export written) conn in
      Some (o, close (state_of o))
  end.


(** The list the main loop builds: the tuple of iteration [k] is made at
    [start_time + k * interval]. *)
Definition run_of (tuple : nat → Z → sample) (start_time end_time interval : Z)
    : list sample :=
  (λ k : nat, tuple k (start_time + Z.of_nat k * interval))
    <$> seq 0 (iterations start_time end_time interval).

(** What the list a generator returns looks like: one tuple for each of the
    times [start_time], [start_time + interval], ... below [end_time], with
    the epoch the zone gives that time, its rendering, and sanitized
    values, none of them NaN. *)
Definition well_generated {tz : zone} (render : Z → string)
    (start_time end_time interval : Z) (metrics : list sample) : Prop :=
  length metrics = iterations start_time end_time interval
  ∧ (∀ (k : nat) s, metrics !! k = Some s →
       let t := start_time + Z.of_nat k * interval in
       start_time ≤ t < end_time
       ∧ s_epoch s = int_timestamp t
       ∧ s_timestamp s = render t
       ∧ sanitized s)
  ∧ Forall storable metrics.

(** The times of a run stay inside the range of [datetime], a day away
    from both ends (where [timestamp()] itself can fail): the additions
    of the two loops, the last ones included, do not raise
    [OverflowError].  A gaming session and the pause after it take at most
    480 minutes. *)
Definition in_datetime_range (start_time end_time interval : Z) : Prop :=
  datetime_min + timedelta 1 0 0 ≤ start_time ≤ datetime_max - timedelta 1 0 0
  ∧ end_time + interval ≤ datetime_max - timedelta 1 0 0
  ∧ end_time + timedelta 0 0 480 ≤ datetime_max - timedelta 1 0 0.

(** An integer SQLite can hold and [sqlite3] can bind: 64 bits, signed. *)
Definition int64 (e : Z) : Prop := - 2 ^ 63 ≤ e < 2 ^ 63.

(** A run without surprises: hour-long sessions with two hours between
    them, and the same values in every iteration. *)
Definition example_randomness : randomness :=
  Randomness (λ _, "03-01 00:00:00") (λ _, 60) (λ _, 120)
    (λ _ _, (of_int 50, of_int 10, of_int 1000, of_int 100)).

Definition example_randomness_3d : randomness_3d :=
  Randomness3d (λ _, "03-01 00:00:00")
    (λ _ _, (of_int 50, of_int 10, of_int 1000, of_int 100, of_int 0)).

(** The history document whose arrays are the columns of a list of
    tuples. *)
Definition document_of_samples (kept : list sample) : gmap string (list json_value) :=
  document (JString ∘ s_timestamp <$> kept) (JNumber ∘ s_temp <$> kept)
           (JNumber ∘ s_util <$> kept) (JNumber ∘ s_mem <$> kept)
           (JNumber ∘ s_power <$> kept).

End GenerateMetrics.
Export GenerateMetrics.

(* ===================================================================== *)
(** * [add_old_records] and [main] of [test_trimming.py] *)
(* ===================================================================== *)

Module TrimmingTest.

(** What a call of the script can raise: the division of line 52, or an
    exception of [sqlite3]. *)
Inductive py_error : Type :=
| ZeroDivisionError
| DatabaseError (e : exn).

Inductive run_result (A : Type) : Type :=
| Returns (a : A) (c : connection)
| Raises (e : py_error) (c : connection).
Arguments Returns {A} a c.
Arguments Raises {A} e c.

Definition of_outcome {A} (o : outcome A) : run_result A :=
  match o with
  | Ok a c => Returns a c
  | Raise e c => Raises (DatabaseError e) c
  end.

(** The connection a call leaves, returned or raised. *)
Definition connection_of {A} (r : run_result A) : connection :=
  match r with
  | Returns _ c => c
  | Raises _ c => c
  end.

(** [batch_size = 10000] (line 56). *)
Definition batch_size : Z := 10000.

(** The tuple iteration [i] appends at [current_time] (lines 59-69). *)
Definition old_record {tz : zone} (strftime : Z → string) (i current_time : Z)
    : sample :=
  let temp := 50 + i `mod` 20 in
  let util := 30 + i `mod` 50 in
  let mem := 2000 + i `mod` 4000 in
  let power := 100 + i `mod` 150 in
  Sample (strftime current_time) (int_timestamp current_time)
         (of_int temp) (of_int util) (of_int mem) (of_int power).

(** [range(num_records)]. *)
Definition range_upto (num_records : Z) : list Z :=
  Z.of_nat <$> seq 0 (Z.to_nat num_records).

(** The loop [for i in range(num_records)] (lines 58-84) over the indices
    that are left; [interval] is [timedelta(seconds=interval_seconds)] in
    microseconds. *)
Fixpoint add_old_records_loop {tz : zone} (strftime : Z → string)
    (num_records interval : Z)
    (indices : list Z) (current_time : Z) (records : list sample) : M unit :=
  match indices with
  | [] => mret tt
  | i :: indices' =>
      let records := records ++ [old_record strftime i current_time] in
      let current_time := current_time + interval in
      if decide (batch_size ≤ Z.of_nat (length records) ∨ i = num_records - 1) then
        append_batch records;;
        add_old_records_loop strftime num_records interval indices' current_time []
      else
        add_old_records_loop strftime num_records interval indices' current_time
          records
  end.

(** [add_old_records(conn, num_records)] called at [now].  The quotient
    [interval_seconds = 604800.0 / num_records] raises for 0; for another
    [num_records] the parameter [interval] stands for the [timedelta] of
    the quotient, in microseconds, which Python gets by rounding twice
    (the quotient to a double, the [timedelta] to a microsecond). *)
Definition add_old_records {tz : zone} (strftime : Z → string) (interval : Z)
    (now num_records : Z) (c : connection) : run_result unit :=
  let end_time := now - timedelta 2 0 0 in
  let start_time := end_time - timedelta 7 0 0 in
  if decide (num_records = 0) then Raises ZeroDivisionError c
  else
    of_outcome
      (add_old_records_loop strftime num_records interval (range_upto num_records)
         start_time [] c).

(** The default of [num_records], which [main] uses. *)
Definition default_num_records : Z := 500000.

(** What [main()] ends with: it returns 1 when there is no database file,
    and otherwise runs on a connection, which it closes in any case; the
    counts are the ones it prints: the initial count, the count after
    adding, and the three of [perform_trim_operation]. *)
Inductive main_result : Type :=
| NotFound
| Finished (r : run_result (Z * Z * (Z * Z * Z))) (file : database).

(** [main()] on the file at [db_path] ([None]: there is none);
    [now_add] and [now_trim] are the times [add_old_records] and
    [perform_trim_operation] read. *)
Definition main {tz : zone} (strftime : Z → string) (interval : Z)
    (file : option database) (now_add now_trim : Z) : main_result :=
  match file with
  | None => NotFound
  | Some db =>
      let conn := connect db None in
      let r :=
        match count_records conn with
        | Raise e c => Raises (DatabaseError e) c
        | Ok initial_count c =>
            match add_old_records strftime interval now_add default_num_records c with
            | Raises e c => Raises e c
            | Returns _ c =>
                of_outcome
                  ((middle_count ← count_records;
                    counts ← perform_trim_operation now_trim;
                    mret (initial_count, middle_count, counts)) c)
            end
        end in
      Finished r (close (connection_of r))
  end.

(** The tuples a run of [add_old_records] makes. *)
Definition old_records {tz : zone} (strftime : Z → string) (interval now : Z) (n : nat)
    : list sample :=
  (λ j : nat,
     old_record strftime (Z.of_nat j)
       (now - timedelta 2 0 0 - timedelta 7 0 0 + Z.of_nat j * interval))
    <$> seq 0 n.

(** [interval] is within a microsecond of seven days over [num_records]. *)
Definition interval_of (num_records interval : Z) : Prop :=
  Z.abs (num_records * interval - timedelta 7 0 0) ≤ num_records.

End TrimmingTest.

(* ===================================================================== *)
(** * Steps of the installer: [no_docker.py], lines 119-187 and 250-300 *)
(* ===================================================================== *)

Module InstallerSteps.

(** The values of the expression of line 271. *)
Inductive py_value : Type :=
| PyNone
| PyList (items : list string).

(** The exceptions of these methods, all of them subclasses of
    [Exception]: [TypeError] for an operator applied to operands of the
    named types, [CalledProcessError] of [subprocess.run(..., check=True)],
    and [OSError] when a program cannot be started or a file cannot be
    read. *)
Inductive exception : Type :=
| TypeError (operator left right : string)
| CalledProcessError (returncode : Z) (cmd : list string)
| OSError (what : string).

(** What a method does to the outside, in order. *)
Inductive event : Type :=
| Run (argv : list string)
| LogInfo (msg : string)
| LogDebug (msg : string)
| LogError (msg : string)
| LogException (msg : string) (e : exception).

(** What the outside answers during one call: whether a path exists, the
    lower-cased text of a file ([None]: it cannot be read), and the exit
    status of a program ([None]: it cannot be started). *)
Record environment : Type := Environment {
  path_exists : string → bool;
  read_lower : string → option string;
  returncode_of : list string → option Z
}.

(** The installer object and the log of events. *)
Record state : Type := State {
  required_packages : list string;
  trace : list event
}.

Inductive result (A : Type) : Type :=
| Return (a : A) (s : state)
| Raised (e : exception) (s : state).
Arguments Return {A} a s.
Arguments Raised {A} e s.

Definition Step (A : Type) : Type := state → result A.

#[global] Instance Step_ret : MRet Step := λ A a s, Return a s.
#[global] Instance Step_bind : MBind Step := λ A B f m s,
  match m s with
  | Return a s' => f a s'
  | Raised e s' => Raised e s'
  end.

Definition throw {A} (e : exception) : Step A := λ s, Raised e s.

(** [try: body except Exception as e: handler(e)]. *)
Definition try_except {A} (body : Step A) (handler : exception → Step A) : Step A := λ s,
  match body s with
  | Return a s' => Return a s'
  | Raised e s' => handler e s'
  end.

Definition emit (ev : event) : Step unit := λ s,
  Return tt (State (required_packages s) (trace s ++ [ev])).

(** [subprocess.run(argv, ...)], with or without [check=True]; the result
    is the return code. *)
Definition subprocess_run (env : environment) (argv : list string) (check : bool)
    : Step Z :=
  emit (Run argv);;
  match returncode_of env argv with
  | None => throw (OSError "subprocess.run")
  | Some returncode =>
      if check && bool_decide (returncode ≠ 0)
      then throw (CalledProcessError returncode argv)
      else mret returncode
  end.

(** [open(path, 'r')], [f.read().lower()]. *)
Definition read_file_lower (env : environment) (path : string) : Step string :=
  match read_lower env path with
  | Some text => mret text
  | None => throw (OSError path)
  end.

(** [needle in text] for two [str]. *)
Fixpoint contains (needle text : string) : bool :=
  String.prefix needle text
  || match text with
     | EmptyString => false
     | String _ text' => contains needle text'
     end.

(** [detect_environment(self)]. *)
Definition detect_environment (env : environment) : Step string :=
  try_except
    (version_info ← read_file_lower env "/proc/version";
     if contains "microsoft" version_info || contains "wsl" version_info then
       mret "wsl"
     else if path_exists env "/etc/debian_version" then
       os_info ← read_file_lower env "/etc/os-release";
       if contains "ubuntu" os_info then mret "ubuntu" else mret "debian"
     else mret "unknown")
    (λ e,
       emit (LogException "Error detecting environment" e);;
       mret "unknown").

(** The list [nvidia_smi_paths] for an environment type. *)
Definition nvidia_smi_paths (env_type : string) : list string :=
  [ "/usr/bin/nvidia-smi"; "/usr/local/bin/nvidia-smi"; "/opt/nvidia/bin/nvidia-smi" ]
  ++ (if decide (env_type = "wsl")
      then [ "/usr/lib/wsl/lib/nvidia-smi"; "/usr/lib/wsl/nvidia-smi" ]
      else []).

(** The body of [for path in nvidia_smi_paths] (lines 171-184): whether
    the path is returned. *)
Definition works (env : environment) (path : string) : Step bool :=
  if path_exists env path then
    try_except
      (returncode ← subprocess_run env [path] false;
       if decide (returncode = 0) then
         emit (LogInfo "Found working nvidia-smi");;
         mret true
       else mret false)
      (λ e,
         emit (LogDebug "Error checking path");;
         mret false)
  else mret false.

(** The loop [for path in nvidia_smi_paths] and what follows it. *)
Fixpoint check_each (env : environment) (paths : list string) : Step (option string) :=
  match paths with
  | [] =>
      emit (LogError "No working nvidia-smi found in standard locations");;
      mret None
  | path :: paths' =>
      works env path ≫= λ found : bool,
      if found then mret (Some path) else check_each env paths'
  end.

(** [check_nvidia_paths(self)]. *)
Definition check_nvidia_paths (env : environment) : Step (option string) :=
  env_type ← detect_environment env;
  emit (LogInfo "Checking NVIDIA paths for environment");;
  check_each env (nvidia_smi_paths env_type).

(** [self.required_packages] after [__init__]. *)
Definition initial_required_packages : list string :=
  [ "coreutils"; "util-linux"; "procps"; "python3-venv" ].

(** [self.required_packages.extend(items)]: the list of the object grows
    and the call returns [None]. *)
Definition extend_required_packages (items : list string) : Step py_value := λ s,
  Return PyNone (State (required_packages s ++ items) (trace s)).

Definition type_name (v : py_value) : string :=
  match v with
  | PyNone => "NoneType"
  | PyList _ => "list"
  end.

(** [a + b]. *)
Definition py_add (a b : py_value) : Step py_value :=
  match a, b with
  | PyList l1, PyList l2 => mret (PyList (l1 ++ l2))
  | _, _ => throw (TypeError "+" (type_name a) (type_name b))
  end.

(** [subprocess.run(install_cmd, capture_output=True, text=True)]. *)
Definition subprocess_run_value (env : environment) (cmd : py_value) : Step Z :=
  match cmd with
  | PyList argv => subprocess_run env argv false
  | PyNone => throw (TypeError "subprocess.run" "NoneType" "")
  end.

(** The loop over [self.required_commands] of lines 284-289: only
    [CalledProcessError] is caught. *)
Fixpoint which_missing (env : environment) (cmds : list string) : Step (list string) :=
  match cmds with
  | [] => mret []
  | cmd :: cmds' =>
      try_except
        (subprocess_run env ["which"; cmd] true;; mret false)
        (λ e, match e with
              | CalledProcessError _ _ => mret true
              | _ => throw e
              end)
      ≫= λ missing : bool,
      missing_commands ← which_missing env cmds';
      mret (if missing then cmd :: missing_commands else missing_commands)
  end.

(** The four names line 271 passes to [extend]. *)
Definition extension : list string :=
  [ "coreutils"; "util-linux"; "procps"; "build-essential" ].

(** [check_and_install_dependencies(self)]. *)
Definition check_and_install_dependencies (env : environment) : Step bool :=
  try_except
    (emit (LogInfo "Checking system dependencies...");;
     if negb (path_exists env "/usr/bin/apt-get") then
       emit (LogError "This script requires apt package manager");;
       mret false
     else
       emit (LogInfo "Updating package list...");;
       subprocess_run env ["apt-get"; "update"] true;;
       emit (LogInfo "Installing required packages...");;
       extended ← extend_required_packages extension;
       install_cmd ← py_add (PyList ["apt-get"; "install"; "-y"]) extended;
       returncode ← subprocess_run_value env install_cmd;
       if decide (returncode ≠ 0) then
         emit (LogError "Package installation failed");;
         mret false
       else
         missing_commands ← which_missing env Installer.required_commands;
         if decide (missing_commands ≠ []) then
           emit (LogError "Missing commands after install");;
           mret false
         else
           emit (LogInfo "All dependencies installed successfully");;
           mret true)
    (λ e,
       emit (LogException "Error installing dependencies" e);;
       mret false).

(** The events a call adds to the log. *)
Definition is_run (ev : event) : Prop :=
  match ev with
  | Run _ => True
  | _ => False
  end.

(** A path that exists and whose program ends with status 0. *)
Definition working (env : environment) (path : string) : Prop :=
  path_exists env path = true ∧ returncode_of env [path] = Some 0.

#[global] Instance working_dec env path : Decision (working env path).
Proof. unfold working. apply _. Defined.

(** [/proc/version] can be read and its lower-cased text names Microsoft
    or WSL. *)
Definition on_wsl (env : environment) : bool :=
  match read_lower env "/proc/version" with
  | Some version_info => contains "microsoft" version_info || contains "wsl" version_info
  | None => false
  end.

End InstallerSteps.

(* ===================================================================== *)
(** * Facts about Python numbers and the clamps *)
(* ===================================================================== *)

Section PyNumFacts.

Lemma flt_Fin p q : flt (Fin p) (Fin q) = bool_decide (p < q)%Qc.
Proof.
  unfold flt, fcompare. pose proof (Qclt_alt p q) as [H1 H2].
  case_bool_decide as H.
  - by rewrite (H1 H).
  - destruct (p ?= q)%Qc; try done. by destruct H; apply H2.
Qed.

Lemma fle_Fin p q : fle (Fin p) (Fin q) = bool_decide (p ≤ q)%Qc.
Proof.
  unfold fle, fcompare. pose proof (Qcle_alt p q) as [H1 H2].
  case_bool_decide as H.
  - specialize (H1 H). by destruct (p ?= q)%Qc.
  - destruct (p ?= q)%Qc; try done; destruct H; by apply H2.
Qed.

Lemma Qc_of_Z_le a b : a ≤ b → (Qc_of_Z a ≤ Qc_of_Z b)%Qc.
Proof. intros H. change (inject_Z a <= inject_Z b)%Q. by rewrite <-Zle_Qle. Qed.

Lemma Qc_of_Z_lt a b : a < b → (Qc_of_Z a < Qc_of_Z b)%Qc.
Proof. intros H. change (inject_Z a < inject_Z b)%Q. by rewrite <-Zlt_Qlt. Qed.

Lemma in_range_Fin lo hi v :
  in_range lo hi v = true ↔ ∃ q, v = Fin q ∧ (Qc_of_Z lo ≤ q ∧ q ≤ Qc_of_Z hi)%Qc.
Proof.
  unfold in_range, of_int. split.
  - intros [H1 H2]%andb_true_iff. destruct v as [q| | |]; try done.
    rewrite fle_Fin in H1, H2. apply bool_decide_eq_true in H1, H2. eauto.
  - intros (q & -> & H1 & H2). rewrite !fle_Fin.
    apply andb_true_iff; split; by apply bool_decide_eq_true.
Qed.

End PyNumFacts.

Ltac qc_order :=
  first
    [ done
    | exfalso; unfold Qclt, Qcle in *; lra
    | f_equal; apply Qcle_antisym; unfold Qclt, Qcle in *; lra
    | unfold Qclt, Qcle in *; lra ].

Lemma clamp_spec lo hi x :
  lo ≤ hi →
  in_range lo hi (clamp lo hi x) = true ∧ clamp_law lo hi x (clamp lo hi x).
Proof.
  intros Hz. apply Qc_of_Z_le in Hz.
  unfold clamp_law, clamp, py_max, py_min, fgt, in_range, of_int.
  set (a := Qc_of_Z lo) in *. set (b := Qc_of_Z hi) in *.
  destruct x as [q| | |].
  - rewrite !flt_Fin. 
    repeat (case_bool_decide; rewrite ?flt_Fin, ?fle_Fin);
    repeat split; intros; rewrite ?andb_true_iff, ?bool_decide_eq_true in *;
    destruct_and?; try qc_order.
  - change (flt PosInf (Fin b)) with false. cbn match.
    rewrite !flt_Fin.
    repeat (case_bool_decide; rewrite ?flt_Fin, ?fle_Fin);
    repeat split; intros; rewrite ?andb_true_iff, ?bool_decide_eq_true in *;
    destruct_and?; try qc_order.
  - change (flt NegInf (Fin b)) with true. cbn match.
    change (flt (Fin a) NegInf) with false. cbn match.
    rewrite ?flt_Fin, ?fle_Fin.
    repeat split; intros; rewrite ?andb_true_iff, ?bool_decide_eq_true in *;
    destruct_and?; try qc_order.
  - change (flt NaN (Fin b)) with false. cbn match.
    rewrite !flt_Fin.
    repeat (case_bool_decide; rewrite ?flt_Fin, ?fle_Fin);
    repeat split; intros; rewrite ?andb_true_iff, ?bool_decide_eq_true in *;
    destruct_and?; try qc_order.
Qed.

(* ===================================================================== *)
(** * Facts about the store *)
(* ===================================================================== *)

Section SqliteFacts.

Lemma bind_real_Some x : x ≠ NaN → bind_real x = Some x.
Proof. by destruct x. Qed.

Lemma bind_real_inv x y : bind_real x = Some y → y = x ∧ x ≠ NaN.
Proof. destruct x; naive_solver. Qed.

Lemma insert_row_inv s t t' :
  insert_row s t = Some t' →
  storable s ∧ appended t [s] t' ∧ sqlite_sequence t' = next_rowid t.
Proof.
  unfold insert_row. intros H. simplify_option_eq.
  repeat match goal with H : bind_real _ = Some _ |- _ =>
    apply bind_real_inv in H as [-> ?] end.
  split; [done|]. split; [|done].
  eexists [_]. split; [done|]. split; [|done]. by destruct s.
Qed.

Lemma insert_row_storable s t : storable s → is_Some (insert_row s t).
Proof.
  intros (?&?&?&?). unfold insert_row.
  rewrite !bind_real_Some by done. by eexists.
Qed.

Lemma insert_row_None s t : insert_row s t = None → ¬ storable s.
Proof.
  intros H Hs. destruct (insert_row_storable s t Hs) as [? ?]. congruence.
Qed.

Lemma appended_refl t : appended t [] t.
Proof. exists []. by rewrite app_nil_r. Qed.

Lemma appended_trans t1 t2 t3 b1 b2 :
  appended t1 b1 t2 → appended t2 b2 t3 → appended t1 (b1 ++ b2) t3.
Proof.
  intros (n1 & E1 & F1 & I1) (n2 & E2 & F2 & I2).
  exists (n1 ++ n2). rewrite E2, E1, fmap_app, F1, F2, I2, I1.
  by rewrite (assoc_L (++)).
Qed.

Lemma view_txn c t : in_txn c t → view c = Database (Some t).
Proof. unfold in_txn, view. by intros ->. Qed.

Lemma execute_insert_spec s c t :
  in_txn c t →
  match execute_insert s c with
  | Ok _ c' =>
      ∃ t', insert_row s t = Some t'
            ∧ c' = Conn (durable c) (Some (Database (Some t'))) (pred <$> budget c)
            ∧ budget c ≠ Some 0%nat
  | Raise e c' => c' = c ∧ (insert_row s t = None ∨ budget c = Some 0%nat)
  end.
Proof.
  intros Hc. unfold execute_insert. rewrite (view_txn c t Hc). cbn [gpu_metrics].
  destruct (budget c) as [[|b]|]; cbv beta iota.
  - split; [done|]. by right.
  - destruct (insert_row s t) as [t'|].
    + exists t'. by repeat split.
    + split; [done|]. by left.
  - destruct (insert_row s t) as [t'|].
    + exists t'. by repeat split.
    + split; [done|]. by left.
Qed.

Lemma insert_loop batch : ∀ c t,
  in_txn c t →
  match for_each batch execute_insert c with
  | Ok _ c' =>
      (∃ t', in_txn c' t' ∧ appended t batch t')
      ∧ durable c' = durable c
      ∧ budget c' = (λ b, b - length batch)%nat <$> budget c
      ∧ Forall storable batch
      ∧ (∀ b, budget c = Some b → (length batch ≤ b)%nat)
  | Raise e c' =>
      durable c' = durable c
      ∧ (¬ Forall storable batch ∨ ∃ b, budget c = Some b ∧ (b < length batch)%nat)
  end.
Proof.
  induction batch as [|s batch IH]; intros c t Hc.
  - cbn. split; [eauto using appended_refl|]. split; [done|].
    split; [|split; [constructor|intros; lia]].
    destruct (budget c); cbn; f_equal; lia.
  - cbn [for_each]. unfold mbind, M_bind at 1.
    pose proof (execute_insert_spec s c t Hc) as Hs.
    destruct (execute_insert s c) as [[] c1|e c1].
    + destruct Hs as (t1 & Hi & -> & Hb).
      apply insert_row_inv in Hi as (Hst & Ha & _).
      set (c1 := Conn _ _ _).
      specialize (IH c1 t1 eq_refl).
      destruct (for_each batch execute_insert c1) as [[] c'|e c'].
      * destruct IH as ((t' & Ht' & Ha') & Hd & Hbud & Hall & Hle).
        split; [exists t'; split; [done|]; by apply (appended_trans t t1 t' [s] batch)|].
        split; [done|].
        split; [rewrite Hbud; cbn; destruct (budget c); cbn; f_equal; lia|].
        split; [by constructor|].
        intros b Hbc. specialize (Hle (pred b)). cbn in Hle. rewrite Hbc in Hle.
        specialize (Hle eq_refl). destruct b; [done|]. cbn in *. lia.
      * destruct IH as (Hd & Hor). split; [done|].
        destruct Hor as [Hn|(b' & Hb' & Hlt)].
        -- left. intros Hf. apply Hn. by inv Hf.
        -- right. cbn in Hb'. destruct (budget c) as [b|]; [|done].
           exists b. split; [done|]. cbn in *. simplify_eq. lia.
    + destruct Hs as (-> & [Hn|Hb]); (split; [done|]).
      * left. intros Hf. inv Hf. by eapply insert_row_None.
      * right. exists 0%nat. split; [done|]. cbn. lia.
Qed.


Lemma append_batch_spec batch c :
  txn c = None →
  match append_batch batch c with
  | Ok _ c' =>
      txn c' = None
      ∧ (∃ t t', durable c = Database (Some t)
                 ∧ durable c' = Database (Some t')
                 ∧ appended t batch t')
      ∧ budget c' = (λ b, b - length batch)%nat <$> budget c
      ∧ Forall storable batch
      ∧ (∀ b, budget c = Some b → (length batch ≤ b)%nat)
  | Raise e c' =>
      durable c' = durable c
      ∧ (gpu_metrics (durable c) = None
         ∨ ¬ Forall storable batch
         ∨ ∃ b, budget c = Some b ∧ (b < length batch)%nat)
  end.
Proof.
  intros Hc. unfold append_batch, executemany_insert.
  unfold mbind at 1, M_bind, execute_begin. rewrite Hc.
  set (c1 := Conn (durable c) (Some (durable c)) (budget c)).
  unfold mbind at 1. unfold mbind at 1. unfold the_table.
  change (view c1) with (durable c).
  destruct (durable c) as [[t|]] eqn:Hd; cbn [gpu_metrics]; [|by split; [|left]].
  unfold mbind at 1. cbn [begin_implicit txn c1].
  pose proof (insert_loop batch c1 t eq_refl) as Hl.
  destruct (for_each batch execute_insert c1) as [[] c2|e c2].
  - destruct Hl as ((t' & Ht' & Ha) & Hd2 & Hb & Hs & Hle).
    unfold commit. rewrite (view_txn c2 t' Ht'). cbn.
    split; [done|]. split; [by exists t, t'|]. done.
  - destruct Hl as [Hd2 Hor]. split; [done|]. by right.
Qed.

End SqliteFacts.


Section GeneratorFacts.

Lemma generate_one_3d_sanitize ts ep temp util mem power draw :
  generate_one_3d ts ep temp util mem power draw
  = sanitize ts ep (reading_of temp util mem power draw).
Proof.
  unfold generate_one_3d, sanitize, reading_of, simulate_disconnect; cbn.
  by destruct (fgt draw disconnect_threshold).
Qed.

Lemma generate_one_sanitize ts ep temp util mem power :
  generate_one ts ep temp util mem power
  = sanitize ts ep (RawReading temp util mem (PowerNum power)).
Proof. done. Qed.

End GeneratorFacts.

(** C6: [sanitize] is a function defined on every raw reading, and its
    result has a temperature in [20, 95], a utilization in [0, 100], a
    memory in [500, 12000] and, when the raw power is a number, a power in
    [10, 350]; each numeric field below its lower bound comes out as that
    bound, each one above its upper bound comes out as that bound, and each
    one in range comes out unchanged.  Both generators compute it. *)
Theorem sanitize_total_and_clamped
    (ts : string) (ep : Z) (r : raw_reading) :
  let s := sanitize ts ep r in
  (in_range 20 95 (s_temp s) = true ∧ clamp_law 20 95 (raw_temp r) (s_temp s))
  ∧ (in_range 0 100 (s_util s) = true ∧ clamp_law 0 100 (raw_util r) (s_util s))
  ∧ (in_range 500 12000 (s_mem s) = true
     ∧ clamp_law 500 12000 (raw_mem r) (s_mem s))
  ∧ match raw_power r with
    | PowerNum w =>
        in_range 10 350 (s_power s) = true ∧ clamp_law 10 350 w (s_power s)
    | PowerNA => s_power s = of_int 0
    end
  ∧ (∀ temp util mem power,
       generate_one ts ep temp util mem power
       = sanitize ts ep (RawReading temp util mem (PowerNum power)))
  ∧ (∀ temp util mem power draw,
       generate_one_3d ts ep temp util mem power draw
       = sanitize ts ep (reading_of temp util mem power draw)).
Proof.
  destruct r as [t u m p]. cbn.
  split; [by apply clamp_spec|].
  split; [by apply clamp_spec|].
  split; [by apply clamp_spec|].
  split; [destruct p; [by apply clamp_spec|done]|].
  split; [done|]. intros. apply generate_one_3d_sanitize.
Qed.

Section CountFacts.

Lemma select_count_spec c :
  select_count c
  = match gpu_metrics (view c) with
    | Some t => Ok (Z.of_nat (length (rows t))) c
    | None => Raise no_such_table c
    end.
Proof.
  unfold select_count, mbind, M_bind, the_table.
  by destruct (gpu_metrics (view c)).
Qed.

Lemma view_committed c : txn c = None → view c = durable c.
Proof. unfold view. by intros ->. Qed.

End CountFacts.

Section TrimFacts.

Context {tz : zone}.

(** The table a trim at [cutoff] leaves. *)
Lemma trim_spec cutoff c :
  trim cutoff c
  = match gpu_metrics (view c) with
    | Some t =>
        Ok tt (Conn (Database (Some (trimmed cutoff t))) None (budget c))
    | None => Raise no_such_table c
    end.
Proof.
  unfold trim, execute_delete_older, mbind, M_bind, the_table.
  destruct (gpu_metrics (view c)) as [t|]; [|done].
  by destruct c as [d [w|] b].
Qed.

Lemma filter_kept_twice cutoff (l : list row) :
  filter (λ r, ¬ timestamp_epoch r < cutoff)
         (filter (λ r, ¬ timestamp_epoch r < cutoff) l)
  = filter (λ r, ¬ timestamp_epoch r < cutoff) l.
Proof.
  rewrite list_filter_filter. apply list_filter_iff. intros r. tauto.
Qed.

Lemma trimmed_idemp cutoff t : trimmed cutoff (trimmed cutoff t) = trimmed cutoff t.
Proof. unfold trimmed; cbn. by rewrite filter_kept_twice. Qed.

Lemma perform_trim_operation_spec now c :
  perform_trim_operation now c
  = match gpu_metrics (view c) with
    | Some t =>
        let t' := trimmed (cutoff_time now) t in
        let before := Z.of_nat (length (rows t)) in
        let after := Z.of_nat (length (rows t')) in
        Ok (before, after, before - after)
           (Conn (Database (Some t')) None (budget c))
    | None => Raise no_such_table c
    end.
Proof.
  unfold perform_trim_operation, count_records.
  unfold mbind at 1, M_bind. rewrite select_count_spec.
  destruct (gpu_metrics (view c)) as [t|] eqn:Ht; [|done].
  unfold mbind at 1, M_bind. rewrite trim_spec, Ht.
  unfold mbind at 1, M_bind. by rewrite select_count_spec.
Qed.

End TrimFacts.

(** C3: a trim at [cutoff] on any store removes exactly the rows whose
    epoch is strictly below the cutoff: a row is in the table afterwards if
    and only if it was there before and its epoch is at least the cutoff,
    the rows that stay are the same records in the same order, and the
    record count afterwards is the number of rows whose epoch is at least
    the cutoff.  The trim is committed.  It raises only when the table
    does not exist, and then changes nothing. *)
Theorem trim_deletes_exactly_older (c : connection) (cutoff : Z) :
  match trim cutoff c with
  | Ok _ c' =>
      ∃ t t', gpu_metrics (view c) = Some t
              ∧ close c' = Database (Some t')
              ∧ view c' = close c'
              ∧ (∀ r, r ∈ rows t' ↔ r ∈ rows t ∧ cutoff ≤ timestamp_epoch r)
              ∧ rows t' = filter (λ r, cutoff ≤ timestamp_epoch r) (rows t)
              ∧ count_records c'
                = Ok (Z.of_nat
                        (length (filter (λ r, cutoff ≤ timestamp_epoch r) (rows t))))
                     c'
              ∧ sqlite_sequence t' = sqlite_sequence t
              ∧ epoch_index t' = epoch_index t
  | Raise _ c' => gpu_metrics (view c) = None ∧ c' = c
  end.
Proof.
  rewrite trim_spec. destruct (gpu_metrics (view c)) as [t|] eqn:Ht; [|done].
  assert (rows (trimmed cutoff t)
          = filter (λ r, cutoff ≤ timestamp_epoch r) (rows t)) as Hrows.
  { unfold trimmed; cbn. apply list_filter_iff. intros r. lia. }
  exists t, (trimmed cutoff t). split; [done|]. split; [done|]. split; [done|].
  split.
  { intros r. rewrite Hrows, list_elem_of_filter. tauto. }
  split; [done|]. split; [|done].
  unfold count_records. rewrite select_count_spec, <-Hrows. done.
Qed.

(** C5: a second trim at the same cutoff, right after the first, leaves
    the store as the first left it and deletes nothing: the counts before
    and after it are equal, and [perform_trim_operation] repeated at the
    same time reports zero deleted records. *)
Theorem trim_idempotent {tz : zone} (c : connection) (cutoff now : Z) :
  match trim cutoff c with
  | Ok _ c1 =>
      trim cutoff c1 = Ok tt c1
      ∧ ∃ n, count_records c1 = Ok n c1
  | Raise e c1 => trim cutoff c1 = Raise e c1
  end
  ∧ match perform_trim_operation now c with
    | Ok _ c1 => ∃ n, perform_trim_operation now c1 = Ok (n, n, 0) c1
    | Raise e c1 => perform_trim_operation now c1 = Raise e c1
    end.
Proof.
  split.
  - rewrite trim_spec. destruct (gpu_metrics (view c)) as [t|] eqn:Ht.
    + rewrite trim_spec. cbn. rewrite trimmed_idemp. split; [done|].
      unfold count_records. rewrite select_count_spec. cbn. by eexists.
    + rewrite trim_spec. by rewrite Ht.
  - rewrite perform_trim_operation_spec.
    destruct (gpu_metrics (view c)) as [t|] eqn:Ht; cbv beta iota zeta.
    + eexists. rewrite perform_trim_operation_spec.
      cbn -[Z.sub Z.of_nat trimmed]. rewrite trimmed_idemp.
      by rewrite Z.sub_diag.
    + rewrite perform_trim_operation_spec. by rewrite Ht.
Qed.


Section SchemaFacts.

Context {tz : zone}.

Lemma create_db_schema_spec c :
  create_db_schema c
  = Ok tt (Conn (Database (Some (with_schema (view c)))) None (budget c)).
Proof.
  unfold create_db_schema, mbind, M_bind, executescript_schema, with_schema,
    create_table_if_not_exists, create_index_if_not_exists.
  destruct (gpu_metrics (view c)) eqn:E; rewrite ?E; done.
Qed.

Lemma keeps_index_ret {A} (a : A) : keeps_index (mret a).
Proof. by intros c. Qed.

Lemma keeps_index_raise {A} e : keeps_index (raise (A:=A) e).
Proof. by intros c. Qed.

Lemma keeps_index_bind {A B} (m : M A) (f : A → M B) :
  keeps_index m → (∀ a, keeps_index (f a)) → keeps_index (m ≫= f).
Proof.
  intros Hm Hf c Hc. specialize (Hm c Hc). unfold mbind, M_bind.
  destruct (m c) as [a c'|e c']; [|done]. by apply Hf.
Qed.

Lemma keeps_index_for_each {A} (xs : list A) (body : A → M unit) :
  (∀ x, keeps_index (body x)) → keeps_index (for_each xs body).
Proof.
  intros Hb. induction xs as [|x xs IH]; cbn [for_each].
  - apply keeps_index_ret.
  - apply keeps_index_bind; [apply Hb|done].
Qed.

Lemma keeps_index_the_table : keeps_index the_table.
Proof. intros c Hc. unfold the_table. by destruct (gpu_metrics (view c)). Qed.

Lemma keeps_index_begin_implicit : keeps_index begin_implicit.
Proof.
  intros [d [w|] b] [Hd Hv]; [done|]. split; [done|]. by cbn.
Qed.

Lemma keeps_index_execute_begin : keeps_index execute_begin.
Proof.
  intros [d [w|] b] [Hd Hv]; [done|]. split; [done|]. by cbn.
Qed.

Lemma keeps_index_commit : keeps_index commit.
Proof. intros c [Hd Hv]. by split. Qed.

Lemma keeps_index_vacuum : keeps_index execute_vacuum.
Proof. intros [d [w|] b] Hc; done. Qed.

Lemma keeps_index_write_table t :
  epoch_index t = true → keeps_index (write_table t).
Proof. intros Ht c [Hd Hv]. split; [done|]. by exists t. Qed.

(** A statement that reads the table and writes one with the same
    index flag. *)
Lemma keeps_index_update (f : table → table) :
  (∀ t, epoch_index (f t) = epoch_index t) →
  keeps_index (t ← the_table; begin_implicit;; write_table (f t)).
Proof.
  intros Hf c Hc. unfold mbind, M_bind, the_table.
  destruct (gpu_metrics (view c)) as [t|] eqn:Ht; [|done].
  assert (epoch_index t = true) as Hi.
  { destruct Hc as [_ (t' & Ht' & Hi)]. congruence. }
  destruct Hc as [Hd _].
  destruct c as [d [w|] b]; (split; [done|]); exists (f t); by rewrite Hf.
Qed.

Lemma keeps_index_delete_all : keeps_index execute_delete_all.
Proof. by apply (keeps_index_update (λ t, Table [] (sqlite_sequence t) (epoch_index t))). Qed.

Lemma keeps_index_delete_older cutoff : keeps_index (execute_delete_older cutoff).
Proof. by apply (keeps_index_update (trimmed cutoff)). Qed.

Lemma keeps_index_insert s : keeps_index (execute_insert s).
Proof.
  intros c Hc. unfold execute_insert.
  destruct (gpu_metrics (view c)) as [t|] eqn:Ht; [|done].
  assert (epoch_index t = true) as Hi.
  { destruct Hc as [_ (t' & Ht' & Hi)]. congruence. }
  destruct (insert_row s t) as [t'|] eqn:Hr.
  - apply insert_row_inv in Hr as (_ & (new & _ & _ & Hidx) & _).
    destruct (budget c) as [[|k]|]; [exact Hc| |];
      (split; [apply Hc|]; exists t'; split; [done|congruence]).
  - destruct (budget c) as [[|k]|]; exact Hc.
Qed.

Lemma keeps_index_executemany batch : keeps_index (executemany_insert batch).
Proof.
  unfold executemany_insert.
  apply keeps_index_bind; [apply keeps_index_the_table|intros _].
  apply keeps_index_bind; [apply keeps_index_begin_implicit|intros _].
  apply keeps_index_for_each, keeps_index_insert.
Qed.

Lemma keeps_index_append_batch batch : keeps_index (append_batch batch).
Proof.
  unfold append_batch.
  apply keeps_index_bind; [apply keeps_index_execute_begin|intros _].
  apply keeps_index_bind; [apply keeps_index_executemany|intros _].
  apply keeps_index_commit.
Qed.

Lemma keeps_index_py_range stop step : keeps_index (py_range stop step).
Proof. unfold py_range. repeat case_decide; by intros c. Qed.

Lemma keeps_index_insert_in_batches metrics batch_size :
  keeps_index (insert_in_batches metrics batch_size).
Proof.
  unfold insert_in_batches.
  apply keeps_index_bind; [apply keeps_index_py_range|intros starts].
  apply keeps_index_for_each. intros i. apply keeps_index_append_batch.
Qed.

Lemma keeps_index_populate metrics batch_size :
  keeps_index (populate_database metrics batch_size).
Proof.
  unfold populate_database.
  apply keeps_index_bind; [apply keeps_index_delete_all|intros _].
  apply keeps_index_bind; [apply keeps_index_commit|intros _].
  apply keeps_index_insert_in_batches.
Qed.

Lemma keeps_index_trim cutoff : keeps_index (trim cutoff).
Proof.
  unfold trim.
  apply keeps_index_bind; [apply keeps_index_delete_older|intros _].
  apply keeps_index_bind; [apply keeps_index_commit|intros _].
  apply keeps_index_bind; [apply keeps_index_vacuum|intros _].
  apply keeps_index_commit.
Qed.

Lemma keeps_index_count : keeps_index select_count.
Proof.
  unfold select_count.
  apply keeps_index_bind; [apply keeps_index_the_table|intros t].
  apply keeps_index_ret.
Qed.

Lemma keeps_index_perform_trim now : keeps_index (perform_trim_operation now).
Proof.
  unfold perform_trim_operation.
  apply keeps_index_bind; [apply keeps_index_count|intros before].
  apply keeps_index_bind; [apply keeps_index_trim|intros _].
  apply keeps_index_bind; [apply keeps_index_count|intros after].
  apply keeps_index_ret.
Qed.

Lemma keeps_index_history cutoff : keeps_index (history_document cutoff).
Proof.
  unfold history_document, select_window.
  apply keeps_index_bind; [|intros; apply keeps_index_ret].
  apply keeps_index_bind; [apply keeps_index_the_table|intros t].
  apply keeps_index_ret.
Qed.

Lemma keeps_index_export cutoff written :
  keeps_index (history_document cutoff ≫= write_json written).
Proof.
  apply keeps_index_bind; [apply keeps_index_history|intros d].
  intros c Hc. unfold write_json. by destruct written.
Qed.

Lemma keeps_index_create_schema : keeps_index create_db_schema.
Proof.
  intros c _. rewrite create_db_schema_spec. unfold with_schema.
  split; cbn; destruct (gpu_metrics (view c)); by eexists.
Qed.

Lemma perform_keeps_index op c : indexed c → indexed (perform op c).
Proof.
  destruct op; cbn [perform].
  - apply keeps_index_create_schema.
  - apply keeps_index_populate.
  - apply keeps_index_append_batch.
  - apply keeps_index_trim.
  - apply keeps_index_perform_trim.
  - apply keeps_index_count.
  - apply keeps_index_export.
  - apply keeps_index_export.
Qed.

Lemma reachable_indexed c : reachable c → indexed c.
Proof.
  induction 1 as [c|op c _ IH|c b _ IH].
  - rewrite create_db_schema_spec. unfold with_schema.
    split; cbn; destruct (gpu_metrics (view c)); by eexists.
  - by apply perform_keeps_index.
  - destruct IH as [Hd _]. by split.
Qed.

End SchemaFacts.

Section CatalogFacts.

(** What the script does to the schema of any file. *)
Lemma executescript_catalog (cat : Catalog.catalog) :
  let after := (Catalog.executescript cat).1 in
  let raised := (Catalog.executescript cat).2 in
  Catalog.table_columns after
  = Some (default gpu_metrics_columns (Catalog.table_columns cat))
  ∧ (is_Some (Catalog.epoch_index_def cat) →
     Catalog.epoch_index_def after = Catalog.epoch_index_def cat)
  ∧ (raised = None
     ↔ is_Some (Catalog.epoch_index_def cat)
       ∨ index_column
         ∈ col_name <$> default gpu_metrics_columns (Catalog.table_columns cat))
  ∧ (raised = None →
     is_Some (Catalog.epoch_index_def after)
     ∧ Catalog.executescript after = (after, None))
  ∧ (is_Some raised → Catalog.epoch_index_def after = None)
  ∧ (Catalog.made_by_the_script cat →
     after = Catalog.declared ∧ raised = None).
Proof.
  assert (index_column ∈ col_name <$> gpu_metrics_columns) as Hdecl.
  { unfold index_column. cbn. set_solver. }
  cbv zeta.
  unfold Catalog.executescript, Catalog.create_table, Catalog.create_index,
    Catalog.made_by_the_script.
  destruct cat as [[columns|] [ix|]]; cbn [Catalog.table_columns
    Catalog.epoch_index_def fst snd default from_option].
  - split; [done|]. split; [done|]. split; [split; [by left; eexists|done]|].
    split; [by split; [eexists|]|]. split; [by intros [? [=]]|].
    intros [[[=]|[= ->]] [[=]|[= ->]]]. done.
  - destruct (decide (index_column ∈ col_name <$> columns)) as [Hin|Hout];
      cbn [Catalog.table_columns Catalog.epoch_index_def fst snd].
    + split; [done|]. split; [by intros [? [=]]|].
      split; [split; [by right|done]|].
      split; [intros _; split; [by eexists|done]|]. split; [by intros [? [=]]|].
      intros [[[=]|[= ->]] _]. done.
    + split; [done|]. split; [by intros [? [=]]|].
      split; [split; [done|intros [[? [=]]|?]; done]|].
      split; [done|]. split; [done|].
      intros [[[=]|[= ->]] _]. done.
  - split; [done|]. split; [done|]. split; [split; [by left; eexists|done]|].
    split; [by split; [eexists|]|]. split; [by intros [? [=]]|].
    intros [_ [[=]|[= ->]]]. done.
  - rewrite decide_True by done.
    cbn [Catalog.table_columns Catalog.epoch_index_def fst snd].
    split; [done|]. split; [by intros [? [=]]|].
    split; [split; [by right|done]|].
    split; [intros _; split; [by eexists|done]|]. split; [by intros [? [=]]|].
    done.
Qed.

End CatalogFacts.

(** C8, as amended.  On a store of the scripts (a file that is new, or
    whose table [gpu_metrics] has the columns the script declares),
    schema initialisation returns and leaves committed the table with the
    columns id, timestamp, timestamp_epoch, temperature, utilization,
    memory and power and no other, which are the columns a stored row has
    a value in, and the index on [timestamp_epoch]; a table that was there
    keeps its rows and its sequence, a new one is empty; running the
    initialisation again changes nothing; after it, whatever the scripts
    do and whether they return or raise, the table and the index exist, in
    the committed store and in what the connection sees.  On any file,
    the script keeps a table [gpu_metrics] and an index of its name as
    they are, whatever they are, and creates what is missing; it raises
    exactly when there is no such index and the table lacks the column
    [timestamp_epoch]. *)
Theorem schema_initialised_once_and_for_all {tz : zone} (c : connection) :
  (∃ c' t',
     create_db_schema c = Ok tt c'
     ∧ close c' = Database (Some t')
     ∧ view c' = close c'
     ∧ epoch_index t' = true
     ∧ match gpu_metrics (view c) with
       | Some t => rows t' = rows t ∧ sqlite_sequence t' = sqlite_sequence t
       | None => rows t' = []
       end
     ∧ Catalog.executescript (Catalog.catalog_of (view c))
       = (Catalog.catalog_of (close c'), None)
     ∧ Catalog.catalog_of (close c') = Catalog.declared
     ∧ create_db_schema c' = Ok tt c'
     ∧ ∀ c'', reachable c'' → has_index (close c'') ∧ has_index (view c''))
  ∧ col_name <$> gpu_metrics_columns
    = ["id"; "timestamp"; "timestamp_epoch"; "temperature"; "utilization";
       "memory"; "power"]
  ∧ (∀ r name, is_Some (Catalog.row_value r name)
               ↔ name ∈ col_name <$> gpu_metrics_columns)
  ∧ (∀ cat : Catalog.catalog,
       let after := (Catalog.executescript cat).1 in
       let raised := (Catalog.executescript cat).2 in
       Catalog.table_columns after
       = Some (default gpu_metrics_columns (Catalog.table_columns cat))
       ∧ (is_Some (Catalog.epoch_index_def cat) →
          Catalog.epoch_index_def after = Catalog.epoch_index_def cat)
       ∧ (raised = None
          ↔ is_Some (Catalog.epoch_index_def cat)
            ∨ index_column
              ∈ col_name <$> default gpu_metrics_columns (Catalog.table_columns cat))
       ∧ (raised = None →
          is_Some (Catalog.epoch_index_def after)
          ∧ Catalog.executescript after = (after, None))
       ∧ (is_Some raised → Catalog.epoch_index_def after = None)
       ∧ (Catalog.made_by_the_script cat →
          after = Catalog.declared ∧ raised = None)).
Proof.
  split; [|split; [done|split]].
  - eexists _, _. split; [apply create_db_schema_spec|].
    split; [done|]. split; [done|].
    split; [unfold with_schema; by destruct (gpu_metrics (view c))|].
    split; [unfold with_schema; by destruct (gpu_metrics (view c))|].
    split.
    { unfold Catalog.catalog_of, Catalog.executescript, Catalog.create_table,
        Catalog.create_index, close, with_schema. cbn [durable gpu_metrics].
      destruct (gpu_metrics (view c)) as [t|]; cbn; [|done].
      by destruct (epoch_index t). }
    split.
    { unfold Catalog.catalog_of, close, with_schema. cbn [durable gpu_metrics].
      by destruct (gpu_metrics (view c)). }
    split.
    + rewrite create_db_schema_spec. cbn. unfold with_schema at 2. cbn.
      unfold with_schema. by destruct (gpu_metrics (view c)).
    + intros c'' H. by apply reachable_indexed.
  - intros r name. unfold Catalog.row_value. cbn.
    rewrite !elem_of_cons, elem_of_nil. split.
    + intros [v Hv]. repeat case_decide; subst; try tauto. done.
    + intros Hin. repeat case_decide; try (by eexists). tauto.
  - apply executescript_catalog.
Qed.

(** C8, the claim as stated fails on a file in which something else has
    made a table [gpu_metrics]: the table is kept as it is, so after the
    initialisation its columns are not the seven.  When it has a column
    [timestamp_epoch] the initialisation returns and the index is on that
    table of two columns; when it has none the initialisation raises and
    there is no index. *)
Lemma foreign_table_is_kept :
  (∃ after,
     Catalog.executescript Catalog.foreign_catalog_with_epoch = (after, None)
     ∧ Catalog.table_columns after
       = Catalog.table_columns Catalog.foreign_catalog_with_epoch
     ∧ Catalog.table_columns after ≠ Some gpu_metrics_columns
     ∧ is_Some (Catalog.epoch_index_def after))
  ∧ ∃ e,
      Catalog.executescript Catalog.foreign_catalog = (Catalog.foreign_catalog, Some e)
      ∧ Catalog.table_columns Catalog.foreign_catalog ≠ Some gpu_metrics_columns
      ∧ Catalog.epoch_index_def Catalog.foreign_catalog = None.
Proof.
  split.
  - eexists. split; [reflexivity|]. split; [reflexivity|].
    split; [discriminate|by eexists].
  - eexists. split; [reflexivity|]. split; [discriminate|reflexivity].
Qed.


Section ExportFacts.

Context {tz : zone}.

Lemma process_row_document a b c d e ts t u m p :
  process_row (document a b c d e) (ts, t, u, m, p)
  = document (a ++ [JString ts]) (b ++ [JNumber t]) (c ++ [JNumber u])
             (d ++ [JNumber m]) (e ++ [JNumber p]).
Proof.
  unfold process_row, append_to, document.
  apply map_eq. intros k.
  repeat (rewrite ?lookup_alter, ?lookup_insert, ?lookup_empty; case_decide; subst; try done).
Qed.

Lemma foldl_process_row fetched : ∀ a b c d e,
  foldl process_row (document a b c d e) fetched
  = document (a ++ (JString ∘ (λ x, x.1.1.1.1) <$> fetched))
             (b ++ (JNumber ∘ (λ x, x.1.1.1.2) <$> fetched))
             (c ++ (JNumber ∘ (λ x, x.1.1.2) <$> fetched))
             (d ++ (JNumber ∘ (λ x, x.1.2) <$> fetched))
             (e ++ (JNumber ∘ (λ x, x.2) <$> fetched)).
Proof.
  induction fetched as [|[[[[ts t] u] m] p] fetched IH]; intros a b c d e.
  - cbn. by rewrite !app_nil_r.
  - cbn [foldl]. rewrite process_row_document, IH. cbn.
    by rewrite <-!(assoc_L (++)).
Qed.

Lemma history_document_spec cutoff c :
  history_document cutoff c
  = match gpu_metrics (view c) with
    | Some t =>
        let rs := window_rows cutoff t in
        Ok (document (JString ∘ timestamp <$> rs) (JNumber ∘ temperature <$> rs)
                     (JNumber ∘ utilization <$> rs) (JNumber ∘ memory <$> rs)
                     (JNumber ∘ power <$> rs)) c
    | None => Raise no_such_table c
    end.
Proof.
  unfold history_document, select_window, mbind, M_bind, the_table.
  destruct (gpu_metrics (view c)) as [t|]; [|done].
  cbn. f_equal. change empty_result with (document [] [] [] [] []).
  rewrite foldl_process_row. cbn. by rewrite <-!list_fmap_compose.
Qed.

#[local] Instance index_le_total : Total index_le.
Proof. intros r1 r2. unfold index_le. lia. Qed.

Lemma index_le_epoch_le r1 r2 : index_le r1 r2 → epoch_le r1 r2.
Proof. unfold index_le, epoch_le. lia. Qed.

Lemma Sorted_weaken {A} (R1 R2 : relation A) (l : list A) :
  (∀ x y, R1 x y → R2 x y) → Sorted R1 l → Sorted R2 l.
Proof.
  intros HR. induction 1 as [|x l _ IH Hhd]; constructor; [done|].
  destruct Hhd; constructor; auto.
Qed.

Lemma window_rows_sorted cutoff t : Sorted epoch_le (window_rows cutoff t).
Proof.
  unfold window_rows.
  eapply Sorted_weaken; [|apply (Sorted_merge_sort index_le)].
  intros r1 r2. apply index_le_epoch_le.
Qed.

Lemma window_rows_perm cutoff t :
  window_rows cutoff t ≡ₚ filter (λ r, cutoff < timestamp_epoch r) (rows t).
Proof. apply merge_sort_Permutation. Qed.



(** The export as a whole: the query, the loop and the write. *)
Lemma export_spec cutoff written c :
  (history_document cutoff ≫= write_json written) c
  = match gpu_metrics (view c) with
    | Some t =>
        let rs := window_rows cutoff t in
        if written then
          Ok (document (JString ∘ timestamp <$> rs) (JNumber ∘ temperature <$> rs)
                       (JNumber ∘ utilization <$> rs) (JNumber ∘ memory <$> rs)
                       (JNumber ∘ power <$> rs)) c
        else Raise (OSError "history.json") c
    | None => Raise no_such_table c
    end.
Proof.
  unfold mbind at 1, M_bind. rewrite history_document_spec.
  destruct (gpu_metrics (view c)) as [t|]; [|done].
  cbv zeta. unfold write_json. by destruct written.
Qed.


End ExportFacts.




Section BatchFacts.

(** Slices of [n] elements taken at [0], [n], [2 n], ... cover the list. *)
Lemma chunks_cover {A} (n : nat) : ∀ (m : nat) (l : list A),
  (length l ≤ m * n)%nat →
  concat ((λ k : nat, take n (drop (k * n) l)) <$> seq 0 m) = l.
Proof.
  induction m as [|m IH]; intros l Hl.
  - destruct l; [done|]. cbn in Hl. lia.
  - cbn [seq fmap list_fmap concat]. rewrite <-fmap_S_seq, <-list_fmap_compose.
    transitivity (take n l ++ drop n l); [|apply take_drop].
    f_equal. etransitivity; [|apply (IH (drop n l)); rewrite length_drop; lia].
    f_equal. apply list_fmap_ext. intros _ k _. cbn.
    by rewrite drop_drop.
Qed.

Lemma chunks_prefix {A} (n k : nat) (l : list A) :
  concat ((λ j : nat, take n (drop (j * n) l)) <$> seq 0 k) = take (k * n) l.
Proof.
  induction k as [|k IH]; [done|].
  rewrite seq_S, fmap_app, concat_app, IH. cbn.
  rewrite app_nil_r, take_take_drop. f_equal. lia.
Qed.

Lemma py_slice_chunk {A} (l : list A) (n k : nat) :
  py_slice l (Z.of_nat k * Z.of_nat n) (Z.of_nat k * Z.of_nat n + Z.of_nat n)
  = take n (drop (k * n) l).
Proof.
  unfold py_slice. f_equal; [lia|]. f_equal. lia.
Qed.

Lemma py_range_spec (stop step : Z) c :
  0 < step → 0 ≤ stop →
  py_range stop step c
  = Ok ((λ k : nat, Z.of_nat k * step)
          <$> seq 0 (Z.to_nat ((stop + step - 1) `div` step))) c.
Proof. intros. unfold py_range. by repeat case_decide; try lia. Qed.

Lemma for_each_fmap {A B C} (g : A → B) (h : B → C) (body : C → M unit)
    (xs : list A) :
  for_each (g <$> xs) (λ i, body (h i)) = for_each (h ∘ g <$> xs) body.
Proof. induction xs as [|x xs IH]; [done|]. cbn. by rewrite IH. Qed.

(** A run of batch transactions: all committed, or the batches before the
    failing one committed. *)
Lemma for_each_append_batch chunks : ∀ c t,
  txn c = None → durable c = Database (Some t) →
  match for_each chunks append_batch c with
  | Ok _ c' =>
      txn c' = None
      ∧ (∃ t', durable c' = Database (Some t') ∧ appended t (concat chunks) t')
      ∧ Forall storable (concat chunks)
      ∧ (budget c = None → budget c' = None)
  | Raise _ c' =>
      (∃ k t', (k < length chunks)%nat
               ∧ durable c' = Database (Some t')
               ∧ appended t (concat (take k chunks)) t')
      ∧ (¬ Forall storable (concat chunks) ∨ budget c ≠ None)
  end.
Proof.
  induction chunks as [|batch chunks IH]; intros c t Hc Hd.
  - cbn. split; [done|]. split; [|split; [constructor|done]].
    exists t. by split; [|apply appended_refl].
  - cbn [for_each]. unfold mbind, M_bind.
    pose proof (append_batch_spec batch c Hc) as Hb.
    destruct (append_batch batch c) as [[] c1|e c1].
    + destruct Hb as (Hc1 & (t0 & t1 & Ht0 & Hd1 & Ha) & Hbud & Hs & _).
      assert (t0 = t) as -> by congruence.
      specialize (IH c1 t1 Hc1 Hd1).
      destruct (for_each chunks append_batch c1) as [[] c'|e c'].
      * destruct IH as (Hc' & (t' & Hd' & Ha') & Hs' & Hb').
        split; [done|]. split; [|split; [by apply Forall_app|]].
        -- exists t'. split; [done|]. cbn. by eapply appended_trans.
        -- intros Hn. apply Hb'. by rewrite Hbud, Hn.
      * destruct IH as ((k & t' & Hk & Hd' & Ha') & Hor). split.
        -- exists (S k), t'. split; [cbn; lia|]. split; [done|].
           cbn. by eapply appended_trans.
        -- destruct Hor as [Hn|Hn].
           ++ left. cbn. rewrite Forall_app. tauto.
           ++ right. intros Hnone. apply Hn. by rewrite Hbud, Hnone.
    + destruct Hb as [Hd1 Hor]. split.
      * exists 0%nat, t. split; [cbn; lia|].
        split; [congruence|]. apply appended_refl.
      * destruct Hor as [Hn|[Hn|(b & Hb & _)]].
        -- rewrite Hd in Hn. done.
        -- left. cbn. rewrite Forall_app. tauto.
        -- right. congruence.
Qed.

(** The insert loop on a committed table, for a positive batch size. *)
Lemma insert_in_batches_spec metrics batch_size c t :
  0 < batch_size →
  txn c = None → durable c = Database (Some t) →
  match insert_in_batches metrics batch_size c with
  | Ok _ c' =>
      txn c' = None
      ∧ (∃ t', durable c' = Database (Some t') ∧ appended t metrics t')
      ∧ Forall storable metrics
      ∧ (budget c = None → budget c' = None)
  | Raise _ c' =>
      (∃ n t', durable c' = Database (Some t') ∧ appended t (take n metrics) t')
      ∧ (¬ Forall storable metrics ∨ budget c ≠ None)
  end.
Proof.
  intros Hb Hc Hd. unfold insert_in_batches, mbind, M_bind.
  rewrite py_range_spec by lia.
  set (n := Z.to_nat batch_size).
  set (m := Z.to_nat ((Z.of_nat (length metrics) + batch_size - 1) `div` batch_size)).
  assert (length metrics ≤ m * n)%nat as Hm.
  { subst m n.
    pose proof (Z.div_mod (Z.of_nat (length metrics) + batch_size - 1) batch_size
                  ltac:(lia)).
    pose proof (Z.mod_pos_bound (Z.of_nat (length metrics) + batch_size - 1)
                  batch_size ltac:(lia)).
    nia. }
  rewrite (for_each_fmap _ (λ i, py_slice metrics i (i + batch_size)) append_batch).
  rewrite (list_fmap_ext _ (λ k : nat, take n (drop (k * n) metrics)) (seq 0 m)).
  2:{ intros _ k _. cbn. replace batch_size with (Z.of_nat n) by lia.
      apply py_slice_chunk. }
  pose proof (for_each_append_batch
                ((λ k : nat, take n (drop (k * n) metrics)) <$> seq 0 m) c t Hc Hd) as H.
  rewrite chunks_cover in H by done.
  destruct (for_each _ append_batch c) as [[] c'|e c']; [done|].
  destruct H as ((k & t' & Hk & Hd' & Ha) & Hor). split; [|done].
  rewrite length_fmap, length_seq in Hk.
  exists (k * n)%nat, t'. split; [done|].
  replace (take (k * n) metrics)
    with (concat (take k ((λ k : nat, take n (drop (k * n) metrics)) <$> seq 0 m)));
    [done|].
  rewrite <-fmap_take, take_seq, Nat.min_l by lia. apply chunks_prefix.
Qed.

End BatchFacts.


Section RoundTripFacts.

Lemma in_range_not_NaN lo hi v : in_range lo hi v = true → v ≠ NaN.
Proof. intros (q & -> & _)%in_range_Fin. done. Qed.

Lemma clamp_not_NaN lo hi x : lo ≤ hi → clamp lo hi x ≠ NaN.
Proof.
  intros H. eapply in_range_not_NaN. by apply (clamp_spec lo hi x).
Qed.

Lemma sanitized_storable s : sanitized s → storable s.
Proof.
  intros (ts & ep & [t u m p] & ->). unfold storable, sanitize; cbn.
  repeat split; try by apply clamp_not_NaN.
  destruct p; [by apply clamp_not_NaN|done].
Qed.

Lemma filter_fmap {A B} (f : A → B) (P : B → Prop) `{∀ y, Decision (P y)}
    (l : list A) :
  filter P (f <$> l) = f <$> filter (P ∘ f) l.
Proof.
  induction l as [|x l IH]; [done|].
  rewrite fmap_cons, !filter_cons. cbn. case_decide; cbn; by rewrite IH.
Qed.

(** The insert loop on an empty committed table, with tuples that can all
    be stored and an engine that does not fail: it returns, and the table
    then holds the tuples in order. *)
Lemma insert_in_batches_empty metrics batch_size c t :
  0 < batch_size →
  txn c = None → durable c = Database (Some t) → rows t = [] →
  budget c = None →
  Forall storable metrics →
  ∃ c' t',
    insert_in_batches metrics batch_size c = Ok tt c'
    ∧ view c' = Database (Some t')
    ∧ sample_of_row <$> rows t' = metrics.
Proof.
  intros Hb Hc Hd Hr Hbud Hs.
  pose proof (insert_in_batches_spec metrics batch_size c t Hb Hc Hd) as H.
  destruct (insert_in_batches metrics batch_size c) as [[] c'|e c'].
  - destruct H as (Hc' & (t' & Hd' & (new & Hn & Hf & _)) & _).
    exists c', t'. split; [done|]. split; [by rewrite view_committed|].
    by rewrite Hn, Hr.
  - destruct H as [_ [?|?]]; done.
Qed.

Lemma window_rows_samples cutoff t :
  sample_of_row <$> window_rows cutoff t
  ≡ₚ filter (λ s, cutoff < s_epoch s) (sample_of_row <$> rows t).
Proof. by rewrite window_rows_perm, filter_fmap. Qed.

Lemma select_window_spec cutoff c t :
  view c = Database (Some t) →
  select_window cutoff c = Ok (five_columns <$> window_rows cutoff t) c.
Proof.
  intros Hv. unfold select_window, mbind, M_bind, the_table. by rewrite Hv.
Qed.

End RoundTripFacts.

(** C7 (as amended): for every list of sanitized tuples written by the
    insert loop, with a positive batch size, to a store whose table is
    empty, the window query above epoch 0 returns one row per written tuple
    whose epoch is above 0, in ascending epoch order, and each returned row
    is the five columns timestamp, temperature, utilization, memory and
    power of a stored row whose six inserted columns are exactly those of
    the written tuple.  The epoch selects and orders the rows and is not
    among the returned columns. *)
Theorem write_then_window_roundtrip
    (metrics : list sample) (batch_size sequence : Z) (index : bool) :
  0 < batch_size →
  Forall sanitized metrics →
  ∃ c' rs,
    write_then_window metrics batch_size (empty_store sequence index)
    = Ok (five_columns <$> rs) c'
    ∧ sample_of_row <$> rs ≡ₚ filter (λ s, 0 < s_epoch s) metrics
    ∧ Sorted epoch_le rs.
Proof.
  intros Hb Hs.
  destruct (insert_in_batches_empty metrics batch_size
              (empty_store sequence index) (Table [] sequence index))
    as (c' & t' & Hi & Hv & Hrows); try done.
  { eapply Forall_impl; [done|]. apply sanitized_storable. }
  exists c', (window_rows 0 t').
  unfold write_then_window, mbind, M_bind. rewrite Hi.
  split; [by apply select_window_spec|].
  split; [by rewrite window_rows_samples, Hrows|apply window_rows_sorted].
Qed.


Lemma write_then_window_roundtrip_witness :
  0 < 1000
  ∧ Forall sanitized [sample_2023; sample_2022]
  ∧ ∃ c' rs,
      write_then_window [sample_2023; sample_2022] 1000 (empty_store 0 true)
      = Ok (five_columns <$> rs) c'
      ∧ sample_of_row <$> rs ≡ₚ filter (λ s, 0 < s_epoch s) [sample_2023; sample_2022]
      ∧ Sorted epoch_le rs.
Proof.
  assert (0 < 1000) as H1 by lia.
  assert (Forall sanitized [sample_2023; sample_2022]) as H2.
  { repeat constructor; eexists _, _, _; reflexivity. }
  exact (conj H1 (conj H2
           (write_then_window_roundtrip [sample_2023; sample_2022] 1000 0 true H1 H2))).
Defined.

(** C7 (as stated) fails: a sanitized tuple with epoch 0 written to an empty
    store is not returned by the window query above epoch 0; and two
    sanitized tuples that differ in their epoch only (same day and time, a
    year apart) come back as the same row, so the returned row does not
    carry the epoch. *)
Lemma window_skips_epoch_zero_and_returns_no_epoch :
  (sanitized sample_1970
   ∧ ∃ c', write_then_window [sample_1970] 1000 (empty_store 0 true) = Ok [] c')
  ∧ (sanitized sample_2022 ∧ sanitized sample_2023
     ∧ s_epoch sample_2022 ≠ s_epoch sample_2023
     ∧ ∃ x c1 c2,
         write_then_window [sample_2022] 1000 (empty_store 0 true) = Ok [x] c1
         ∧ write_then_window [sample_2023] 1000 (empty_store 0 true) = Ok [x] c2).
Proof.
  split.
  - split; [by eexists _, _, _|]. eexists. vm_compute. reflexivity.
  - split; [by eexists _, _, _|]. split; [by eexists _, _, _|].
    split; [done|]. eexists _, _, _. split; vm_compute; reflexivity.
Qed.


Section UnavailableFacts.




End UnavailableFacts.




Section ServerFacts.

Example strip_examples :
  strip "/" "/" = "" ∧ strip "/" "" = "" ∧ strip "/" "/history/history.json" = "history/history.json"
  ∧ strip "/" "//a/b//" = "a/b" ∧ strip "/" "/../etc/passwd" = "../etc/passwd".
Proof. by repeat split. Qed.

Example split_on_examples :
  split_on "/" "../etc/passwd" = [".."; "etc"; "passwd"]
  ∧ split_on "/" "a//b" = ["a"; ""; "b"]
  ∧ split_on "/" "gpu-stats.html" = ["gpu-stats.html"].
Proof. by repeat split. Qed.

(** [lstrip] removes the leading occurrences of the character and nothing
    else. *)
Lemma lstrip_spec ch s :
  ∃ n, s = String.append (string_of_list_ascii (replicate n ch)) (lstrip ch s)
       ∧ match lstrip ch s with
         | String c _ => c ≠ ch
         | EmptyString => True
         end.
Proof.
  induction s as [|c s (n & Hs & Hl)]; [by exists 0%nat|].
  cbn [lstrip]. case_decide as Hc.
  - subst c. exists (S n). split; [|done].
    change (String ch s
            = String ch (String.append (string_of_list_ascii (replicate n ch))
                           (lstrip ch s))).
    by f_equal.
  - by exists 0%nat.
Qed.

(** [rstrip] never leaves the character at the end. *)
Lemma rstrip_last ch s :
  ∀ t, rstrip ch s ≠ String.append t (String ch EmptyString).
Proof.
  induction s as [|c s IH]; intros t; [by destruct t|].
  cbn [rstrip]. destruct (rstrip ch s) as [|c' r] eqn:Hr.
  - case_decide; [by destruct t|].
    destruct t as [|c1 [|c2 t]]; cbv [String.append]; congruence.
  - destruct t as [|c1 t]; [done|].
    change (String c (String c' r)
            ≠ String c1 (String.append t (String ch EmptyString))).
    intros [= -> Ht]. by eapply IH.
Qed.

End ServerFacts.

Section InstallerFacts.

Lemma ensure_path_undefined :
  "ensure_path"
  ∉ (Installer.instance_attributes ∪ Installer.class_attributes
     ∪ Installer.object_attributes).
Proof. apply (bool_decide_unpack _). by vm_compute. Qed.

Lemma check_prerequisites_raises env s :
  Installer.check_prerequisites env s
  = Installer.Raised (Installer.AttributeError "GPUMonitorInstaller" "ensure_path") s.
Proof.
  unfold Installer.check_prerequisites, Installer.getattr_self.
  rewrite (decide_False (P := "ensure_path" ∈ _)) by exact ensure_path_undefined.
  reflexivity.
Qed.

Lemma and_then_raised (a b : Installer.I bool) e s s' :
  a s = Installer.Raised e s' → Installer.and_then a b s = Installer.Raised e s'.
Proof.
  intros Ha. unfold Installer.and_then, mbind, Installer.I_bind. by rewrite Ha.
Qed.

(** A trace of log lines and of the first message of [main] holds no
    success message, no program run and no method call. *)
Lemma quiet_trace (l : list Installer.event) :
  Forall (λ ev, (∃ msg, ev = Installer.LogInfo msg ∨ ev = Installer.LogError msg)
                ∨ ev = Installer.Print "Starting GPU Monitor installation...") l →
  (Installer.Print Installer.success_message ∉ l)
  ∧ Forall (λ ev, ¬ is_subprocess ev ∧ ∀ name, ev ≠ Installer.MethodCall name) l.
Proof.
  intros Hl. split.
  - intros Hin. rewrite Forall_forall in Hl.
    destruct (Hl _ Hin) as [(msg & [?|?])|?]; done.
  - eapply Forall_impl; [exact Hl|]. intros ev [(msg & [->| ->])| ->];
      (split; [cbn; tauto|intros name; discriminate]).
Qed.

End InstallerFacts.

(** C10: [check_prerequisites] raises AttributeError on every call, in
    every environment and from every state of the installer, and the state
    is the one it was called in: no program has been run and nothing has
    been logged.  The name [ensure_path] is defined neither on the class,
    nor on the instance, nor on [object].  So [main] with [--start] never
    returns: it ends in an exception, no program is run, no later
    installation step is called, and the success message is never
    printed. *)
Theorem check_prerequisites_always_raises :
  (∀ env s,
     Installer.check_prerequisites env s
     = Installer.Raised (Installer.AttributeError "GPUMonitorInstaller" "ensure_path") s)
  ∧ ("ensure_path"
     ∉ Installer.instance_attributes ∪ Installer.class_attributes
       ∪ Installer.object_attributes)
  ∧ (∀ env stop status uninstall skip_path_fix,
       ∃ e s',
         Installer.main (Installer.Arguments true stop status uninstall skip_path_fix)
           env Installer.initial_state
         = Installer.Raised e s'
         ∧ (Installer.Print Installer.success_message ∉ Installer.trace s')
         ∧ Forall (λ ev, ¬ is_subprocess ev ∧ ∀ name, ev ≠ Installer.MethodCall name)
             (Installer.trace s')
         ∧ (Installer.log_dir_writable env = true → Installer.geteuid env = 0 →
            e = Installer.AttributeError "GPUMonitorInstaller" "ensure_path")).
Proof.
  split; [apply check_prerequisites_raises|].
  split; [apply ensure_path_undefined|].
  intros env stop status uninstall skip.
  unfold Installer.main. cbn [Installer.start].
  unfold mbind at 1, Installer.I_bind.
  unfold Installer.new_installer, mbind, Installer.I_bind.
  destruct (Installer.log_dir_writable env) eqn:Hw.
  - cbn [mret Installer.I_ret Installer.emit Installer.trace
           Installer.nvidia_smi_path Installer.initial_state app].
    case_decide as He.
    + cbn [mret Installer.I_ret Installer.emit Installer.throw Installer.trace
             Installer.nvidia_smi_path app].
      eexists _, _. split; [done|]. cbn [Installer.trace].
      split; [|split; [|done]]; apply quiet_trace;
        repeat (apply Forall_cons; split; [eauto|]); apply Forall_nil_2.
    + cbn [mret Installer.I_ret Installer.emit Installer.trace
             Installer.nvidia_smi_path app].
      erewrite and_then_raised by apply check_prerequisites_raises.
      eexists _, _. split; [done|]. cbn [Installer.trace].
      split; [|split; [|done]]; apply quiet_trace;
        repeat (apply Forall_cons; split; [eauto|]); apply Forall_nil_2.
  - cbn [Installer.throw]. eexists _, _. split; [done|]. cbn.
    split; [|split; [|done]]; apply quiet_trace; constructor.
Qed.


Section WholeRunFacts.

(** [populate_database] as a whole replaces the contents: after a run that
    returns, the table holds the given tuples and nothing else, whatever
    it held before. *)
Lemma populate_database_replaces metrics batch_size db t :
  0 < batch_size →
  gpu_metrics db = Some t →
  Forall storable metrics →
  ∃ c' t',
    populate_database metrics batch_size (connect db None) = Ok tt c'
    ∧ view c' = Database (Some t')
    ∧ close c' = view c'
    ∧ sample_of_row <$> rows t' = metrics
    ∧ count_records c' = Ok (Z.of_nat (length metrics)) c'.
Proof.
  intros Hb Ht Hs.
  set (c1 := Conn (Database (Some (Table [] (sqlite_sequence t) (epoch_index t))))
                  None None).
  assert (populate_database metrics batch_size (connect db None)
          = insert_in_batches metrics batch_size c1) as ->.
  { unfold populate_database, execute_delete_all, mbind, M_bind, the_table.
    change (view (connect db None)) with db. by rewrite Ht. }
  destruct (insert_in_batches_empty metrics batch_size c1
              (Table [] (sqlite_sequence t) (epoch_index t)))
    as (c' & t' & Hi & Hv & Hrows); try done.
  exists c', t'. split; [done|]. split; [done|].
  pose proof (insert_in_batches_spec metrics batch_size c1 _ Hb eq_refl eq_refl) as H.
  rewrite Hi in H. destruct H as (Hc' & _).
  split; [by rewrite view_committed|]. split; [done|].
  unfold count_records. rewrite select_count_spec, Hv. cbn.
  by rewrite <-Hrows, length_fmap.
Qed.

(** A batch that fails in the middle: the second tuple cannot be stored.
    The committed store keeps its one row; the failing connection still
    sees the first tuple of the batch in its open transaction, until it is
    closed. *)
Example failed_batch_is_rolled_back_on_close :
  ∃ e c',
    append_batch [sample_2022; sample_nan; sample_2023] (connect one_row_store None)
    = Raise e c'
    ∧ close c' = one_row_store
    ∧ count_records (connect (close c') None) = Ok 1 (connect (close c') None)
    ∧ count_records c' = Ok 2 c'.
Proof. eexists _, _. by repeat split. Qed.

(** A batch that is interrupted: the engine takes one more row only. *)
Example interrupted_batch_is_rolled_back_on_close :
  ∃ e c',
    append_batch [sample_2022; sample_2023] (connect one_row_store (Some 1%nat))
    = Raise e c'
    ∧ close c' = one_row_store.
Proof. eexists _, _. by repeat split. Qed.

(** A batch that goes through. *)
Example accepted_batch_is_committed :
  ∃ c',
    append_batch [sample_2022; sample_2023] (connect one_row_store None) = Ok tt c'
    ∧ count_records c' = Ok 3 c'
    ∧ view c' = close c'.
Proof. eexists. by repeat split. Qed.

(** The three readings of the examples, exported: unavailable power comes
    out as 0, a measured zero as 10, an ordinary 100 as 100. *)
Example exported_power_of_three_readings :
  ∃ c' d,
    insert_in_batches
      (sanitize_reading
         <$> [("03-01 00:00:00", 1646092800, reading_no_power);
              ("03-01 00:00:04", 1646092804, reading_zero_watts);
              ("03-01 00:00:08", 1646092808, reading_ordinary)]) 2
      (empty_store 0 true) = Ok tt c'
    ∧ history_document 1646092000 c' = Ok d c'
    ∧ d !! "power"
      = Some [JNumber (of_int 0); JNumber (of_int 10); JNumber (of_int 100)].
Proof. eexists _, _. split; [done|]. split; [done|]. by vm_compute. Qed.

End WholeRunFacts.


Section KeyFacts.

Context {tz : zone}.

Lemma keeps_ret Inv {A} (a : A) : keeps Inv (mret a).
Proof. by intros c. Qed.

Lemma keeps_bind Inv {A B} (m : M A) (f : A → M B) :
  keeps Inv m → (∀ a, keeps Inv (f a)) → keeps Inv (m ≫= f).
Proof.
  intros Hm Hf c Hc. specialize (Hm c Hc). unfold mbind, M_bind.
  destruct (m c) as [a c'|e c']; [|done]. by apply Hf.
Qed.

Lemma keeps_for_each Inv {A} (xs : list A) (body : A → M unit) :
  (∀ x, keeps Inv (body x)) → keeps Inv (for_each xs body).
Proof.
  intros Hb. induction xs as [|x xs IH]; cbn [for_each].
  - apply keeps_ret.
  - apply keeps_bind; [apply Hb|done].
Qed.

Lemma max_rowid_ge (rs : list row) : 0 ≤ max_rowid rs.
Proof. unfold max_rowid. induction rs as [|r rs IH]; cbn [foldr]; lia. Qed.

Lemma next_rowid_above t :
  keyed t → 0 < next_rowid t ∧ Forall (λ i, i < next_rowid t) (id <$> rows t).
Proof.
  intros [_ Hle]. unfold next_rowid. pose proof (max_rowid_ge (rows t)).
  split; [lia|]. eapply Forall_impl; [exact Hle|]. cbn. intros i. lia.
Qed.

Lemma insert_row_keyed s t t' : keyed t → insert_row s t = Some t' → keyed t'.
Proof.
  intros Hk Hi. pose proof (next_rowid_above t Hk) as [Hpos Hlt].
  destruct Hk as [Hs Hle].
  unfold insert_row in Hi. simplify_option_eq. unfold keyed; cbn.
  rewrite fmap_app; cbn. split.
  - apply StronglySorted_app_2; [|done|repeat constructor].
    intros i j Hi ->%list_elem_of_singleton.
    rewrite Forall_forall in Hlt. by apply Hlt.
  - apply Forall_app. split; [|repeat constructor; lia].
    rewrite Forall_forall in Hle, Hlt. apply Forall_forall. intros i Hi.
    specialize (Hle i Hi). specialize (Hlt i Hi). lia.
Qed.

Lemma Forall_ids_filter (Q : Z → Prop) (P : row → Prop) `{∀ r, Decision (P r)}
    (l : list row) :
  Forall Q (id <$> l) → Forall Q (id <$> filter P l).
Proof.
  rewrite !Forall_fmap, !Forall_forall. intros Hl r [_ Hr]%list_elem_of_filter.
  by apply Hl.
Qed.

Lemma keyed_filter (P : row → Prop) `{∀ r, Decision (P r)} t :
  keyed t → keyed (Table (filter P (rows t)) (sqlite_sequence t) (epoch_index t)).
Proof.
  intros [Hs Hle]. unfold keyed; cbn. split; [|by apply Forall_ids_filter].
  clear Hle. induction (rows t) as [|r l IH]; [done|].
  rewrite fmap_cons in Hs. apply StronglySorted_cons in Hs as [Hr Hs].
  rewrite filter_cons. case_decide; [|by apply IH].
  rewrite fmap_cons. apply StronglySorted_cons. split; [|by apply IH].
  by apply Forall_ids_filter.
Qed.

Lemma keyed_empty n b : keyed (Table [] n b).
Proof. split; cbn; constructor. Qed.

Lemma keeps_keyed_the_table : keeps keyed_conn the_table.
Proof. intros c Hc. unfold the_table. by destruct (gpu_metrics (view c)). Qed.

Lemma keeps_keyed_begin_implicit : keeps keyed_conn begin_implicit.
Proof. intros [d [w|] b] [Hd Hv]; [done|]. split; [done|]. by cbn. Qed.

Lemma keeps_keyed_execute_begin : keeps keyed_conn execute_begin.
Proof. intros [d [w|] b] [Hd Hv]; [done|]. split; [done|]. by cbn. Qed.

Lemma keeps_keyed_commit : keeps keyed_conn commit.
Proof. intros c [Hd Hv]. by split. Qed.

Lemma keeps_keyed_vacuum : keeps keyed_conn execute_vacuum.
Proof. intros [d [w|] b] Hc; done. Qed.

(** A statement that reads the table and writes a keyed one. *)
Lemma keeps_keyed_update (f : table → table) :
  (∀ t, keyed t → keyed (f t)) →
  keeps keyed_conn (t ← the_table; begin_implicit;; write_table (f t)).
Proof.
  intros Hf c Hc. unfold mbind, M_bind, the_table.
  destruct (gpu_metrics (view c)) as [t|] eqn:Ht; [|done].
  assert (keyed t) as Hk.
  { destruct Hc as [_ Hv]. unfold keyed_db in Hv. by rewrite Ht in Hv. }
  destruct Hc as [Hd _].
  destruct c as [d [w|] b]; (split; [done|]); by apply Hf.
Qed.

Lemma keeps_keyed_delete_all : keeps keyed_conn execute_delete_all.
Proof.
  apply (keeps_keyed_update (λ t, Table [] (sqlite_sequence t) (epoch_index t))).
  intros t _. apply keyed_empty.
Qed.

Lemma keeps_keyed_delete_older cutoff : keeps keyed_conn (execute_delete_older cutoff).
Proof.
  apply (keeps_keyed_update
           (λ t, Table (filter (λ r, ¬ timestamp_epoch r < cutoff) (rows t))
                       (sqlite_sequence t) (epoch_index t))).
  intros t. apply keyed_filter.
Qed.

Lemma keeps_keyed_insert s : keeps keyed_conn (execute_insert s).
Proof.
  intros c Hc. unfold execute_insert.
  destruct (gpu_metrics (view c)) as [t|] eqn:Ht; [|done].
  assert (keyed t) as Hk.
  { destruct Hc as [_ Hv]. unfold keyed_db in Hv. by rewrite Ht in Hv. }
  destruct (insert_row s t) as [t'|] eqn:Hr.
  - pose proof (insert_row_keyed s t t' Hk Hr) as Hk'.
    destruct (budget c) as [[|k]|]; [exact Hc| |]; (split; [apply Hc|done]).
  - destruct (budget c) as [[|k]|]; exact Hc.
Qed.

Lemma keeps_keyed_append_batch batch : keeps keyed_conn (append_batch batch).
Proof.
  unfold append_batch, executemany_insert.
  apply keeps_bind; [apply keeps_keyed_execute_begin|intros _].
  apply keeps_bind; [|intros _; apply keeps_keyed_commit].
  apply keeps_bind; [apply keeps_keyed_the_table|intros _].
  apply keeps_bind; [apply keeps_keyed_begin_implicit|intros _].
  apply keeps_for_each, keeps_keyed_insert.
Qed.

Lemma keeps_keyed_insert_in_batches metrics batch_size :
  keeps keyed_conn (insert_in_batches metrics batch_size).
Proof.
  unfold insert_in_batches.
  apply keeps_bind.
  - unfold py_range. repeat case_decide; by intros c.
  - intros starts. apply keeps_for_each. intros i. apply keeps_keyed_append_batch.
Qed.

Lemma keeps_keyed_populate metrics batch_size :
  keeps keyed_conn (populate_database metrics batch_size).
Proof.
  unfold populate_database.
  apply keeps_bind; [apply keeps_keyed_delete_all|intros _].
  apply keeps_bind; [apply keeps_keyed_commit|intros _].
  apply keeps_keyed_insert_in_batches.
Qed.

Lemma keeps_keyed_trim cutoff : keeps keyed_conn (trim cutoff).
Proof.
  unfold trim.
  apply keeps_bind; [apply keeps_keyed_delete_older|intros _].
  apply keeps_bind; [apply keeps_keyed_commit|intros _].
  apply keeps_bind; [apply keeps_keyed_vacuum|intros _].
  apply keeps_keyed_commit.
Qed.

Lemma keeps_keyed_count : keeps keyed_conn select_count.
Proof.
  unfold select_count.
  apply keeps_bind; [apply keeps_keyed_the_table|intros t]. apply keeps_ret.
Qed.

Lemma keeps_keyed_perform_trim now : keeps keyed_conn (perform_trim_operation now).
Proof.
  unfold perform_trim_operation.
  apply keeps_bind; [apply keeps_keyed_count|intros before].
  apply keeps_bind; [apply keeps_keyed_trim|intros _].
  apply keeps_bind; [apply keeps_keyed_count|intros after]. apply keeps_ret.
Qed.

Lemma keeps_keyed_history cutoff : keeps keyed_conn (history_document cutoff).
Proof.
  unfold history_document, select_window.
  apply keeps_bind; [|intros; apply keeps_ret].
  apply keeps_bind; [apply keeps_keyed_the_table|intros t]. apply keeps_ret.
Qed.

Lemma keeps_keyed_export cutoff written :
  keeps keyed_conn (history_document cutoff ≫= write_json written).
Proof.
  apply keeps_bind; [apply keeps_keyed_history|intros d].
  intros c Hc. unfold write_json. by destruct written.
Qed.

Lemma keeps_keyed_create_schema : keeps keyed_conn create_db_schema.
Proof.
  intros c [_ Hv]. rewrite create_db_schema_spec. unfold with_schema.
  unfold keyed_db in Hv.
  split; cbn; unfold keyed_db; cbn; destruct (gpu_metrics (view c));
    done || apply keyed_empty.
Qed.

End KeyFacts.

(** X1: the rowids stay a key.  On a connection whose tables have rowids
    that are positive, strictly increasing in row order and not above the
    AUTOINCREMENT sequence, every operation of the scripts, whether it
    returns or raises, and closing and connecting again, leaves tables of
    that kind; a new database file is of that kind.  So no two rows ever
    share an id, and the rowid the next insert gets is above every id in
    the table. *)
Theorem rowids_stay_a_key {tz : zone} (c : connection) (op : operation) (b : option nat) :
  keyed_conn c →
  keyed_conn (perform op c)
  ∧ keyed_conn (connect (close c) b)
  ∧ keyed_conn (connect new_file b)
  ∧ (∀ t, gpu_metrics (view (perform op c)) = Some t →
          NoDup (id <$> rows t)
          ∧ Forall (λ r, 0 < id r < next_rowid t) (rows t)).
Proof.
  intros Hc.
  assert (keyed_conn (perform op c)) as Hp.
  { destruct op; cbn [perform].
    - by apply keeps_keyed_create_schema.
    - by apply keeps_keyed_populate.
    - by apply keeps_keyed_append_batch.
    - by apply keeps_keyed_trim.
    - by apply keeps_keyed_perform_trim.
    - by apply keeps_keyed_count.
    - by apply keeps_keyed_export.
    - by apply keeps_keyed_export. }
  split; [done|]. split; [by destruct Hc as [Hd _]|]. split; [done|].
  intros t Ht. destruct Hp as [_ Hv]. unfold keyed_db in Hv. rewrite Ht in Hv.
  pose proof (next_rowid_above t Hv) as [_ Hlt]. destruct Hv as [Hs Hle].
  split.
  - clear Hle Hlt. induction Hs as [|i l Hs IH Hi]; constructor; [|done].
    intros Hin. rewrite Forall_forall in Hi. specialize (Hi i Hin). lia.
  - rewrite Forall_fmap in Hle, Hlt. rewrite Forall_forall in Hle, Hlt.
    apply Forall_forall. intros r Hr. specialize (Hle r Hr). specialize (Hlt r Hr).
    cbn in *. lia.
Qed.

Lemma rowids_stay_a_key_witness :
  keyed_conn (connect one_row_store None)
  ∧ keyed_conn (perform (tz := utc) (OpAppendBatch [sample_2022; sample_2023])
                  (connect one_row_store None)).
Proof.
  assert (keyed_conn (connect one_row_store None)) as H.
  { split; (split; cbn; repeat constructor; lia). }
  exact (conj H (proj1 (rowids_stay_a_key (tz := utc) (connect one_row_store None)
                          (OpAppendBatch [sample_2022; sample_2023]) None H))).
Defined.


Section OrderFacts.

#[local] Instance index_le_trans : Transitive index_le.
Proof. intros r1 r2 r3. unfold index_le. lia. Qed.

#[local] Instance index_le_connex : Total index_le.
Proof. intros r1 r2. unfold index_le. lia. Qed.

#[local] Instance sample_epoch_le_trans : Transitive sample_epoch_le.
Proof. intros s1 s2 s3. unfold sample_epoch_le. lia. Qed.

(** Rows with increasing rowids and ascending epochs are in index
    order. *)
Lemma index_sorted (l : list row) :
  StronglySorted Z.lt (id <$> l) →
  StronglySorted sample_epoch_le (sample_of_row <$> l) →
  StronglySorted index_le l.
Proof.
  induction l as [|r l IH]; [constructor|].
  rewrite !fmap_cons, !StronglySorted_cons. intros [Hi Hs] [He Hss].
  split; [|by apply IH].
  rewrite Forall_fmap, Forall_forall in Hi. rewrite Forall_fmap, Forall_forall in He.
  apply Forall_forall. intros r' Hr'. specialize (Hi r' Hr'). specialize (He r' Hr').
  unfold index_le, sample_epoch_le in *. cbn in *. lia.
Qed.

Lemma StronglySorted_filter {A} (R : relation A) (P : A → Prop)
    `{∀ x, Decision (P x)} (l : list A) :
  StronglySorted R l → StronglySorted R (filter P l).
Proof.
  induction 1 as [|x l Hs IH Hx]; [constructor|].
  rewrite filter_cons. case_decide; [|done]. constructor; [done|].
  rewrite Forall_forall in Hx. apply Forall_forall.
  intros y [_ Hy]%list_elem_of_filter. by apply Hx.
Qed.

(** Sorting rows that are in index order already, with distinct rowids,
    changes nothing. *)
Lemma merge_sort_index_sorted (l : list row) :
  StronglySorted Z.lt (id <$> l) →
  StronglySorted index_le l →
  merge_sort index_le l = l.
Proof.
  intros Hid Hl.
  apply (StronglySorted_unique_strong index_le).
  - intros r1 r2 H1 H2 H12 H21.
    rewrite merge_sort_Permutation in H1.
    assert (id r1 = id r2) as Hsame by (unfold index_le in *; lia).
    clear H12 H21. induction l as [|r l IH]; [by apply elem_of_nil in H1|].
    rewrite fmap_cons in Hid. apply StronglySorted_cons in Hid as [Hr Hid].
    apply StronglySorted_cons in Hl as [_ Hl].
    rewrite Forall_fmap, Forall_forall in Hr.
    apply elem_of_cons in H1 as [->|H1]; apply elem_of_cons in H2 as [->|H2].
    + done.
    + specialize (Hr r2 H2). cbn in Hr. lia.
    + specialize (Hr r1 H1). cbn in Hr. lia.
    + by apply IH.
  - apply StronglySorted_merge_sort; apply _.
  - done.
  - apply merge_sort_Permutation.
Qed.

Lemma window_rows_in_order cutoff t :
  keyed t →
  Sorted sample_epoch_le (sample_of_row <$> rows t) →
  window_rows cutoff t = filter (λ r, cutoff < timestamp_epoch r) (rows t).
Proof.
  intros [Hid _] Hs%Sorted_StronglySorted; [|apply _].
  pose proof (index_sorted _ Hid Hs) as Hidx.
  unfold window_rows. apply merge_sort_index_sorted.
  - clear -Hid. induction (rows t) as [|r l IH]; [done|].
    rewrite fmap_cons in Hid. apply StronglySorted_cons in Hid as [Hr Hid].
    rewrite filter_cons. case_decide; [|by apply IH].
    rewrite fmap_cons. apply StronglySorted_cons. split; [|by apply IH].
    by apply Forall_ids_filter.
  - by apply StronglySorted_filter.
Qed.

Lemma five_columns_fields r : five_columns r = five_fields (sample_of_row r).
Proof. done. Qed.

End OrderFacts.

(** X2: tuples written in ascending epoch order are read back in the order
    they were written.  When the insert loop writes storable tuples whose
    epochs never decrease to an empty table, the window query above any
    cutoff returns the five columns of exactly the written tuples whose
    epoch is above the cutoff, in the order of the list, and the arrays of
    the history document are these columns. *)
Theorem window_keeps_written_order
    (metrics : list sample) (batch_size cutoff sequence : Z) (index : bool) :
  0 < batch_size →
  Forall storable metrics →
  Sorted sample_epoch_le metrics →
  let kept := filter (λ s, cutoff < s_epoch s) metrics in
  ∃ c',
    insert_in_batches metrics batch_size (empty_store sequence index) = Ok tt c'
    ∧ select_window cutoff c' = Ok (five_fields <$> kept) c'
    ∧ history_document cutoff c'
      = Ok (document (JString ∘ s_timestamp <$> kept) (JNumber ∘ s_temp <$> kept)
                     (JNumber ∘ s_util <$> kept) (JNumber ∘ s_mem <$> kept)
                     (JNumber ∘ s_power <$> kept)) c'.
Proof.
  intros Hb Hs Hsorted kept.
  destruct (insert_in_batches_empty metrics batch_size
              (empty_store sequence index) (Table [] sequence index))
    as (c' & t' & Hi & Hv & Hrows); try done.
  assert (keyed t') as Hk.
  { pose proof (keeps_keyed_insert_in_batches metrics batch_size
                  (empty_store sequence index)) as H.
    rewrite Hi in H. cbn [state_of] in H.
    destruct H as [_ H]; [split; apply keyed_empty|].
    unfold keyed_db in H. by rewrite Hv in H. }
  assert (window_rows cutoff t' = filter (λ r, cutoff < timestamp_epoch r) (rows t'))
    as Hw by (apply window_rows_in_order; [done|by rewrite Hrows]).
  assert (sample_of_row <$> window_rows cutoff t' = kept) as Hkept.
  { rewrite Hw. subst kept. rewrite <-Hrows, filter_fmap. done. }
  exists c'. split; [done|]. split.
  - rewrite (select_window_spec cutoff c' t' Hv). f_equal.
    rewrite <-Hkept, <-list_fmap_compose. done.
  - rewrite history_document_spec, Hv. cbn [gpu_metrics]. cbv zeta. f_equal.
    rewrite <-Hkept, <-!list_fmap_compose. done.
Qed.

Lemma window_keeps_written_order_witness :
  0 < 2
  ∧ Forall storable [sample_1970; sample_2022; sample_2023]
  ∧ Sorted sample_epoch_le [sample_1970; sample_2022; sample_2023]
  ∧ ∃ c',
      insert_in_batches [sample_1970; sample_2022; sample_2023] 2 (empty_store 0 true)
      = Ok tt c'
      ∧ select_window 0 c' = Ok (five_fields <$> [sample_2022; sample_2023]) c'.
Proof.
  assert (0 < 2) as H1 by lia.
  assert (Forall storable [sample_1970; sample_2022; sample_2023]) as H3.
  { repeat constructor; discriminate. }
  assert (Sorted sample_epoch_le [sample_1970; sample_2022; sample_2023]) as H4.
  { repeat constructor; unfold sample_epoch_le; cbn; lia. }
  destruct (window_keeps_written_order
              [sample_1970; sample_2022; sample_2023] 2 0 0 true H1 H3 H4)
    as (c' & Hi & Hw & _).
  exact (conj H1 (conj H3 (conj H4 (ex_intro _ c' (conj Hi Hw))))).
Defined.


Section PopulateFacts.

(** [populate_database] after its first two statements. *)
Lemma populate_database_unfold metrics batch_size db t b :
  gpu_metrics db = Some t →
  populate_database metrics batch_size (connect db b)
  = insert_in_batches metrics batch_size
      (Conn (Database (Some (Table [] (sqlite_sequence t) (epoch_index t)))) None b).
Proof.
  intros Ht. unfold populate_database, execute_delete_all, mbind, M_bind, the_table.
  change (view (connect db b)) with db. by rewrite Ht.
Qed.


End PopulateFacts.




(** X4: a batch size that is not positive loses the data.  On a store
    that has the table, [populate_database] with batch size 0 raises
    ValueError and with a negative batch size returns; in both cases the
    rows that were in the table have been deleted, the deletion is
    committed, and none of the given tuples has been inserted. *)
Theorem populate_database_nonpositive_batch_size
    (metrics : list sample) (batch_size : Z) (db : database) (t : table)
    (b : option nat) :
  batch_size ≤ 0 →
  gpu_metrics db = Some t →
  let emptied :=
    Conn (Database (Some (Table [] (sqlite_sequence t) (epoch_index t)))) None b in
  populate_database metrics batch_size (connect db b)
  = if decide (batch_size = 0)
    then Raise (ValueError "range() arg 3 must not be zero") emptied
    else Ok tt emptied.
Proof.
  intros Hb Ht emptied. rewrite (populate_database_unfold metrics batch_size db t b Ht).
  unfold insert_in_batches, mbind, M_bind, py_range.
  repeat case_decide; try lia; done.
Qed.

Lemma populate_database_nonpositive_batch_size_witness :
  0 ≤ 0
  ∧ ∃ c', populate_database [sample_2022] 0 (connect one_row_store None)
          = Raise (ValueError "range() arg 3 must not be zero") c'
          ∧ count_records (connect (close c') None)
            = Ok 0 (connect (close c') None).
Proof.
  assert (0 ≤ 0) as H1 by lia. split; [exact H1|].
  pose proof (populate_database_nonpositive_batch_size [sample_2022] 0
                one_row_store _ None H1 eq_refl) as H.
  eexists. split; [exact H|]. reflexivity.
Defined.


Section ClockFacts.

Lemma quot_step a m : 0 < m → Z.quot a m < Z.quot (a + 2 * m) m.
Proof.
  intros Hm.
  pose proof (Z.quot_rem' a m) as H1. pose proof (Z.quot_rem' (a + 2 * m) m) as H2.
  pose proof (Z.rem_bound_abs a m ltac:(lia)) as B1.
  pose proof (Z.rem_bound_abs (a + 2 * m) m ltac:(lia)) as B2.
  nia.
Qed.

Lemma utc_mono a b : a ≤ b → @int_timestamp utc a ≤ @int_timestamp utc b.
Proof.
  intros H. unfold int_timestamp, utc, microseconds_per_second.
  apply Z.quot_le_mono; lia.
Qed.

(** On a machine that keeps UTC two seconds are slack enough. *)
Lemma utc_steady : steady (tz := utc) 2000000.
Proof.
  intros a b H.
  apply Z.lt_le_trans with (@int_timestamp utc (a + 2 * 1000000)).
  - unfold int_timestamp, utc, microseconds_per_second. by apply quot_step.
  - apply utc_mono. lia.
Qed.

Lemma utc_ascending lo hi : ascending (tz := utc) lo hi.
Proof. intros a b _ H _. by apply utc_mono. Qed.

End ClockFacts.

Section TrimExportFacts.

Context {tz : zone}.

Lemma length_filter_split {A} (P : A → Prop) `{∀ x, Decision (P x)} (l : list A) :
  length l = (length (filter P l) + length (filter (λ x, ¬ P x) l))%nat.
Proof. by rewrite <-length_app, filter_app_complement. Qed.


End TrimExportFacts.

(** X5: the counts [perform_trim_operation] prints.  On a store that has
    the table, the count before is the number of rows, the count after is
    the number of rows whose epoch is at least the cutoff, and the number
    of deleted records is the number of rows whose epoch is below the
    cutoff; it is never negative and never more than the count before, and
    a later count gives the count after.  Without the table the operation
    raises and changes nothing. *)
Theorem perform_trim_operation_counts {tz : zone} (c : connection) (now : Z) :
  match perform_trim_operation now c with
  | Ok (before_count, after_count, deleted_count) c' =>
      ∃ t, gpu_metrics (view c) = Some t
           ∧ before_count = Z.of_nat (length (rows t))
           ∧ after_count
             = Z.of_nat (length (filter (λ r, Trimming.cutoff_time now ≤ timestamp_epoch r)
                                        (rows t)))
           ∧ deleted_count
             = Z.of_nat (length (filter (λ r, timestamp_epoch r < Trimming.cutoff_time now)
                                        (rows t)))
           ∧ 0 ≤ deleted_count ≤ before_count
           ∧ count_records c' = Ok after_count c'
  | Raise _ c' => gpu_metrics (view c) = None ∧ c' = c
  end.
Proof.
  rewrite perform_trim_operation_spec.
  destruct (gpu_metrics (view c)) as [t|] eqn:Ht; [|done]. cbv zeta.
  set (cutoff := Trimming.cutoff_time now).
  assert (rows (trimmed cutoff t)
          = filter (λ r, cutoff ≤ timestamp_epoch r) (rows t)) as Hrows.
  { unfold trimmed; cbn. apply list_filter_iff. intros r. lia. }
  pose proof (length_filter_split (λ r, timestamp_epoch r < cutoff) (rows t)) as Hlen.
  cbv beta in Hlen.
  exists t. split; [done|]. split; [done|]. split; [by rewrite Hrows|].
  unfold trimmed; cbn [rows].
  set (deleted := length (filter (λ r, timestamp_epoch r < cutoff) (rows t))) in *.
  set (kept := length (filter (λ r, ¬ timestamp_epoch r < cutoff) (rows t))) in *.
  rewrite Hlen, Nat2Z.inj_add.
  split; [lia|]. split; [lia|].
  unfold count_records. by rewrite select_count_spec.
Qed.




Section ContainmentFacts.

(** [rstrip] keeps a first character that is not the stripped one. *)
Lemma rstrip_head ch c s :
  c ≠ ch → ∃ r, rstrip ch (String c s) = String c r.
Proof.
  intros Hc. cbn [rstrip]. destruct (rstrip ch s); [|by eexists].
  case_decide; [done|by eexists].
Qed.

Lemma strip_head ch s :
  match strip ch s with
  | String c _ => c ≠ ch
  | EmptyString => True
  end.
Proof.
  unfold strip. destruct (lstrip_spec ch s) as (n & _ & Hl).
  destruct (lstrip ch s) as [|c l]; [done|].
  destruct (rstrip_head ch c l Hl) as [r ->]. done.
Qed.

(** Without a [..] name the walk only goes down. *)
Lemma walk_down fs names : ∀ cur target,
  ".." ∉ names → walk fs cur names = Some target → cur `prefix_of` target.
Proof.
  induction names as [|name names IH]; intros cur target Hdd Hw; cbn in Hw.
  - by injection Hw as ->.
  - apply not_elem_of_cons in Hdd as [Hne Hdd].
    repeat case_decide; try done.
    + by apply IH.
    + etrans; [apply prefix_app_r; reflexivity|]. by apply IH.
Qed.

End ContainmentFacts.

(** X7: the only way out of the working directory is a [..] name.
    Whenever [handle_static] answers with a file, the served path is not
    empty, does not begin with a slash and does not end with one, so it is
    resolved from the working directory; and when none of its names is
    [..], the file it leads to lies in the working directory or below
    it. *)
Theorem handle_static_without_dotdot_stays_inside
    (fs : filesystem) (request : request) (file_path : string) :
  handle_static fs request = FileResponse file_path →
  file_path ≠ ""
  ∧ (∀ rest, file_path ≠ String "/" rest)
  ∧ (∀ front, file_path ≠ String.append front "/")
  ∧ ∃ target,
      resolve fs file_path = Some target
      ∧ (¬ has_dotdot file_path → inside (cwd fs) target).
Proof.
  unfold handle_static.
  set (stripped := strip "/" (path request)).
  pose proof (strip_head "/" (path request)) as Hhead. fold stripped in Hhead.
  pose proof (rstrip_last "/" (lstrip "/" (path request))) as Hlast.
  fold (strip "/" (path request)) in Hlast. fold stripped in Hlast.
  set (fp := if decide (stripped = "") then "gpu-stats.html" else stripped).
  assert (fp ≠ "" ∧ (∀ rest, fp ≠ String "/" rest)
          ∧ (∀ front, fp ≠ String.append front "/")) as (Hne & Hs & He).
  { subst fp. case_decide as Hd.
    - split; [done|]. split; [done|]. intros front.
      exact (rstrip_last "/" "gpu-stats.html" front).
    - split; [done|]. split; [|done]. intros rest Hr. rewrite Hr in Hhead. done. }
  destruct (os_path_exists fs fp) eqn:Hex; [|done].
  intros [= <-]. split; [done|]. split; [done|]. split; [done|].
  unfold os_path_exists in Hex. apply bool_decide_eq_true in Hex as [target Ht].
  exists target. split; [done|]. intros Hdd. unfold resolve in Ht.
  destruct fp as [|c rest] eqn:Hfp; [done|].
  destruct (decide (c = "/"%char)) as [->|Hc]; [by destruct (Hs rest)|].
  assert (walk fs (cwd fs) (split_on "/" (String c rest)) = Some target) as Hw.
  { destruct c as [[] [] [] [] [] [] [] []]; try done. }
  eapply walk_down; [|exact Hw]. exact Hdd.
Qed.

Lemma handle_static_without_dotdot_stays_inside_witness :
  handle_static example_fs (Request "//") = FileResponse "gpu-stats.html"
  ∧ ∃ target,
      resolve example_fs "gpu-stats.html" = Some target
      ∧ inside (cwd example_fs) target.
Proof.
  assert (handle_static example_fs (Request "//") = FileResponse "gpu-stats.html")
    as H by reflexivity.
  split; [exact H|].
  destruct (handle_static_without_dotdot_stays_inside example_fs (Request "//")
              "gpu-stats.html" H) as (_ & _ & _ & target & Hr & Hin).
  exists target. split; [exact Hr|]. apply Hin.
  unfold has_dotdot. cbn. intros Hdd%list_elem_of_singleton. discriminate Hdd.
Defined.


Section LoopFacts.

Context {tz : zone}.

Lemma iterations_done start_time end_time interval :
  0 < interval → end_time ≤ start_time →
  iterations start_time end_time interval = 0%nat.
Proof.
  intros Hi He. unfold iterations.
  assert ((end_time - start_time + interval - 1) `div` interval < 1); [|lia].
  apply Z.div_lt_upper_bound; lia.
Qed.

Lemma iterations_step start_time end_time interval :
  0 < interval → start_time < end_time →
  iterations start_time end_time interval
  = S (iterations (start_time + interval) end_time interval).
Proof.
  intros Hi He. unfold iterations.
  replace (end_time - start_time + interval - 1)
    with (end_time - (start_time + interval) + interval - 1 + 1 * interval) by lia.
  rewrite Z.div_add by lia.
  assert (0 ≤ (end_time - (start_time + interval) + interval - 1) `div` interval).
  { apply Z.div_pos; lia. }
  lia.
Qed.

Lemma iterations_antitone start1 start2 end_time interval :
  0 < interval → start1 ≤ start2 →
  (iterations start2 end_time interval ≤ iterations start1 end_time interval)%nat.
Proof.
  intros Hi Hs. unfold iterations.
  assert ((end_time - start2 + interval - 1) `div` interval
          ≤ (end_time - start1 + interval - 1) `div` interval); [|lia].
  apply Z.div_le_mono; lia.
Qed.

(** With a positive step and enough fuel the main loop returns one tuple
    per time below the end. *)
Lemma metrics_loop_returns tuple end_time interval :
  0 < interval →
  ∀ fuel k current_time metrics,
    (iterations current_time end_time interval < fuel)%nat →
    metrics_loop fuel tuple k current_time end_time interval metrics
    = Some (metrics
            ++ ((λ j : nat, tuple (k + j)%nat (current_time + Z.of_nat j * interval))
                  <$> seq 0 (iterations current_time end_time interval))).
Proof.
  intros Hi. induction fuel as [|fuel IH]; intros k cur acc Hf; [lia|].
  cbn [metrics_loop]. case_decide as Hc.
  - rewrite (iterations_step cur end_time interval Hi Hc) in *.
    rewrite IH by lia. f_equal. rewrite <-(assoc_L (++)). f_equal.
    cbn [seq fmap list_fmap]. rewrite <-fmap_S_seq, <-list_fmap_compose.
    cbn. f_equal.
    + f_equal; [f_equal; lia|lia].
    + apply list_fmap_ext. intros _ j _. cbn. f_equal; lia.
  - rewrite iterations_done by lia. cbn. by rewrite app_nil_r.
Qed.

(** With a step that is not positive the main loop never leaves a time
    below the end. *)
Lemma metrics_loop_diverges tuple end_time interval :
  interval ≤ 0 →
  ∀ fuel k current_time metrics,
    current_time < end_time →
    metrics_loop fuel tuple k current_time end_time interval metrics = None.
Proof.
  intros Hi. induction fuel as [|fuel IH]; intros k cur acc Hc; [done|].
  cbn [metrics_loop]. rewrite decide_True by done. apply IH. lia.
Qed.

(** The session loop returns with enough fuel: every round moves on by an
    hour and a half at least. *)
Lemma gaming_sessions_loop_returns rnd end_time :
  randint_ranges rnd →
  ∀ fuel k current_session gaming_sessions,
    (iterations current_session end_time (timedelta 0 0 90) < fuel)%nat →
    is_Some (gaming_sessions_loop fuel rnd k current_session end_time gaming_sessions).
Proof.
  intros Hr. induction fuel as [|fuel IH]; intros k cur acc Hf; [lia|].
  cbn [gaming_sessions_loop]. case_decide as Hc; [|done].
  apply IH. destruct (Hr k) as [Hs Hp].
  rewrite (iterations_step cur end_time (timedelta 0 0 90)) in Hf
    by (done || unfold timedelta, microseconds_per_second; lia).
  pose proof (iterations_antitone (cur + timedelta 0 0 90)
                (cur + (timedelta 0 0 (session_minutes rnd k)
                        + timedelta 0 0 (pause_minutes rnd k)))
                end_time (timedelta 0 0 90)) as Ha.
  unfold timedelta, microseconds_per_second in *. lia.
Qed.

(** More fuel does not change a result. *)
Lemma gaming_sessions_loop_fuel rnd end_time :
  ∀ fuel fuel' k current_session gaming_sessions sessions,
    (fuel ≤ fuel')%nat →
    gaming_sessions_loop fuel rnd k current_session end_time gaming_sessions
    = Some sessions →
    gaming_sessions_loop fuel' rnd k current_session end_time gaming_sessions
    = Some sessions.
Proof.
  induction fuel as [|fuel IH]; intros fuel' k cur acc sessions Hf H; [done|].
  destruct fuel' as [|fuel']; [lia|]. cbn [gaming_sessions_loop] in *.
  case_decide; [|done]. apply IH; [lia|done].
Qed.

Lemma Sorted_fmap_seq {A} (R : relation A) (f : nat → A) (n a : nat) :
  (∀ j, R (f j) (f (S j))) → Sorted R (f <$> seq a n).
Proof.
  intros Hf. revert a. induction n as [|n IH]; intros a; [constructor|].
  cbn. constructor; [apply IH|]. destruct n; cbn; constructor. apply Hf.
Qed.

Lemma tuple_of_sanitized rnd sessions k t : sanitized (tuple_of rnd sessions k t).
Proof.
  unfold tuple_of. destruct (generated rnd k _) as [[[temp util] mem] power].
  rewrite generate_one_sanitize. by eexists _, _, _.
Qed.


Lemma tuple_of_epoch rnd sessions k t :
  s_epoch (tuple_of rnd sessions k t) = int_timestamp t
  ∧ s_timestamp (tuple_of rnd sessions k t) = strftime rnd t.
Proof.
  unfold tuple_of. by destruct (generated rnd k _) as [[[temp util] mem] power].
Qed.


End LoopFacts.


Section RunFacts.

Context {tz : zone}.

Lemma iterations_lt start_time end_time interval (k : nat) :
  0 < interval →
  (k < iterations start_time end_time interval)%nat
  ↔ start_time + Z.of_nat k * interval < end_time.
Proof.
  intros Hi. unfold iterations.
  set (a := end_time - start_time + interval - 1).
  pose proof (Z.div_mod a interval ltac:(lia)) as Hdm.
  pose proof (Z.mod_pos_bound a interval Hi) as Hmod.
  split; intros H.
  - assert (Z.of_nat k + 1 ≤ a `div` interval) as Hk by lia. nia.
  - assert (Z.of_nat k + 1 ≤ a `div` interval); [|lia].
    apply Z.div_le_lower_bound; [done|]. subst a. nia.
Qed.

Lemma run_of_well_generated tuple render start_time end_time interval :
  0 < interval →
  (∀ k t, s_epoch (tuple k t) = int_timestamp t
          ∧ s_timestamp (tuple k t) = render t) →
  (∀ k t, sanitized (tuple k t)) →
  well_generated render start_time end_time interval
    (run_of tuple start_time end_time interval).
Proof.
  intros Hi Hep Hsan. unfold well_generated, run_of.
  split; [by rewrite length_fmap, length_seq|]. split.
  - intros k s Hs. rewrite list_lookup_fmap in Hs.
    destruct (seq 0 _ !! k) as [j|] eqn:Hj; [|done].
    apply lookup_seq in Hj as [-> Hk]. cbn in Hs. injection Hs as <-.
    cbn. split; [split; [|by apply iterations_lt]|].
    { assert (0 ≤ Z.of_nat k * interval) by (apply Z.mul_nonneg_nonneg; lia). lia. }
    destruct (Hep k (start_time + Z.of_nat k * interval)).
    by repeat split.
  - apply Forall_fmap, Forall_forall. intros j _. by apply sanitized_storable.
Qed.

Lemma Sorted_fmap_seq_below {A} (R : relation A) (f : nat → A) (n a : nat) :
  (∀ j, (a ≤ j)%nat → (S j < a + n)%nat → R (f j) (f (S j))) →
  Sorted R (f <$> seq a n).
Proof.
  revert a. induction n as [|n IH]; intros a Hf; [constructor|].
  cbn. constructor.
  - apply IH. intros j H1 H2. apply Hf; lia.
  - destruct n; cbn; constructor. apply Hf; lia.
Qed.

(** Where the epochs of the zone do not go back over the span, the list
    is in ascending epoch order. *)
Lemma run_of_sorted tuple start_time end_time interval :
  0 < interval →
  (∀ k t, s_epoch (tuple k t) = int_timestamp t) →
  ascending start_time end_time →
  Sorted sample_epoch_le (run_of tuple start_time end_time interval).
Proof.
  intros Hi Hep Hasc. unfold run_of. apply Sorted_fmap_seq_below.
  intros j _ Hj. unfold sample_epoch_le. rewrite !Hep.
  assert (0 ≤ Z.of_nat j * interval) by (apply Z.mul_nonneg_nonneg; lia).
  apply Hasc; [lia|lia|]. apply iterations_lt; [done|lia].
Qed.


End RunFacts.



(** X9: with an interval that is not positive and an end after the start,
    neither generator ever returns: whatever the fuel, the loop is still
    running. *)
Theorem generate_metrics_never_returns {tz : zone}
    (rnd : randomness) (rnd3 : randomness_3d) (start_time end_time interval : Z)
    (fuel : nat) :
  interval ≤ 0 →
  start_time < end_time →
  generate_metrics fuel rnd start_time end_time interval = None
  ∧ generate_metrics_3d fuel rnd3 start_time end_time interval = None.
Proof.
  intros Hi Hs. unfold generate_metrics, generate_metrics_3d. split.
  - destruct (gaming_sessions_loop fuel rnd 0 start_time end_time []); [|done].
    cbn. by apply metrics_loop_diverges.
  - by apply metrics_loop_diverges.
Qed.

Lemma generate_metrics_never_returns_witness :
  0 ≤ 0 ∧ 0 < 10000000
  ∧ generate_metrics (tz := utc) 1000 example_randomness 0 10000000 0 = None
  ∧ generate_metrics_3d (tz := utc) 1000 example_randomness_3d 0 10000000 0 = None.
Proof.
  assert (0 ≤ 0) as H1 by lia. assert (0 < 10000000) as H2 by lia.
  exact (conj H1 (conj H2
           (generate_metrics_never_returns (tz := utc) example_randomness
              example_randomness_3d 0 10000000 0 1000 H1 H2))).
Defined.


Section MainFacts.

Context {tz : zone}.

(** The fuel from which on [generate_metrics] returns, and the list. *)
Lemma generate_metrics_run rnd start_time end_time interval :
  0 < interval →
  randint_ranges rnd →
  ∃ fuel0 sessions,
    ∀ fuel, (fuel0 ≤ fuel)%nat →
      generate_metrics fuel rnd start_time end_time interval
      = Some (run_of (tuple_of rnd sessions) start_time end_time interval).
Proof.
  intros Hi Hr.
  set (f1 := S (iterations start_time end_time (timedelta 0 0 90))).
  set (f2 := S (iterations start_time end_time interval)).
  destruct (gaming_sessions_loop_returns rnd end_time Hr f1 0 start_time [])
    as [sessions Hs]; [subst f1; lia|].
  exists (f1 `max` f2)%nat, sessions. intros fuel Hf. unfold generate_metrics.
  rewrite (gaming_sessions_loop_fuel rnd end_time f1 fuel 0 start_time [] sessions)
    by (lia || done).
  cbn [mbind option_bind]. by rewrite metrics_loop_returns by (done || lia).
Qed.



Lemma document_of_rows (rs : list row) :
  document (JString ∘ timestamp <$> rs) (JNumber ∘ temperature <$> rs)
           (JNumber ∘ utilization <$> rs) (JNumber ∘ memory <$> rs)
           (JNumber ∘ power <$> rs)
  = document_of_samples (sample_of_row <$> rs).
Proof. unfold document_of_samples. by rewrite <-!list_fmap_compose. Qed.

(** The rows the window selects, as tuples: the written tuples above the
    cutoff, in ascending epoch order; in the order they were written when
    that order is ascending. *)
Lemma exported_tuples cutoff t :
  keyed t →
  let exported := sample_of_row <$> window_rows cutoff t in
  exported ≡ₚ filter (λ s, cutoff < s_epoch s) (sample_of_row <$> rows t)
  ∧ Sorted sample_epoch_le exported
  ∧ (Sorted sample_epoch_le (sample_of_row <$> rows t) →
     exported = filter (λ s, cutoff < s_epoch s) (sample_of_row <$> rows t)).
Proof.
  intros Hk. cbv zeta. rewrite filter_fmap. split; [|split].
  - apply fmap_Permutation, window_rows_perm.
  - pose proof (window_rows_sorted cutoff t) as Hs.
    induction Hs as [|r l _ IH Hhd]; [constructor|].
    rewrite fmap_cons. constructor; [done|].
    destruct Hhd; constructor. done.
  - intros Hs. by rewrite window_rows_in_order.
Qed.

(** [populate_database] on the store the schema step leaves, and every
    export after it. *)
Lemma populate_then_export metrics batch_size db :
  0 < batch_size →
  Forall storable metrics →
  ∃ c' t',
    durable c' = Database (Some t')
    ∧ sample_of_row <$> rows t' = metrics
    ∧ epoch_index t' = true
    ∧ keyed t'
    ∧ ∀ cutoff written,
        (populate_database metrics batch_size;;
         history_document cutoff ≫= write_json written)
          (connect (Database (Some (with_schema db))) None)
        = if written
          then Ok (document_of_samples (sample_of_row <$> window_rows cutoff t')) c'
          else Raise (OSError "history.json") c'.
Proof.
  intros Hb Hs.
  set (t0 := with_schema db).
  set (c1 := Conn (Database (Some (Table [] (sqlite_sequence t0) (epoch_index t0))))
               None None).
  pose proof (insert_in_batches_spec metrics batch_size c1 _ Hb eq_refl eq_refl)
    as Hspec.
  pose proof (keeps_keyed_insert_in_batches metrics batch_size c1) as Hkeep.
  destruct (insert_in_batches metrics batch_size c1) as [[] c'|e c'] eqn:Hins;
    [|by destruct Hspec as [_ [?|?]]].
  destruct Hspec as (Hc' & (t' & Hd' & (new & Hn & Hf & Hidx)) & _).
  cbn in Hn, Hidx. cbn [state_of] in Hkeep.
  assert (view c' = Database (Some t')) as Hv by (by rewrite view_committed).
  assert (keyed t') as Hk.
  { destruct Hkeep as [_ H].
    - split; apply keyed_empty.
    - unfold keyed_db in H. by rewrite Hv in H. }
  exists c', t'. split; [done|]. split; [by rewrite Hn|].
  split; [rewrite Hidx; subst t0; unfold with_schema; by destruct (gpu_metrics db)|].
  split; [done|]. intros cutoff written.
  unfold mbind at 1, M_bind.
  rewrite (populate_database_unfold metrics batch_size (Database (Some t0)) t0 None
             eq_refl).
  fold c1. rewrite Hins, export_spec, Hv. cbn [gpu_metrics]. cbv zeta.
  by rewrite document_of_rows.
Qed.

End MainFacts.

(** X10: a run of [db_load_test.main] from start to end, in any time zone.
    With a positive interval, a positive batch size, a span inside the
    range of [datetime] and epochs that fit in 64 bits, on a database file
    of the scripts (one that is new, or whose table [gpu_metrics] has the
    columns the script declares), whatever rows it holds, there is an
    amount of fuel from which on [main] ends in one fixed way.  The file it
    leaves holds the table with its index and exactly the generated
    tuples, in generation order.  If the document can be written, [main]
    returns it: it lists the generated tuples whose epoch is above the
    cutoff of the export, in ascending epoch order; that is the generation
    order where the epochs of the zone do not go back over the span.  If
    it cannot be written, [main] raises and the tuples stay in the
    file. *)
Theorem load_test_main_populates_and_exports {tz : zone}
    (rnd : randomness) (db : database)
    (now now_export span interval batch_size : Z) (written : bool) :
  0 < interval →
  0 < batch_size →
  randint_ranges rnd →
  in_datetime_range (now - span) now interval →
  (∀ t, now - span ≤ t < now → int64 (int_timestamp t)) →
  ∃ fuel0 metrics c' t',
    well_generated (strftime rnd) (now - span) now interval metrics
    ∧ Forall (λ s, int64 (s_epoch s)) metrics
    ∧ sample_of_row <$> rows t' = metrics
    ∧ epoch_index t' = true
    ∧ let exported :=
        sample_of_row <$> window_rows (LoadTest.cutoff_time now_export) t' in
      (∀ fuel, (fuel0 ≤ fuel)%nat →
         GenerateMetrics.main fuel rnd db now now_export span interval batch_size
           written
         = Some (if written then Ok (document_of_samples exported) c'
                 else Raise (OSError "history.json") c',
                 Database (Some t')))
      ∧ exported ≡ₚ filter (λ s, LoadTest.cutoff_time now_export < s_epoch s) metrics
      ∧ Sorted sample_epoch_le exported
      ∧ (ascending (now - span) now →
         exported = filter (λ s, LoadTest.cutoff_time now_export < s_epoch s) metrics).
Proof.
  intros Hi Hb Hr Hrange Hfit.
  destruct (generate_metrics_run rnd (now - span) now interval Hi Hr)
    as (fuel0 & sessions & Hgen).
  set (metrics := run_of (tuple_of rnd sessions) (now - span) now interval) in *.
  assert (well_generated (strftime rnd) (now - span) now interval metrics) as Hwg.
  { apply run_of_well_generated;
      [done|apply tuple_of_epoch|apply tuple_of_sanitized]. }
  pose proof Hwg as (Hlen & Hlook & Hstor).
  destruct (populate_then_export metrics batch_size db Hb Hstor)
    as (c' & t' & Hd' & Hrows & Hidx & Hk & Hrun).
  destruct (exported_tuples (LoadTest.cutoff_time now_export) t' Hk)
    as (Hperm & Hsorted & Horder).
  rewrite Hrows in Hperm, Horder.
  exists fuel0, metrics, c', t'. split; [done|]. split.
  { apply Forall_lookup. intros k s Hs. destruct (Hlook k s Hs) as (Ht & -> & _).
    by apply Hfit. }
  split; [done|]. split; [done|]. cbv zeta.
  split; [|split; [done|split; [done|]]].
  - intros fuel Hf. unfold GenerateMetrics.main.
    rewrite create_db_schema_spec.
    change (Conn (Database (Some (with_schema (view (connect db None))))) None
              (budget (connect db None)))
      with (connect (Database (Some (with_schema db))) None).
    rewrite (Hgen fuel Hf). cbn [mbind option_bind].
    unfold create_history_json. rewrite Hrun.
    destruct written; cbn [state_of]; unfold close; by rewrite Hd'.
  - intros Hasc. apply Horder, run_of_sorted; [done| |done].
    intros k t. apply tuple_of_epoch.
Qed.

Lemma load_test_main_populates_and_exports_witness :
  0 < 4000000 ∧ 0 < 2 ∧ randint_ranges example_randomness
  ∧ in_datetime_range (10000000 - 10000000) 10000000 4000000
  ∧ (∀ t, 10000000 - 10000000 ≤ t < 10000000 → int64 (@int_timestamp utc t))
  ∧ ∃ fuel0 metrics c' t',
      well_generated (tz := utc) (strftime example_randomness) (10000000 - 10000000)
        10000000 4000000 metrics
      ∧ sample_of_row <$> rows t' = metrics
      ∧ ∀ fuel, (fuel0 ≤ fuel)%nat →
          GenerateMetrics.main (tz := utc) fuel example_randomness one_row_store
            10000000 10000000 10000000 4000000 2 true
          = Some (Ok (document_of_samples
                        (filter (λ s, LoadTest.cutoff_time (tz := utc) 10000000
                                      < s_epoch s) metrics)) c',
                  Database (Some t')).
Proof.
  assert (0 < 4000000) as H1 by lia. assert (0 < 2) as H2 by lia.
  assert (randint_ranges example_randomness) as H3.
  { intros k. cbn. lia. }
  assert (in_datetime_range (10000000 - 10000000) 10000000 4000000) as H4.
  { unfold in_datetime_range. vm_compute. repeat split; discriminate. }
  assert (∀ t, 10000000 - 10000000 ≤ t < 10000000 → int64 (@int_timestamp utc t))
    as H5.
  { intros t Ht. unfold int64, int_timestamp, utc, microseconds_per_second.
    rewrite Z.quot_div_nonneg by lia.
    assert (0 ≤ t `div` 1000000 < 10) by (split; [apply Z.div_pos|apply Z.div_lt_upper_bound]; lia).
    lia. }
  split; [exact H1|]. split; [exact H2|]. split; [exact H3|]. split; [exact H4|].
  split; [exact H5|].
  destruct (load_test_main_populates_and_exports (tz := utc) example_randomness
              one_row_store 10000000 10000000 10000000 4000000 2 true H1 H2 H3 H4 H5)
    as (fuel0 & metrics & c' & t' & Hw & _ & Hrows & _ & Hrun & _ & _ & Horder).
  exists fuel0, metrics, c', t'. split; [exact Hw|]. split; [exact Hrows|].
  intros fuel Hf. rewrite (Hrun fuel Hf), (Horder (utc_ascending _ _)). reflexivity.
Defined.




Section TrimmingTestFacts.

Context {tz : zone}.

Import TrimmingTest.

Lemma old_record_storable strftime i t : storable (old_record strftime i t).
Proof. by unfold storable, old_record, of_int. Qed.

Lemma old_record_epoch strftime i t :
  s_epoch (old_record strftime i t) = int_timestamp t.
Proof. done. Qed.

(** One append on a committed table with an engine that does not fail. *)
Lemma append_batch_returns batch c t :
  txn c = None → durable c = Database (Some t) → budget c = None →
  Forall storable batch →
  ∃ c' t', append_batch batch c = Ok tt c'
           ∧ txn c' = None ∧ durable c' = Database (Some t') ∧ budget c' = None
           ∧ appended t batch t'.
Proof.
  intros Hc Hd Hb Hs. pose proof (append_batch_spec batch c Hc) as H.
  destruct (append_batch batch c) as [[] c'|e c'].
  - destruct H as (Hc' & (t0 & t' & Hd0 & Hd' & Ha) & Hb' & _).
    rewrite Hd in Hd0. injection Hd0 as <-. rewrite Hb in Hb'.
    by exists c', t'.
  - destruct H as (_ & [H|[H|(b & H & _)]]).
    + by rewrite Hd in H.
    + done.
    + by rewrite Hb in H.
Qed.

(** The loop from index [a] on, with [m] indices left. *)
Lemma add_old_records_loop_spec strftime num_records interval :
  ∀ (m a : nat) current_time records c t,
    Z.of_nat (a + m) = num_records →
    txn c = None → durable c = Database (Some t) → budget c = None →
    Forall storable records →
    (m = 0%nat → records = []) →
    ∃ c' t',
      add_old_records_loop strftime num_records interval
        (Z.of_nat <$> seq a m) current_time records c = Ok tt c'
      ∧ txn c' = None ∧ durable c' = Database (Some t') ∧ budget c' = None
      ∧ appended t
          (records ++
             ((λ j : nat, old_record strftime (Z.of_nat j)
                            (current_time + (Z.of_nat j - Z.of_nat a) * interval))
                <$> seq a m)) t'.
Proof.
  induction m as [|m IH]; intros a current_time records c t Hn Hc Hd Hb Hs Hrec.
  - rewrite (Hrec eq_refl). exists c, t. cbn. split; [done|].
    split; [done|]. split; [done|]. split; [done|]. apply appended_refl.
  - cbn [seq fmap list_fmap add_old_records_loop]. cbv zeta.
    set (r := old_record strftime (Z.of_nat a) current_time).
    assert (Forall storable (records ++ [r])) as Hs'.
    { apply Forall_app. split; [done|]. apply Forall_singleton.
      apply old_record_storable. }
    assert (∀ l : list sample,
              l ++ ((λ j : nat, old_record strftime (Z.of_nat j)
                       (current_time + interval
                        + (Z.of_nat j - Z.of_nat (S a)) * interval)) <$> seq (S a) m)
              = l ++ ((λ j : nat, old_record strftime (Z.of_nat j)
                         (current_time + (Z.of_nat j - Z.of_nat a) * interval))
                        <$> seq (S a) m)) as Htail.
    { intros l. f_equal. apply list_fmap_ext. intros _ j _. f_equal. lia. }
    assert (old_record strftime (Z.of_nat a)
              (current_time + (Z.of_nat a - Z.of_nat a) * interval) = r) as Hhead.
    { subst r. f_equal. lia. }
    case_decide as Hflush.
    + destruct (append_batch_returns (records ++ [r]) c t Hc Hd Hb Hs')
        as (c1 & t1 & Hrun & Hc1 & Hd1 & Hb1 & Ha1).
      unfold mbind, M_bind. rewrite Hrun.
      destruct (IH (S a) (current_time + interval) [] c1 t1) as
        (c' & t' & Hloop & Hc' & Hd' & Hb' & Ha'); [lia|done..|].
      exists c', t'. split; [done|]. split; [done|]. split; [done|].
      split; [done|]. rewrite (Htail []) in Ha'. cbn [app] in Ha'.
      rewrite Hhead, cons_middle, app_assoc. by apply appended_trans with t1.
    + destruct (IH (S a) (current_time + interval) (records ++ [r]) c t) as
        (c' & t' & Hloop & Hc' & Hd' & Hb' & Ha'); [lia|done..| |].
      { intros ->. destruct Hflush. right. lia. }
      exists c', t'. split; [done|]. split; [done|]. split; [done|].
      split; [done|]. rewrite Htail, <-app_assoc in Ha'. cbn [app] in Ha'.
      by rewrite Hhead.
Qed.

(** Every tuple [add_old_records] makes is older than the cutoff of a
    trim that is not earlier. *)
Lemma old_records_below_cutoff strftime interval now now_trim slack (n : nat) :
  (0 < n)%nat →
  interval_of (Z.of_nat n) interval →
  steady slack →
  Z.of_nat n + slack ≤ timedelta 0 23 50 →
  now ≤ now_trim →
  Forall (λ s, s_epoch s < cutoff_time now_trim) (old_records strftime interval now n).
Proof.
  intros Hn Hi Hsteady Hsmall Hnow. unfold old_records. apply Forall_fmap, Forall_seq.
  intros j [_ Hj]. cbn [compose]. rewrite old_record_epoch.
  unfold Trimming.cutoff_time. apply Hsteady.
  unfold interval_of, timedelta, microseconds_per_second in *. nia.
Qed.

Lemma filter_none {A} (P : A → Prop) `{∀ x, Decision (P x)} (l : list A) :
  Forall (λ x, ¬ P x) l → filter P l = [].
Proof.
  induction 1 as [|x l Hx _ IH]; [done|]. by rewrite filter_cons_False.
Qed.

(** Without the table the first flush raises, and there is one when an
    index is left. *)
Lemma add_old_records_loop_no_table strftime num_records interval :
  ∀ (m a : nat) current_time records c,
    Z.of_nat (a + m) = num_records →
    (0 < m)%nat →
    txn c = None → gpu_metrics (durable c) = None →
    ∃ c',
      add_old_records_loop strftime num_records interval
        (Z.of_nat <$> seq a m) current_time records c = Raise no_such_table c'
      ∧ durable c' = durable c.
Proof.
  induction m as [|m IH]; intros a current_time records c Hn Hm Hc Hd; [lia|].
  cbn [seq fmap list_fmap add_old_records_loop]. cbv zeta.
  case_decide as Hflush.
  - exists (Conn (durable c) (Some (durable c)) (budget c)). split; [|done].
    unfold mbind, M_bind, append_batch, executemany_insert, mbind, M_bind,
      execute_begin, the_table.
    rewrite Hc. unfold view. cbn [txn durable default from_option].
    change (Datatypes.id (durable c)) with (durable c). by rewrite Hd.
  - apply IH; [lia| |done..].
    destruct m; [|lia]. destruct Hflush. right. lia.
Qed.

(** A call with a positive [num_records] on an existing table. *)
Lemma add_old_records_returns strftime interval now num_records c t :
  txn c = None → budget c = None →
  0 < num_records →
  durable c = Database (Some t) →
  ∃ c' t',
    add_old_records strftime interval now num_records c = Returns tt c'
    ∧ txn c' = None
    ∧ durable c' = Database (Some t')
    ∧ budget c' = None
    ∧ appended t (old_records strftime interval now (Z.to_nat num_records)) t'
    ∧ length (rows t') = (length (rows t) + Z.to_nat num_records)%nat
    ∧ ∀ now_trim slack,
        interval_of num_records interval →
        steady slack →
        num_records + slack ≤ timedelta 0 23 50 →
        now ≤ now_trim →
        rows (trimmed (Trimming.cutoff_time now_trim) t')
        = rows (trimmed (Trimming.cutoff_time now_trim) t).
Proof.
  intros Hc Hb Hn Hd. unfold add_old_records.
  rewrite decide_False by lia.
  destruct (add_old_records_loop_spec strftime num_records interval
              (Z.to_nat num_records) 0
              (now - timedelta 2 0 0 - timedelta 7 0 0) [] c t)
    as (c' & t' & Hrun & Hc' & Hd' & Hb' & Ha); [lia|done..|lia|].
  unfold range_upto. rewrite Hrun. cbn [of_outcome app] in *.
  assert (appended t (old_records strftime interval now (Z.to_nat num_records)) t')
    as Ha'.
  { unfold old_records.
    erewrite list_fmap_ext; [exact Ha|]. intros _ j _. cbn. f_equal. lia. }
  exists c', t'. split; [done|]. split; [done|]. split; [done|]. split; [done|].
  split; [done|].
  destruct Ha' as (new & Hrows & Hnew & Hidx). split.
  - rewrite Hrows, length_app. f_equal.
    replace (length new)
      with (length (old_records strftime interval now (Z.to_nat num_records)))
      by (by rewrite <-Hnew, length_fmap).
    unfold old_records. by rewrite length_fmap, length_seq.
  - intros now_trim slack Hi Hsteady Hsmall Hnow. unfold trimmed. cbn [rows].
    rewrite Hrows, filter_app.
    rewrite (filter_none _ new); [by rewrite app_nil_r|].
    pose proof (old_records_below_cutoff strftime interval now now_trim slack
                  (Z.to_nat num_records)) as Hold.
    rewrite Z2Nat.id in Hold by lia.
    specialize (Hold ltac:(lia) Hi Hsteady Hsmall Hnow).
    rewrite <-Hnew in Hold. apply Forall_fmap in Hold.
    eapply Forall_impl; [exact Hold|]. intros r Hr. cbn in Hr. tauto.
Qed.

End TrimmingTestFacts.

(** X11: what [add_old_records] adds.  On a connection outside a
    transaction, with an engine that does not fail: for a positive
    [num_records] and an existing table the call returns and has committed
    exactly [num_records] new rows after the old ones (the count goes up by
    [num_records]), whatever [num_records] is compared with the batch size
    of 10000; when [interval] is within a microsecond of seven days over
    [num_records] and [num_records], with the slack of the time zone (two
    seconds on a machine that keeps UTC), is small against the 23 hours 50
    minutes between the newest record and the cutoff, every added row is
    older than the cutoff of a trim that runs at the same time or later.
    For [num_records = 0] the call raises [ZeroDivisionError] before any
    statement, for a negative one it returns without adding anything, and
    without the table a positive one raises and commits nothing. *)
Theorem add_old_records_adds_num_records {tz : zone}
    (strftime : Z → string) (interval now now_trim num_records slack : Z)
    (c : connection) :
  txn c = None →
  budget c = None →
  (0 < num_records →
   ∀ t, durable c = Database (Some t) →
     ∃ c' t',
       TrimmingTest.add_old_records strftime interval now num_records c
       = TrimmingTest.Returns tt c'
       ∧ txn c' = None
       ∧ durable c' = Database (Some t')
       ∧ appended t
           (TrimmingTest.old_records strftime interval now (Z.to_nat num_records)) t'
       ∧ count_records c' = Ok (Z.of_nat (length (rows t)) + num_records) c'
       ∧ (TrimmingTest.interval_of num_records interval →
          steady slack →
          num_records + slack ≤ timedelta 0 23 50 →
          now ≤ now_trim →
          rows (trimmed (Trimming.cutoff_time now_trim) t')
          = rows (trimmed (Trimming.cutoff_time now_trim) t)))
  ∧ (num_records = 0 →
     TrimmingTest.add_old_records strftime interval now num_records c
     = TrimmingTest.Raises TrimmingTest.ZeroDivisionError c)
  ∧ (num_records < 0 →
     TrimmingTest.add_old_records strftime interval now num_records c
     = TrimmingTest.Returns tt c)
  ∧ (0 < num_records → gpu_metrics (durable c) = None →
     ∃ c',
       TrimmingTest.add_old_records strftime interval now num_records c
       = TrimmingTest.Raises (TrimmingTest.DatabaseError no_such_table) c'
       ∧ close c' = close c).
Proof.
  intros Hc Hb. split; [|split; [|split]].
  - intros Hn t Hd.
    destruct (add_old_records_returns strftime interval now num_records c t
                Hc Hb Hn Hd)
      as (c' & t' & Hrun & Hc' & Hd' & _ & Ha & Hlen & Htrim).
    exists c', t'. split; [done|]. split; [done|]. split; [done|]. split; [done|].
    split; [|apply Htrim].
    unfold count_records. rewrite select_count_spec, (view_committed c' Hc'), Hd'.
    cbn [gpu_metrics]. rewrite Hlen. f_equal. lia.
  - intros ->. done.
  - intros Hn. unfold TrimmingTest.add_old_records. rewrite decide_False by lia.
    unfold TrimmingTest.range_upto.
    replace (Z.to_nat num_records) with 0%nat by lia. done.
  - intros Hn Hd. unfold TrimmingTest.add_old_records. rewrite decide_False by lia.
    destruct (add_old_records_loop_no_table strftime num_records interval
                (Z.to_nat num_records) 0
                (now - timedelta 2 0 0 - timedelta 7 0 0) [] c)
      as (c' & Hrun & Hd'); [lia|lia|done..|].
    unfold TrimmingTest.range_upto. rewrite Hrun. by exists c'.
Qed.

Lemma add_old_records_adds_num_records_witness :
  txn (connect one_row_store None) = None
  ∧ budget (connect one_row_store None) = None
  ∧ ∃ c' t',
      TrimmingTest.add_old_records (tz := utc) (λ _, "02-20 00:00:00") 201600000000
        1700000000000000 3 (connect one_row_store None)
      = TrimmingTest.Returns tt c'
      ∧ durable c' = Database (Some t')
      ∧ count_records c' = Ok 4 c'
      ∧ rows (trimmed (Trimming.cutoff_time (tz := utc) 1700000000000000) t')
        = rows (trimmed (Trimming.cutoff_time (tz := utc) 1700000000000000)
                  (Table [Row 1 "03-01 00:00:00" 1646092800 (of_int 50) (of_int 10)
                            (of_int 1000) (of_int 100)] 1 true)).
Proof.
  assert (txn (connect one_row_store None) = None) as H1 by reflexivity.
  assert (budget (connect one_row_store None) = None) as H2 by reflexivity.
  split; [exact H1|]. split; [exact H2|].
  destruct (add_old_records_adds_num_records (tz := utc) (λ _, "02-20 00:00:00")
              201600000000 1700000000000000 1700000000000000 3 2000000
              (connect one_row_store None) H1 H2) as (Hpos & _).
  destruct (Hpos ltac:(lia) _ eq_refl)
    as (c' & t' & Hrun & _ & Hd & _ & Hcount & Htrim).
  exists c', t'. split; [exact Hrun|]. split; [exact Hd|]. split; [exact Hcount|].
  apply Htrim; [|exact utc_steady|vm_compute; discriminate|lia].
  unfold TrimmingTest.interval_of. vm_compute. discriminate.
Defined.

(** X12: a whole run of [test_trimming.main].  Without a database file it
    returns 1 and opens nothing.  On a file without the table the first
    count raises and the file stays as it was.  On a file with the table,
    when the trim reads the clock no earlier than [add_old_records] did and
    the slack of the time zone (two seconds on a machine that keeps UTC)
    with the 500000 microseconds of rounding stays below 23 hours 50
    minutes, the run returns, prints the counts n, n + 500000 and n + 500000, k,
    n + 500000 - k (n rows at the start, k of them not older than the
    cutoff), and leaves in the file exactly the rows a trim alone would
    have left: all the 500000 added rows are deleted again. *)
Theorem trimming_test_main_is_a_trim {tz : zone}
    (strftime : Z → string) (interval : Z) (file : option database)
    (now_add now_trim slack : Z) :
  TrimmingTest.interval_of TrimmingTest.default_num_records interval →
  steady slack →
  TrimmingTest.default_num_records + slack ≤ timedelta 0 23 50 →
  now_add ≤ now_trim →
  match file with
  | None =>
      TrimmingTest.main strftime interval file now_add now_trim
      = TrimmingTest.NotFound
  | Some db =>
      match gpu_metrics db with
      | None =>
          TrimmingTest.main strftime interval file now_add now_trim
          = TrimmingTest.Finished
              (TrimmingTest.Raises (TrimmingTest.DatabaseError no_such_table)
                 (connect db None)) db
      | Some t =>
          let kept := trimmed (Trimming.cutoff_time now_trim) t in
          let n := Z.of_nat (length (rows t)) in
          let k := Z.of_nat (length (rows kept)) in
          ∃ c' t',
            TrimmingTest.main strftime interval file now_add now_trim
            = TrimmingTest.Finished
                (TrimmingTest.Returns
                   (n, n + 500000, (n + 500000, k, n + 500000 - k)) c')
                (Database (Some t'))
            ∧ rows t' = rows kept
            ∧ epoch_index t' = epoch_index t
      end
  end.
Proof.
  intros Hi Hsteady Hslack Hnow. destruct file as [db|]; [|done].
  unfold TrimmingTest.main, count_records. rewrite select_count_spec.
  change (view (connect db None)) with db.
  destruct (gpu_metrics db) as [t|] eqn:Ht; [|done]. cbv zeta.
  destruct (add_old_records_returns strftime interval now_add
              TrimmingTest.default_num_records (connect db None) t eq_refl eq_refl)
    as (c1 & t1 & Hrun & Hc1 & Hd1 & Hb1 & Ha & Hlen & Htrim).
  { unfold TrimmingTest.default_num_records. lia. }
  { destruct db as [g]. cbn in Ht. by rewrite Ht. }
  specialize (Htrim now_trim slack Hi Hsteady Hslack Hnow).
  destruct Ha as (new & _ & _ & Hidx).
  set (n := Z.of_nat (length (rows t))).
  set (k := Z.of_nat (length (rows (trimmed (Trimming.cutoff_time now_trim) t)))).
  assert ((middle_count ← count_records;
           counts ← perform_trim_operation now_trim;
           mret (n, middle_count, counts)) c1
          = Ok (n, n + 500000, (n + 500000, k, n + 500000 - k))
               (Conn (Database (Some (trimmed (Trimming.cutoff_time now_trim) t1)))
                  None (budget c1))) as Hrest.
  { unfold count_records. unfold mbind at 1, M_bind.
    rewrite select_count_spec, (view_committed c1 Hc1), Hd1. cbn [gpu_metrics].
    unfold mbind at 1, M_bind.
    rewrite perform_trim_operation_spec, (view_committed c1 Hc1), Hd1.
    cbn [gpu_metrics]. cbv zeta. unfold mret, M_ret.
    rewrite Htrim, Hlen. fold k.
    replace (Z.of_nat (length (rows t) + Z.to_nat TrimmingTest.default_num_records))
      with (n + 500000)
      by (subst n; unfold TrimmingTest.default_num_records; lia).
    reflexivity. }
  rewrite Hrun. unfold count_records in Hrest. rewrite Hrest.
  eexists _, (trimmed (Trimming.cutoff_time now_trim) t1).
  split; [reflexivity|]. split; [exact Htrim|exact Hidx].
Qed.

Lemma trimming_test_main_is_a_trim_witness :
  TrimmingTest.interval_of TrimmingTest.default_num_records 1209600
  ∧ steady (tz := utc) 2000000
  ∧ TrimmingTest.default_num_records + 2000000 ≤ timedelta 0 23 50
  ∧ 1700000000000000 ≤ 1700000000000001
  ∧ ∃ c' t',
      TrimmingTest.main (tz := utc) (λ _, "02-20 00:00:00") 1209600
        (Some one_row_store) 1700000000000000 1700000000000001
      = TrimmingTest.Finished
          (TrimmingTest.Returns (1, 500001, (500001, 0, 500001)) c')
          (Database (Some t'))
      ∧ rows t' = []
      ∧ epoch_index t' = true.
Proof.
  assert (TrimmingTest.interval_of TrimmingTest.default_num_records 1209600) as H1.
  { unfold TrimmingTest.interval_of. vm_compute. discriminate. }
  assert (TrimmingTest.default_num_records + 2000000 ≤ timedelta 0 23 50) as H3.
  { vm_compute. discriminate. }
  assert (1700000000000000 ≤ 1700000000000001) as H2 by lia.
  split; [exact H1|]. split; [exact utc_steady|]. split; [exact H3|].
  split; [exact H2|].
  exact (trimming_test_main_is_a_trim (tz := utc) (λ _, "02-20 00:00:00") 1209600
           (Some one_row_store) 1700000000000000 1700000000000001 2000000
           H1 utc_steady H3 H2).
Defined.


(** X14: [check_and_install_dependencies] never returns [True].  In every
    environment and from every state of the installer it returns [False]
    and raises nothing; the only program it can run is [apt-get update],
    [apt-get install] is never run, and the final message is never
    logged.  When [apt-get] exists and the update ends with status 0, the
    call ends in the [TypeError] of line 271, where a list is added to the
    [None] that [extend] returns; by then [extend] has added four names to
    [self.required_packages], which grows with every call. *)
Theorem check_and_install_dependencies_never_succeeds
    (env : InstallerSteps.environment) (s : InstallerSteps.state) :
  let update_ok :=
    InstallerSteps.path_exists env "/usr/bin/apt-get"
    && bool_decide (InstallerSteps.returncode_of env ["apt-get"; "update"] = Some 0) in
  ∃ s' added,
    InstallerSteps.check_and_install_dependencies env s = InstallerSteps.Return false s'
    ∧ InstallerSteps.trace s' = InstallerSteps.trace s ++ added
    ∧ Forall (λ ev, InstallerSteps.is_run ev →
                    ev = InstallerSteps.Run ["apt-get"; "update"]) added
    ∧ (InstallerSteps.LogInfo "All dependencies installed successfully" ∉ added)
    ∧ InstallerSteps.required_packages s'
      = InstallerSteps.required_packages s
        ++ (if update_ok then InstallerSteps.extension else [])
    ∧ (if update_ok
       then last added
            = Some (InstallerSteps.LogException "Error installing dependencies"
                      (InstallerSteps.TypeError "+" "list" "NoneType"))
       else True).
Proof.
  cbv zeta. unfold InstallerSteps.check_and_install_dependencies,
    InstallerSteps.try_except, InstallerSteps.subprocess_run, mbind,
    InstallerSteps.Step_bind, InstallerSteps.emit.
  cbn [InstallerSteps.trace InstallerSteps.required_packages].
  destruct (InstallerSteps.path_exists env "/usr/bin/apt-get"); cbn [negb andb].
  - destruct (InstallerSteps.returncode_of env ["apt-get"; "update"]) as [code|].
    + destruct (decide (code = 0)) as [->|Hcode].
      * rewrite bool_decide_false by (intros ?; done). cbn [andb].
        rewrite bool_decide_true by done.
        eexists _, _. split; [reflexivity|].
        cbn [InstallerSteps.trace InstallerSteps.required_packages].
        split; [by rewrite <-!(assoc_L (++))|]. cbn [app].
        split; [|split; [|split; [done|done]]].
        -- repeat (apply Forall_cons; split; [by cbn|]). apply Forall_nil_2.
        -- rewrite !elem_of_cons, elem_of_nil. intros [?|[?|[?|[?|[?|?]]]]]; done.
      * rewrite bool_decide_true by done. cbn [andb].
        rewrite bool_decide_false by (intros [= ?]; done).
        eexists _, _. split; [reflexivity|].
        cbn [InstallerSteps.trace InstallerSteps.required_packages].
        split; [by rewrite <-!(assoc_L (++))|]. cbn [app].
        split; [|split; [|split; [by rewrite app_nil_r|done]]].
        -- repeat (apply Forall_cons; split; [by cbn|]). apply Forall_nil_2.
        -- rewrite !elem_of_cons, elem_of_nil. intros [?|[?|[?|[?|?]]]]; done.
    + rewrite bool_decide_false by done.
      eexists _, _. split; [reflexivity|].
      cbn [InstallerSteps.trace InstallerSteps.required_packages].
      split; [by rewrite <-!(assoc_L (++))|]. cbn [app].
      split; [|split; [|split; [by rewrite app_nil_r|done]]].
      -- repeat (apply Forall_cons; split; [by cbn|]). apply Forall_nil_2.
      -- rewrite !elem_of_cons, elem_of_nil. intros [?|[?|[?|[?|?]]]]; done.
  - eexists _, _. split; [reflexivity|].
    cbn [InstallerSteps.trace InstallerSteps.required_packages].
    split; [by rewrite <-!(assoc_L (++))|]. cbn [app].
    split; [|split; [|split; [by rewrite app_nil_r|done]]].
    -- repeat (apply Forall_cons; split; [by cbn|]). apply Forall_nil_2.
    -- rewrite !elem_of_cons, elem_of_nil. intros [?|[?|?]]; done.
Qed.


Section NvidiaPathFacts.

Import InstallerSteps.

(** What [detect_environment] returns, and what it logs. *)
Lemma detect_environment_spec env s :
  ∃ env_type added,
    detect_environment env s
    = Return env_type (State (required_packages s) (trace s ++ added))
    ∧ Forall (λ ev, ¬ is_run ev) added
    ∧ (env_type = "wsl" ↔ on_wsl env = true)
    ∧ env_type ∈ ["wsl"; "ubuntu"; "debian"; "unknown"]
    ∧ (read_lower env "/proc/version" = None → env_type = "unknown").
Proof.
  unfold detect_environment, try_except, read_file_lower, on_wsl, mbind, Step_bind.
  destruct (read_lower env "/proc/version") as [version_info|]; cbn.
  - destruct (contains "microsoft" version_info || contains "wsl" version_info).
    + exists "wsl", []. rewrite app_nil_r. destruct s. cbn.
      split; [done|]. split; [done|]. split; [done|]. split; [set_solver|done].
    + destruct (path_exists env "/etc/debian_version").
      * destruct (read_lower env "/etc/os-release") as [os_info|]; cbn.
        -- destruct (contains "ubuntu" os_info).
           ++ exists "ubuntu", []. rewrite app_nil_r. destruct s. cbn.
              split; [done|]. split; [done|]. split; [done|].
              split; [set_solver|done].
           ++ exists "debian", []. rewrite app_nil_r. destruct s. cbn.
              split; [done|]. split; [done|]. split; [done|].
              split; [set_solver|done].
        -- eexists "unknown", [_]. split; [done|].
           split; [apply Forall_singleton; cbn; tauto|]. split; [done|].
           split; [set_solver|done].
      * exists "unknown", []. rewrite app_nil_r. destruct s. cbn.
        split; [done|]. split; [done|]. split; [done|]. split; [set_solver|done].
  - eexists "unknown", [_]. split; [done|].
    split; [apply Forall_singleton; cbn; tauto|]. split; [done|].
    split; [set_solver|done].
Qed.

Lemma working_bool env path :
  bool_decide (working env path)
  = path_exists env path && bool_decide (returncode_of env [path] = Some 0).
Proof.
  case_bool_decide as H; unfold working in H.
  - destruct H as [-> ->]. by rewrite bool_decide_true.
  - symmetry. apply andb_false_iff.
    destruct (path_exists env path); [|by left]. right.
    apply bool_decide_false. intros Hr. by apply H.
Qed.

(** One candidate: it is returned exactly when it works, and it is run
    only when it exists. *)
Lemma works_spec env path s :
  ∃ added,
    works env path s
    = Return (bool_decide (working env path))
        (State (required_packages s) (trace s ++ added))
    ∧ Forall (λ ev, is_run ev → ev = Run [path] ∧ path_exists env path = true) added.
Proof.
  rewrite working_bool.
  unfold works, try_except, subprocess_run, mbind, Step_bind, emit.
  destruct (path_exists env path) eqn:He; cbn.
  - destruct (returncode_of env [path]) as [code|] eqn:Hr; cbn.
    + destruct (decide (code = 0)) as [->|Hc]; cbn.
      * eexists [_; _]. rewrite <-(assoc_L (++)). split; [done|].
        repeat (apply Forall_cons; split; [by cbn|]). apply Forall_nil_2.
      * eexists [_]. split.
        { rewrite bool_decide_false by (intros [= ?]; done). done. }
        repeat (apply Forall_cons; split; [by cbn|]). apply Forall_nil_2.
    + eexists [_; _]. rewrite <-(assoc_L (++)). split; [done|].
      repeat (apply Forall_cons; split; [by cbn|]). apply Forall_nil_2.
  - exists []. rewrite app_nil_r. destruct s. split; [done|].
    apply Forall_nil_2.
Qed.

(** The loop returns the first candidate that works. *)
Lemma check_each_spec env paths : ∀ s,
  ∃ added,
    check_each env paths s
    = Return (head (filter (working env) paths))
        (State (required_packages s) (trace s ++ added))
    ∧ Forall (λ ev, is_run ev →
                    ∃ path, ev = Run [path] ∧ path ∈ paths
                            ∧ path_exists env path = true) added.
Proof.
  induction paths as [|path paths IH]; intros s.
  - eexists [_]. split; [done|]. by apply Forall_singleton.
  - cbn [check_each]. unfold mbind, Step_bind.
    destruct (works_spec env path s) as (added1 & -> & H1).
    assert (Forall (λ ev, is_run ev →
                      ∃ p, ev = Run [p] ∧ p ∈ path :: paths
                           ∧ path_exists env p = true) added1) as H1'.
    { eapply Forall_impl; [exact H1|]. intros ev Hev Hrun.
      destruct (Hev Hrun) as [-> He]. exists path. split; [done|].
      split; [apply elem_of_cons; by left|done]. }
    case_bool_decide as Hw.
    + exists added1. rewrite filter_cons_True by done. done.
    + destruct (IH (State (required_packages s) (trace s ++ added1)))
        as (added2 & -> & H2).
      exists (added1 ++ added2). rewrite filter_cons_False by done.
      cbn [required_packages trace]. rewrite (assoc_L (++)). split; [done|].
      apply Forall_app. split; [done|].
      eapply Forall_impl; [exact H2|]. intros ev Hev Hrun.
      destruct (Hev Hrun) as (p & -> & Hp & He). exists p. split; [done|].
      split; [apply elem_of_cons; by right|done].
Qed.

Lemma filter_nil_none {A} (P : A → Prop) `{∀ x, Decision (P x)} (l : list A) :
  filter P l = [] → Forall (λ x, ¬ P x) l.
Proof.
  induction l as [|x l IH]; [by intros _; apply Forall_nil_2|].
  destruct (decide (P x)) as [Hx|Hx].
  - by rewrite filter_cons_True.
  - rewrite filter_cons_False by done. intros Hl. apply Forall_cons. auto.
Qed.

End NvidiaPathFacts.

(** X15: [check_nvidia_paths] returns the first candidate that works.  In
    every environment it returns and raises nothing; the candidates are
    the three standard paths, followed by the two WSL paths exactly when
    [/proc/version] can be read and its lower-cased text contains
    [microsoft] or [wsl]; the result is the first candidate, in this
    order, that exists and whose program ends with status 0, and [None]
    exactly when no candidate does; every program run is a candidate that
    exists; [self.required_packages] is not touched. *)
Theorem check_nvidia_paths_first_working
    (env : InstallerSteps.environment) (s : InstallerSteps.state) :
  let candidates :=
    InstallerSteps.nvidia_smi_paths
      (if InstallerSteps.on_wsl env then "wsl" else "unknown") in
  ∃ found added,
    InstallerSteps.check_nvidia_paths env s
    = InstallerSteps.Return found
        (InstallerSteps.State (InstallerSteps.required_packages s)
           (InstallerSteps.trace s ++ added))
    ∧ found = head (filter (InstallerSteps.working env) candidates)
    ∧ (found = None ↔ Forall (λ path, ¬ InstallerSteps.working env path) candidates)
    ∧ Forall (λ ev, InstallerSteps.is_run ev →
                    ∃ path, ev = InstallerSteps.Run [path] ∧ path ∈ candidates
                            ∧ InstallerSteps.path_exists env path = true) added.
Proof.
  cbv zeta. unfold InstallerSteps.check_nvidia_paths, mbind, InstallerSteps.Step_bind.
  destruct (detect_environment_spec env s)
    as (env_type & added0 & -> & H0 & Hwsl & _ & _).
  assert (InstallerSteps.nvidia_smi_paths env_type
          = InstallerSteps.nvidia_smi_paths
              (if InstallerSteps.on_wsl env then "wsl" else "unknown"))
    as Hcand.
  { unfold InstallerSteps.nvidia_smi_paths. f_equal.
    destruct (InstallerSteps.on_wsl env).
    - by rewrite (proj2 Hwsl eq_refl).
    - rewrite decide_False; [by rewrite decide_False|].
      intros H. by apply Hwsl in H. }
  unfold InstallerSteps.emit.
  cbn [InstallerSteps.required_packages InstallerSteps.trace].
  destruct (check_each_spec env (InstallerSteps.nvidia_smi_paths env_type)
              (InstallerSteps.State (InstallerSteps.required_packages s)
                 ((InstallerSteps.trace s ++ added0)
                  ++ [InstallerSteps.LogInfo "Checking NVIDIA paths for environment"])))
    as (added1 & -> & H1).
  cbn [InstallerSteps.required_packages InstallerSteps.trace].
  rewrite Hcand in *.
  eexists _, (added0 ++ [_] ++ added1). split.
  { by rewrite <-!(assoc_L (++)). }
  split; [done|]. split.
  - rewrite head_None. split.
    + apply filter_nil_none.
    + intros Hall. by apply filter_none.
  - apply Forall_app. split.
    { eapply Forall_impl; [exact H0|]. intros ev Hev Hrun. done. }
    apply Forall_app. split; [by apply Forall_singleton|done].
Qed.


Section TraversalFacts.

Lemma split_on_no_slash s : no_slash s → split_on "/" s = [s].
Proof.
  induction s as [|c s IH]; [done|]. intros [Hc Hs]. cbn [split_on].
  rewrite decide_False by done. by rewrite IH.
Qed.

Lemma split_on_append a rest :
  no_slash a →
  split_on "/" (String.append a (String "/" rest)) = a :: split_on "/" rest.
Proof.
  induction a as [|c a IH]; [done|]. intros [Hc Ha].
  change (String.append (String c a) (String "/" rest))
    with (String c (String.append a (String "/" rest))).
  cbn [split_on]. rewrite decide_False by done. by rewrite IH.
Qed.

Lemma split_on_join names :
  names ≠ [] → Forall no_slash names → split_on "/" (join names) = names.
Proof.
  induction names as [|name names IH]; [done|]. intros _ Hall.
  apply Forall_cons in Hall as [Hn Hall]. cbn [join].
  destruct names as [|name' names]; [by apply split_on_no_slash|].
  rewrite split_on_append by done. by rewrite IH.
Qed.

Lemma rstrip_no_slash s : no_slash s → rstrip "/" s = s.
Proof.
  induction s as [|c s IH]; [done|]. intros [Hc Hs]. cbn [rstrip].
  rewrite IH by done. destruct s; [by rewrite decide_False|done].
Qed.

Lemma rstrip_append a b :
  rstrip "/" b ≠ "" → rstrip "/" (String.append a b) = String.append a (rstrip "/" b).
Proof.
  intros Hb. induction a as [|c a IH]; [done|].
  change (String.append (String c a) b) with (String c (String.append a b)).
  change (String.append (String c a) (rstrip "/" b))
    with (String c (String.append a (rstrip "/" b))).
  cbn [rstrip]. rewrite IH.
  destruct (String.append a (rstrip "/" b)) eqn:E; [|done].
  destruct a; cbn [String.append] in E; [by destruct Hb|done].
Qed.

Lemma join_nonempty names :
  names ≠ [] → Forall (λ name, name ≠ "") names → join names ≠ "".
Proof.
  destruct names as [|name names]; [done|]. intros _ Hall.
  apply Forall_cons in Hall as [Hn _]. cbn [join].
  destruct names; [done|]. by destruct name.
Qed.

Lemma rstrip_join names :
  names ≠ [] →
  Forall (λ name, name ≠ "" ∧ no_slash name) names →
  rstrip "/" (join names) = join names.
Proof.
  induction names as [|name names IH]; [done|]. intros _ Hall.
  apply Forall_cons in Hall as [[Hn Hs] Hall]. cbn [join].
  destruct names as [|name' names]; [by apply rstrip_no_slash|].
  assert (rstrip "/" (join (name' :: names)) = join (name' :: names)) as Hr
    by (by apply IH).
  assert (join (name' :: names) ≠ "") as Hne.
  { apply join_nonempty; [done|]. eapply Forall_impl; [exact Hall|]. by intros ? []. }
  rewrite (rstrip_append name (String "/" (join (name' :: names)))).
  - cbn [rstrip]. rewrite Hr. by destruct (join (name' :: names)).
  - cbn [rstrip]. rewrite Hr. by destruct (join (name' :: names)).
Qed.

Lemma join_head names :
  names ≠ [] →
  Forall (λ name, name ≠ "" ∧ no_slash name) names →
  ∃ c rest, join names = String c rest ∧ c ≠ "/"%char.
Proof.
  destruct names as [|name names]; [done|]. intros _ Hall.
  apply Forall_cons in Hall as [[Hn Hs] _].
  destruct name as [|c name]; [done|]. destruct Hs as [Hc _]. cbn [join].
  destruct names; by eexists _, _.
Qed.

(** Stripping the request path of a joined list of names gives the joined
    names back. *)
Lemma strip_join names :
  names ≠ [] →
  Forall (λ name, name ≠ "" ∧ no_slash name) names →
  strip "/" (String "/" (join names)) = join names.
Proof.
  intros Hne Hall. unfold strip.
  destruct (join_head names Hne Hall) as (c & rest & Hj & Hc).
  cbn [lstrip]. rewrite decide_True by done. rewrite Hj. cbn [lstrip].
  rewrite decide_False by done. rewrite <-Hj. by apply rstrip_join.
Qed.

Lemma resolve_relative fs c rest :
  c ≠ "/"%char →
  resolve fs (String c rest) = walk fs (cwd fs) (split_on "/" (String c rest)).
Proof.
  intros Hc. unfold resolve.
  destruct c as [[] [] [] [] [] [] [] []]; done.
Qed.

(** As many [..] as the working directory is deep lead to the root. *)
Lemma walk_up fs rest : ∀ cur,
  (∀ q, q `prefix_of` cur → q ∈ dirs fs) →
  walk fs cur (replicate (length cur) ".." ++ rest) = walk fs [] rest.
Proof.
  induction cur as [|x cur IH] using rev_ind; [done|]. intros Hdirs.
  rewrite length_app, Nat.add_1_r. cbn [replicate app walk].
  rewrite decide_True by (by apply Hdirs).
  rewrite decide_False by (intros [?|?]; done).
  rewrite decide_True by done. rewrite removelast_last. apply IH.
  intros q Hq. apply Hdirs. etrans; [exact Hq|]. by apply prefix_app_r.
Qed.

(** A path of entry names whose directories exist leads to its end. *)
Lemma walk_to fs p : ∀ cur,
  Forall entry_name p →
  (∀ q, q `prefix_of` p → q ≠ p → cur ++ q ∈ dirs fs) →
  (p ≠ [] → cur ++ p ∈ files fs) →
  walk fs cur p = Some (cur ++ p).
Proof.
  induction p as [|name p IH]; intros cur Hall Hdirs Hfile.
  - by rewrite app_nil_r.
  - apply Forall_cons in Hall as [(Hne & Hdot & Hdd & _) Hall]. cbn [walk].
    assert (cur ∈ dirs fs) as Hcur.
    { rewrite <-(app_nil_r cur). apply Hdirs; [apply prefix_nil|done]. }
    rewrite decide_True by done.
    rewrite decide_False by (intros [?|?]; done).
    rewrite decide_False by done.
    assert (cur ++ [name] ∈ dirs fs ∨ cur ++ [name] ∈ files fs) as Hnext.
    { destruct p as [|name' p]; [right; by apply Hfile|left].
      apply Hdirs; [|done]. by apply (prefix_cons name [] (name' :: p)), prefix_nil. }
    rewrite decide_True by done.
    rewrite IH; [by rewrite <-app_assoc|done| |].
    + intros q Hq Hqp. rewrite <-app_assoc. apply Hdirs.
      * by apply prefix_cons.
      * intros [= ->]. done.
    + intros _. rewrite <-app_assoc. by apply Hfile.
Qed.

Lemma no_slash_dotdot : no_slash "..".
Proof. cbn. repeat split; done. Qed.

(** [rstrip] removes trailing occurrences of the character and nothing
    else. *)
Lemma rstrip_spec ch s :
  ∃ m, s = String.append (rstrip ch s) (string_of_list_ascii (replicate m ch)).
Proof.
  induction s as [|c s (m & Hs)]; [by exists 0%nat|].
  cbn [rstrip]. destruct (rstrip ch s) as [|c' r] eqn:Hr.
  - cbv [String.append] in Hs. case_decide as Hc.
    + subst c. exists (S m). cbn [replicate string_of_list_ascii].
      cbv [String.append]. by f_equal.
    + exists m. cbv [String.append]. by f_equal.
  - exists m.
    change (String c s
            = String c (String.append (String c' r)
                          (string_of_list_ascii (replicate m ch)))).
    by f_equal.
Qed.

Lemma handle_static_unfold fs request :
  let stripped := strip "/" (path request) in
  let file_path := if decide (stripped = "") then "gpu-stats.html" else stripped in
  handle_static fs request
  = match resolve fs file_path with
    | Some _ => FileResponse file_path
    | None => Response 404
    end.
Proof.
  cbv zeta. unfold handle_static, os_path_exists.
  destruct (resolve fs _) as [target|].
  - by rewrite bool_decide_true by (by eexists).
  - by rewrite bool_decide_false by (by intros [? ?]).
Qed.

End TraversalFacts.

(** C9: for every file system and every request, [handle_static] takes
    the request path without the slashes at its two ends (what is left
    neither begins nor ends with a slash), or [gpu-stats.html] when
    nothing is left, and answers with that file when the path leads
    somewhere from the working directory and with status 404 when it does
    not.  A name that is not in the working directory is answered with
    404.  Nothing else is checked: on a file system whose working
    directory is n directories deep, the request path made of n names
    [..] followed by the absolute path of any existing file is answered
    with that file, wherever it lies; so a request path with a [..] name
    is answered with a file outside the working directory. *)
Theorem handle_static_serves_whatever_exists :
  (∀ fs request,
     ∃ (n m : nat) stripped,
       path request
       = String.append (string_of_list_ascii (replicate n "/"%char))
           (String.append stripped (string_of_list_ascii (replicate m "/"%char)))
       ∧ (∀ rest, stripped ≠ String "/" rest)
       ∧ (∀ front, stripped ≠ String.append front "/")
       ∧ let file_path :=
           if decide (stripped = "") then "gpu-stats.html" else stripped in
         match resolve fs file_path with
         | Some _ => handle_static fs request = FileResponse file_path
         | None => handle_static fs request = Response 404
         end)
  ∧ (∀ fs name,
       entry_name name →
       cwd fs ++ [name] ∉ dirs fs →
       cwd fs ++ [name] ∉ files fs →
       handle_static fs (Request (String "/" name)) = Response 404)
  ∧ (∀ fs p,
       p ≠ [] →
       Forall entry_name p →
       (∀ q, q `prefix_of` cwd fs → q ∈ dirs fs) →
       (∀ q, q `prefix_of` p → q ≠ p → q ∈ dirs fs) →
       p ∈ files fs →
       let served := join (replicate (length (cwd fs)) ".." ++ p) in
       handle_static fs (climbing_request fs p) = FileResponse served
       ∧ resolve fs served = Some p
       ∧ (cwd fs ≠ [] → has_dotdot (path (climbing_request fs p))))
  ∧ ∃ fs request file_path target,
      has_dotdot (path request)
      ∧ handle_static fs request = FileResponse file_path
      ∧ resolve fs file_path = Some target
      ∧ target ∈ files fs
      ∧ ¬ inside (cwd fs) target.
Proof.
  split; [|split; [|split]].
  - intros fs request.
    destruct (lstrip_spec "/" (path request)) as (n & Hn & _).
    destruct (rstrip_spec "/" (lstrip "/" (path request))) as (m & Hm).
    exists n, m, (strip "/" (path request)).
    split; [unfold strip; by rewrite <-Hm|].
    split.
    { intros rest Hr. pose proof (strip_head "/" (path request)) as Hh.
      rewrite Hr in Hh. done. }
    split; [apply rstrip_last|].
    rewrite handle_static_unfold. cbv zeta. by destruct (resolve fs _).
  - intros fs name (Hne & Hdot & Hdd & Hs) Hd Hf.
    rewrite handle_static_unfold. cbv zeta. cbn [path].
    assert (strip "/" (String "/" name) = name) as ->.
    { apply (strip_join [name]); [done|]. by repeat constructor. }
    rewrite decide_False by done.
    destruct name as [|c rest]; [done|]. destruct Hs as [Hc Hs].
    rewrite resolve_relative by done.
    rewrite split_on_no_slash by done. cbn [walk].
    case_decide; [|done].
    rewrite decide_False by (intros [?|?]; done).
    rewrite decide_False by done.
    by rewrite decide_False by (intros [?|?]; done).
  - intros fs p Hp Hall Hcwd Hdirs Hfile. cbv zeta.
    set (names := replicate (length (cwd fs)) ".." ++ p).
    assert (names ≠ []) as Hnames by (subst names; by destruct (replicate _ _), p).
    assert (Forall (λ name, name ≠ "" ∧ no_slash name) names) as Hplain.
    { apply Forall_app. split.
      - apply Forall_replicate. split; [done|apply no_slash_dotdot].
      - eapply Forall_impl; [exact Hall|]. by intros ? (? & _ & _ & ?). }
    assert (resolve fs (join names) = Some p) as Hres.
    { destruct (join_head names Hnames Hplain) as (c & rest & Hj & Hc).
      rewrite Hj, resolve_relative, <-Hj by done.
      rewrite split_on_join; [|done|].
      2:{ eapply Forall_impl; [exact Hplain|]. by intros ? []. }
      subst names. rewrite walk_up by done.
      rewrite (walk_to fs p []); [done|done|done|done]. }
    split; [|split; [done|]].
    + rewrite handle_static_unfold. cbv zeta. unfold climbing_request. cbn [path].
      fold names. rewrite strip_join by done.
      rewrite decide_False by (apply join_nonempty; [done|];
        eapply Forall_impl; [exact Hplain|]; by intros ? []).
      by rewrite Hres.
    + intros Hdeep. unfold has_dotdot, climbing_request. cbn [path split_on].
      rewrite decide_True by done. fold names.
      rewrite split_on_join; [|done|].
      2:{ eapply Forall_impl; [exact Hplain|]. by intros ? []. }
      apply elem_of_cons. right. subst names. apply elem_of_app. left.
      destruct (cwd fs); [done|]. cbn. apply elem_of_cons. by left.
  - exists example_fs, (Request "/../etc/passwd"), "../etc/passwd", ["etc"; "passwd"].
    split; [unfold has_dotdot; cbn; set_solver|].
    split; [done|]. split; [done|]. split; [cbn; set_solver|].
    unfold inside. cbn. intros [k Hk]. discriminate.
Qed.
